(** * Bejaus token backend: settlement, mint, perk and vote services

    A shallow embedding of the service layer of the backend
    (TokenService, StripeService, PerkService, VoteService, LedgerService)
    over an explicit model of the relational store, the blockchain client
    and the logger, together with the properties of the accounting and
    settlement core.

    Conventions of the embedding.
    - A JavaScript [number] that holds an amount (a cost, a balance, a
      price) is the rational [Q] it stands for.  What VoteService,
      LedgerService and the checkout compute from numbers, the percentages
      of a tally, the totals of the ledger and the cents of a price, is a
      [Number]: an IEEE 754 double, finite, infinite or NaN, rounded to
      nearest with ties to even.
    - A [Date] is its time value, the number of milliseconds since the
      epoch, as a [Z].
    - A table of the store is the list of its rows in insertion order; a
      row carries the columns the services read or write.
    - An [async] method is a computation in the monad [M]: it reads and
      writes the [World] and either returns a value or throws.  A write
      made before a throw stays made: the services open no transaction.
    - What a method takes from its environment is an argument of its
      embedding: the id the store gives a new row ([newId]), the clock
      ([now]), the random bytes ([random]) and the answers of the
      blockchain SDK ([Chain]) and of the Stripe client.
    - The store answers every query; it refuses a write only for a
      constraint: a unique key, a reference to a row that is missing, an
      update of a row that is missing, data that is no value of a
      column. *)

From Stdlib Require Import List String Ascii ZArith QArith Bool Arith Lia.
From Stdlib Require Import Permutation Sorted.
Import ListNotations.

Local Open Scope string_scope.
Local Open Scope Z_scope.

(** ** Errors and logged values *)

(** What a service method can throw: [CustomError] of errorHandler.ts with
    its HTTP status, a known-request error of the store with its code
    (P2002 unique constraint, P2003 foreign key, P2025 record not found),
    a plain [Error], and a failure raised by the blockchain SDK. *)
Inductive AppError : Type :=
| CustomError (message : string) (statusCode : Z)
| PrismaError (code : string)
| PlainError (message : string)
| SdkError (message : string).

(** The values that appear in the metadata object of a log line. *)
Inductive JsVal : Type :=
| JStr (s : string)
| JNum (q : Q)
| JDate (t : Z)
| JNull
| JErr (e : AppError).

Inductive LogLevel : Type := LInfo | LWarn | LError.

Record LogEntry : Type := mkLog {
  log_level : LogLevel;
  log_message : string;
  log_meta : list (string * JsVal)
}.

(** ** JavaScript numbers

    A [number] is an IEEE 754 double: a finite value, an infinity or NaN.
    A finite value is the rational it stands for, in lowest terms. The
    sign of a zero is not kept; the services compute no result that shows
    it. *)
Inductive Number : Type :=
| Finite (q : Q)
| Infinity (negative : bool)
| NotANumber.

Module Double.

(** [q] times two to the power [- p]. *)
Definition scaled (q : Q) (p : Z) : Q :=
  if (0 <=? p)%Z then Qnum q # (Qden q * Z.to_pos (2 ^ p))
  else (Qnum q * 2 ^ (- p)) # Qden q.

(** The largest [e] with two to the power [e] at most [q], for a positive
    [q]. *)
Definition floor_log2 (q : Q) : Z :=
  let e := (Z.log2 (Qnum q) - Z.log2 (Z.pos (Qden q)))%Z in
  if Qle_bool 1 (scaled q e) then e else (e - 1)%Z.

(** The integer nearest to a rational that is not negative; the even one
    of the two when it lies half way between them. *)
Definition nearest_even (q : Q) : Z :=
  let n := (Qnum q / Z.pos (Qden q))%Z in
  let r := (Qnum q mod Z.pos (Qden q))%Z in
  match (2 * r ?= Z.pos (Qden q))%Z with
  | Lt => n
  | Gt => (n + 1)%Z
  | Eq => if Z.even n then n else (n + 1)%Z
  end.

(** [n] times two to the power [p], in lowest terms. *)
Definition times_pow2 (n p : Z) : Q :=
  Qred (if (0 <=? p)%Z then (n * 2 ^ p) # 1 else n # Z.to_pos (2 ^ (- p))).

(** The double nearest to a positive rational, nothing when it is
    infinite: 53 significant bits, a last place no finer than two to the
    power -1074, and infinite from two to the power 1024 on. *)
Definition round_positive (q : Q) : option Q :=
  let p := Z.max (floor_log2 q - 52) (-1074) in
  let n := nearest_even (scaled q p) in
  if (2 ^ 1024 <=? (if 0 <=? p then n * 2 ^ p else 0))%Z
  then None
  else Some (times_pow2 n p).

(** Rounding to the nearest double, ties to even. *)
Definition round (q : Q) : Number :=
  match Qnum q with
  | Z0 => Finite 0
  | Zpos _ =>
      match round_positive q with
      | Some d => Finite d
      | None => Infinity false
      end
  | Zneg _ =>
      match round_positive (- q) with
      | Some d => Finite (- d)
      | None => Infinity true
      end
  end.

Definition is_zero (q : Q) : bool := (Qnum q =? 0)%Z.

Definition is_negative (q : Q) : bool := (Qnum q <? 0)%Z.

(** The number of a count. *)
Definition of_nat (n : nat) : Number := round (inject_Z (Z.of_nat n)).

(** [a + b]. *)
Definition add (a b : Number) : Number :=
  match a, b with
  | NotANumber, _ | _, NotANumber => NotANumber
  | Infinity s, Infinity t => if Bool.eqb s t then Infinity s else NotANumber
  | Infinity s, Finite _ | Finite _, Infinity s => Infinity s
  | Finite x, Finite y => round (x + y)
  end.

Definition opp (a : Number) : Number :=
  match a with
  | Finite x => Finite (- x)
  | Infinity s => Infinity (negb s)
  | NotANumber => NotANumber
  end.

(** [a - b]. *)
Definition sub (a b : Number) : Number := add a (opp b).

(** [a * b]. *)
Definition mul (a b : Number) : Number :=
  match a, b with
  | NotANumber, _ | _, NotANumber => NotANumber
  | Infinity s, Infinity t => Infinity (xorb s t)
  | Infinity s, Finite y | Finite y, Infinity s =>
      if is_zero y then NotANumber else Infinity (xorb s (is_negative y))
  | Finite x, Finite y => round (x * y)
  end.

(** [a / b]. *)
Definition div (a b : Number) : Number :=
  match a, b with
  | NotANumber, _ | _, NotANumber => NotANumber
  | Infinity _, Infinity _ => NotANumber
  | Infinity s, Finite y => Infinity (xorb s (is_negative y))
  | Finite _, Infinity _ => Finite 0
  | Finite x, Finite y =>
      if is_zero y
      then if is_zero x then NotANumber else Infinity (is_negative x)
      else round (x / y)
  end.

(** JavaScript truthiness of a number: neither zero nor NaN. *)
Definition truthy (a : Number) : bool :=
  match a with
  | Finite x => negb (is_zero x)
  | Infinity _ => true
  | NotANumber => false
  end.

End Double.

(** ** Rows of the store *)

Inductive OrderStatus : Type := Pending | Completed | Failed.

Record User : Type := mkUser {
  user_id : string;
  user_email : string;
  walletAddress : option string
}.

Record Order : Type := mkOrder {
  order_id : string;
  order_userId : string;
  order_productId : string;
  order_status : OrderStatus
}.

Record Payment : Type := mkPayment {
  payment_id : string;
  payment_orderId : string;
  payment_provider : string;
  payment_amountEur : Q;
  payment_status : string
}.

Record Mint : Type := mkMint {
  mint_id : string;
  mint_orderId : string;
  mint_userId : string;
  mint_tokenAmount : Q;
  mint_txHash : string;
  mint_chainId : Z;
  mint_createdAt : Z
}.

Record Perk : Type := mkPerk {
  perk_id : string;
  perk_name : string;
  perk_tokenCost : Q;
  perk_active : bool
}.

Record PerkClaim : Type := mkPerkClaim {
  claim_id : string;
  claim_perkId : string;
  claim_userId : string;
  claim_tokenCost : Q;
  claim_qrCode : string;
  claim_createdAt : Z;
  claim_redeemedAt : option Z
}.

Record Vote : Type := mkVote {
  vote_id : string;
  vote_title : string;
  vote_description : option string;
  vote_startAt : Z;
  vote_endAt : Z;
  vote_active : bool
}.

Record VoteOption : Type := mkVoteOption {
  option_id : string;
  option_voteId : string;
  option_label : string
}.

Record VoteBallot : Type := mkVoteBallot {
  ballot_id : string;
  ballot_voteId : string;
  ballot_optionId : string;
  ballot_userId : string;
  ballot_castAt : Z
}.

Inductive Direction : Type := DirIn | DirOut.
Inductive Currency : Type := EUR | TOKEN.

Record Ledger : Type := mkLedger {
  ledger_id : string;
  ledger_kind : string;
  ledger_refId : string;
  ledger_direction : Direction;
  ledger_amount : Q;
  ledger_currency : Currency;
  ledger_metadataJson : option string;
  ledger_createdAt : Z
}.

(** The schema file of the store is not part of the sources.  Whether a
    second [Mint] or [Payment] row may carry the [orderId] of an existing
    one is therefore a parameter of the store: the order routes read the
    relations as lists ([include: { payments: true, mints: true }]), the
    design document asks for a unique [Mint.orderId]. *)
Record Schema : Type := mkSchema {
  mintOrderIdUnique : bool;
  paymentOrderIdUnique : bool
}.

Record DB : Type := mkDB {
  schema : Schema;
  users : list User;
  orders : list Order;
  payments : list Payment;
  mints : list Mint;
  perks : list Perk;
  perkClaims : list PerkClaim;
  votes : list Vote;
  voteOptions : list VoteOption;
  voteBallots : list VoteBallot;
  ledger : list Ledger
}.

Definition with_orders (d : DB) (x : list Order) : DB :=
  mkDB (schema d) (users d) x (payments d) (mints d) (perks d)
       (perkClaims d) (votes d) (voteOptions d) (voteBallots d) (ledger d).

Definition with_payments (d : DB) (x : list Payment) : DB :=
  mkDB (schema d) (users d) (orders d) x (mints d) (perks d)
       (perkClaims d) (votes d) (voteOptions d) (voteBallots d) (ledger d).

Definition with_mints (d : DB) (x : list Mint) : DB :=
  mkDB (schema d) (users d) (orders d) (payments d) x (perks d)
       (perkClaims d) (votes d) (voteOptions d) (voteBallots d) (ledger d).

Definition with_perks (d : DB) (x : list Perk) : DB :=
  mkDB (schema d) (users d) (orders d) (payments d) (mints d) x
       (perkClaims d) (votes d) (voteOptions d) (voteBallots d) (ledger d).

Definition with_perkClaims (d : DB) (x : list PerkClaim) : DB :=
  mkDB (schema d) (users d) (orders d) (payments d) (mints d) (perks d)
       x (votes d) (voteOptions d) (voteBallots d) (ledger d).

Definition with_voteOptions (d : DB) (x : list VoteOption) : DB :=
  mkDB (schema d) (users d) (orders d) (payments d) (mints d) (perks d)
       (perkClaims d) (votes d) x (voteBallots d) (ledger d).

Definition with_voteBallots (d : DB) (x : list VoteBallot) : DB :=
  mkDB (schema d) (users d) (orders d) (payments d) (mints d) (perks d)
       (perkClaims d) (votes d) (voteOptions d) x (ledger d).

(** ** The blockchain client *)

(** One invocation of [contract.erc20.mintTo]: the target address, the
    amount (the SDK receives its decimal rendering) and what came back,
    the transaction hash of the receipt or nothing when the call threw. *)
Record MintCall : Type := mkMintCall {
  call_to : string;
  call_amount : Q;
  call_txHash : option string
}.

(** What the SDK answers during one service call.  [None] and [false]
    stand for a call that throws. *)
Record Chain : Type := mkChain {
  chain_fromPrivateKey : bool;
  chain_getContract : bool;
  chain_mintTo : string -> Q -> option string;
  chain_balanceOf : string -> option Q
}.

(** ** The world and the monad of service methods *)

Record World : Type := mkWorld {
  db : DB;
  mintCalls : list MintCall;
  logs : list LogEntry;
  sdk : bool
}.

Definition with_db (w : World) (d : DB) : World :=
  mkWorld d (mintCalls w) (logs w) (sdk w).

Inductive Result (A : Type) : Type :=
| Ok (a : A)
| Throw (e : AppError).

Arguments Ok {A} a.
Arguments Throw {A} e.

Definition M (A : Type) : Type := World -> Result A * World.

Definition ret {A} (a : A) : M A := fun w => (Ok a, w).

Definition bind {A B} (m : M A) (k : A -> M B) : M B :=
  fun w =>
    match m w with
    | (Ok a, w') => k a w'
    | (Throw e, w') => (Throw e, w')
    end.

Definition throw {A} (e : AppError) : M A := fun w => (Throw e, w).

(** [try { body } catch (error) { handler }]: the handler starts in the
    world the body left behind. *)
Definition try_catch {A} (body : M A) (handler : AppError -> M A) : M A :=
  fun w =>
    match body w with
    | (Ok a, w') => (Ok a, w')
    | (Throw e, w') => handler e w'
    end.

Definition gets {A} (f : World -> A) : M A := fun w => (Ok (f w), w).

Definition modify (f : World -> World) : M unit := fun w => (Ok tt, f w).

Definition when_ (b : bool) (m : M unit) : M unit :=
  if b then m else ret tt.

Notation "x <- m ;; k" := (bind m (fun x => k))
  (at level 61, m at next level, right associativity).
Notation "m ;;; k" := (bind m (fun _ => k))
  (at level 61, right associativity).

(** *** logger *)

Definition logger_log (lvl : LogLevel) (msg : string)
  (meta : list (string * JsVal)) : M unit :=
  modify (fun w => mkWorld (db w) (mintCalls w)
                           (logs w ++ [mkLog lvl msg meta]) (sdk w)).

Definition logger_info := logger_log LInfo.
Definition logger_warn := logger_log LWarn.

Definition logger_error (msg : string) (e : AppError) : M unit :=
  logger_log LError msg [("error", JErr e)].

(** JavaScript truthiness of a string that may be absent. *)
Definition truthy (s : option string) : bool :=
  match s with
  | Some s' => negb (s' =? "")%string
  | None => false
  end.

(** *** prisma *)

Definition modify_db (f : DB -> DB) : M unit :=
  modify (fun w => with_db w (f (db w))).

Definition user_findUnique (id : string) : M (option User) :=
  gets (fun w => find (fun u => (user_id u =? id)%string) (users (db w))).

Definition set_status (s : OrderStatus) (o : Order) : Order :=
  mkOrder (order_id o) (order_userId o) (order_productId o) s.

Definition status_eqb (a b : OrderStatus) : bool :=
  match a, b with
  | Pending, Pending | Completed, Completed | Failed, Failed => true
  | _, _ => false
  end.

(** An update whose [where] names a unique key rewrites one row. *)
Fixpoint update_first {A} (where_ : A -> bool) (data : A -> A) (l : list A)
  : list A :=
  match l with
  | [] => []
  | x :: l' =>
      if where_ x then data x :: l' else x :: update_first where_ data l'
  end.

(** [prisma.order.updateMany({ where, data })]: every row that matches is
    rewritten; no match is not an error. *)
Definition order_updateMany (where_ : Order -> bool) (data : Order -> Order)
  : M unit :=
  modify_db (fun d =>
    with_orders d (map (fun o => if where_ o then data o else o) (orders d))).

(** [prisma.order.update({ where: { id }, data })]: throws P2025 when no
    row has the id. *)
Definition order_update (id : string) (data : Order -> Order) : M unit :=
  fun w =>
    if existsb (fun o => (order_id o =? id)%string) (orders (db w))
    then (Ok tt,
          with_db w (with_orders (db w)
            (update_first (fun o => (order_id o =? id)%string) data
                          (orders (db w)))))
    else (Throw (PrismaError "P2025"), w).

(** [prisma.mint.create]: the row refers to its order (the routes read
    [order.mints] and [mint.order]), so P2003 when the order is missing;
    and the store refuses a second row for the order, with P2002, when the
    schema says so. *)
Definition mint_create (newId : string) (now : Z)
  (orderId userId : string) (tokenAmount : Q) (txHash : string) (chainId : Z)
  : M Mint :=
  fun w =>
    let d := db w in
    if negb (existsb (fun o => (order_id o =? orderId)%string) (orders d))
    then (Throw (PrismaError "P2003"), w)
    else if mintOrderIdUnique (schema d)
            && existsb (fun m => (mint_orderId m =? orderId)%string) (mints d)
    then (Throw (PrismaError "P2002"), w)
    else
      let m := mkMint newId orderId userId tokenAmount txHash chainId now in
      (Ok m, with_db w (with_mints d (mints d ++ [m]))).

(** ** TokenService *)

Module TokenService.

Record MintResult : Type := mkMintResult {
  txHash : string;
  success : bool
}.

(** [ThirdwebSDK.fromPrivateKey] inside [initialize]. *)
Definition initialize (bc : Chain) : M unit :=
  try_catch
    (if chain_fromPrivateKey bc
     then
       modify (fun w => mkWorld (db w) (mintCalls w) (logs w) true) ;;;
       logger_info "Thirdweb SDK initialized" []
     else throw (SdkError "fromPrivateKey"))
    (fun error =>
       logger_error "Error initializing Thirdweb SDK:" error ;;;
       throw error).

Definition ensure_sdk (bc : Chain) : M unit :=
  ready <- gets sdk ;;
  if ready then ret tt else initialize bc.

Definition getContract (bc : Chain) : M unit :=
  if chain_getContract bc then ret tt else throw (SdkError "getContract").

(** [contract.erc20.mintTo(targetAddress, tokenAmount.toString())]; every
    invocation is recorded, whatever its outcome. *)
Definition erc20_mintTo (bc : Chain) (targetAddress : string) (amount : Q)
  : M string :=
  let r := chain_mintTo bc targetAddress amount in
  modify (fun w => mkWorld (db w)
                     (mintCalls w ++ [mkMintCall targetAddress amount r])
                     (logs w) (sdk w)) ;;;
  match r with
  | Some txHash => ret txHash
  | None => throw (SdkError "mintTo")
  end.

Definition mintTokens_body (bc : Chain) (newId : string) (now : Z)
  (orderId userId : string) (tokenAmount : Q)
  (recipientAddress : option string) : M MintResult :=
  ensure_sdk bc ;;;
  user <- user_findUnique userId ;;
  let wallet := match user with Some u => walletAddress u | None => None end in
  when_ (negb (truthy wallet) && negb (truthy recipientAddress))
        (throw (CustomError "Usuario sin dirección de wallet" 400)) ;;;
  let targetAddress :=
    if truthy recipientAddress
    then match recipientAddress with Some a => a | None => "" end
    else match wallet with Some a => a | None => "" end in
  getContract bc ;;;
  tx <- erc20_mintTo bc targetAddress tokenAmount ;;
  logger_info "Mint transaction sent"
    [("txHash", JStr tx); ("orderId", JStr orderId);
     ("userId", JStr userId); ("tokenAmount", JNum tokenAmount);
     ("recipientAddress", JStr targetAddress)] ;;;
  _ <- mint_create newId now orderId userId tokenAmount tx 137 ;;
  order_updateMany
    (fun o => (order_id o =? orderId)%string
              && status_eqb (order_status o) Pending)
    (set_status Completed) ;;;
  ret (mkMintResult tx true).

(** The [catch] block of [mintTokens]. *)
Definition mintTokens_catch (orderId : string) (error : AppError)
  : M MintResult :=
  logger_error "Error minting tokens:" error ;;;
  order_updateMany (fun o => (order_id o =? orderId)%string)
                   (set_status Failed) ;;;
  throw error.

Definition mintTokens (bc : Chain) (newId : string) (now : Z)
  (orderId userId : string) (tokenAmount : Q)
  (recipientAddress : option string) : M MintResult :=
  try_catch
    (mintTokens_body bc newId now orderId userId tokenAmount recipientAddress)
    (mintTokens_catch orderId).

Definition getTokenBalance (bc : Chain) (address : string) : M Q :=
  try_catch
    (ensure_sdk bc ;;;
     getContract bc ;;;
     match chain_balanceOf bc address with
     | Some balance => ret balance
     | None => throw (SdkError "balanceOf")
     end)
    (fun error =>
       logger_error "Error getting token balance:" error ;;;
       throw error).

End TokenService.

(** ** StripeService *)

(** [prisma.payment.create]: as for a mint, the row refers to its order
    (the routes read [order.payments]). *)
Definition payment_create (newId orderId provider : string) (amountEur : Q)
  (status : string) : M Payment :=
  fun w =>
    let d := db w in
    if negb (existsb (fun o => (order_id o =? orderId)%string) (orders d))
    then (Throw (PrismaError "P2003"), w)
    else if paymentOrderIdUnique (schema d)
            && existsb (fun p => (payment_orderId p =? orderId)%string)
                       (payments d)
    then (Throw (PrismaError "P2002"), w)
    else
      let p := mkPayment newId orderId provider amountEur status in
      (Ok p, with_db w (with_payments d (payments d ++ [p]))).

Module StripeService.

(** The fields of [Stripe.Checkout.Session] the handler reads; a metadata
    key that is absent is [None], [amount_total] is in cents. *)
Record Session : Type := mkSession {
  session_id : string;
  meta_orderId : option string;
  meta_userId : option string;
  meta_productId : option string;
  meta_tokenAmount : option string;
  amount_total : option Z
}.

Definition amountEur_of (s : Session) : Q :=
  match amount_total s with
  | Some n => if (n =? 0)%Z then 0%Q else (inject_Z n / 100)%Q
  | None => 0%Q
  end.

Definition handleCheckoutCompleted (newId : string) (session : Session)
  : M unit :=
  if negb (truthy (meta_orderId session)) || negb (truthy (meta_userId session))
     || negb (truthy (meta_productId session))
     || negb (truthy (meta_tokenAmount session))
  then throw (PlainError "Metadata incompleta en la sesión de Stripe")
  else
    let orderId := match meta_orderId session with Some x => x | None => "" end in
    let userId := match meta_userId session with Some x => x | None => "" end in
    order_update orderId (set_status Completed) ;;;
    _ <- payment_create newId orderId "stripe" (amountEur_of session)
                        "completed" ;;
    logger_info "Checkout completed"
      [("orderId", JStr orderId); ("userId", JStr userId);
       ("sessionId", JStr (session_id session))].

End StripeService.

(** ** PerkService *)

(** *** Strings of JavaScript used by [generateQRCode] *)

Definition digit_chars : list ascii :=
  list_ascii_of_string "0123456789abcdefghijklmnopqrstuvwxyz".

Definition digit_char (d : Z) : ascii := nth (Z.to_nat d) digit_chars "0"%char.

Fixpoint radix_digits (fuel : nat) (radix n : Z) (acc : string) : string :=
  match fuel with
  | O => acc
  | S fuel' =>
      let acc' := String (digit_char (n mod radix)) acc in
      if (n / radix =? 0)%Z then acc'
      else radix_digits fuel' radix (n / radix) acc'
  end.

(** [n.toString(36)] for an integer [n]. *)
Definition toString36 (n : Z) : string :=
  if (n <? 0)%Z
  then "-" ++ radix_digits (S (Z.to_nat (Z.log2 (- n)))) 36 (- n) ""
  else radix_digits (S (Z.to_nat (Z.log2 n))) 36 n "".

(** [buffer.toString("hex")]: two lower-case digits for each byte. *)
Definition hex_of_byte (b : Byte.byte) : string :=
  let n := Z.of_N (Byte.to_N b) in
  String (digit_char (n / 16)) (String (digit_char (n mod 16)) "").

Definition toHex (bytes : list Byte.byte) : string :=
  concat "" (map hex_of_byte bytes).

Definition upper_char (c : ascii) : ascii :=
  let n := nat_of_ascii c in
  if (97 <=? n)%nat && (n <=? 122)%nat then ascii_of_nat (n - 32) else c.

Fixpoint toUpperCase (s : string) : string :=
  match s with
  | EmptyString => EmptyString
  | String c s' => String (upper_char c) (toUpperCase s')
  end.

(** *** prisma *)

(** Modelled from the spec: the schema file of the store is not part of
    the sources; the design lists [qrCode] as a unique column of the
    persisted layout, so the store refuses a claim whose code a claim of
    the table already has. *)
Definition qrCode_taken (d : DB) (qrCode : string) : bool :=
  existsb (fun c => (claim_qrCode c =? qrCode)%string) (perkClaims d).

(** [prisma.perkClaim.create]: P2002 when the code is taken. *)
Definition perkClaim_create (newId : string) (now : Z)
  (perkId userId : string) (tokenCost : Q) (qrCode : string) : M PerkClaim :=
  fun w =>
    let d := db w in
    if qrCode_taken d qrCode
    then (Throw (PrismaError "P2002"), w)
    else
      let c := mkPerkClaim newId perkId userId tokenCost qrCode now None in
      (Ok c, with_db w (with_perkClaims d (perkClaims d ++ [c]))).

Definition perkClaim_findUnique (id : string) : M (option PerkClaim) :=
  gets (fun w => find (fun c => (claim_id c =? id)%string) (perkClaims (db w))).

Definition set_redeemedAt (t : option Z) (c : PerkClaim) : PerkClaim :=
  mkPerkClaim (claim_id c) (claim_perkId c) (claim_userId c)
              (claim_tokenCost c) (claim_qrCode c) (claim_createdAt c) t.

(** [prisma.perkClaim.update({ where: { id }, data })] returns the row as
    rewritten and throws P2025 when no row has the id. *)
Definition perkClaim_update (id : string) (data : PerkClaim -> PerkClaim)
  : M PerkClaim :=
  fun w =>
    let d := db w in
    match find (fun c => (claim_id c =? id)%string) (perkClaims d) with
    | None => (Throw (PrismaError "P2025"), w)
    | Some c =>
        (Ok (data c),
         with_db w (with_perkClaims d
           (update_first (fun c' => (claim_id c' =? id)%string) data
                         (perkClaims d))))
    end.

Definition set_perk_active (b : bool) (p : Perk) : Perk :=
  mkPerk (perk_id p) (perk_name p) (perk_tokenCost p) b.

Definition perk_update (id : string) (data : Perk -> Perk) : M Perk :=
  fun w =>
    let d := db w in
    match find (fun p => (perk_id p =? id)%string) (perks d) with
    | None => (Throw (PrismaError "P2025"), w)
    | Some p =>
        (Ok (data p),
         with_db w (with_perks d
           (update_first (fun p' => (perk_id p' =? id)%string) data
                         (perks d))))
    end.

Module PerkService.

Definition getPerkById (perkId : string) : M Perk :=
  try_catch
    (perk <- gets (fun w =>
               find (fun p => (perk_id p =? perkId)%string && perk_active p)
                    (perks (db w))) ;;
     match perk with
     | None => throw (CustomError "Perk no encontrado" 404)
     | Some p => ret p
     end)
    (fun error =>
       logger_error "Error getting perk by ID:" error ;;;
       throw error).

(** [generateQRCode]: [now] is [Date.now()], [random] is [randomBytes(8)]. *)
Definition generateQRCode (now : Z) (random : list Byte.byte) : string :=
  toUpperCase ("PERK_" ++ toString36 now ++ "_" ++ toHex random).

Definition claimPerk (bc : Chain) (newId : string) (now : Z)
  (random : list Byte.byte) (perkId userId : string) : M PerkClaim :=
  try_catch
    (perk <- getPerkById perkId ;;
     user <- user_findUnique userId ;;
     let wallet := match user with Some u => walletAddress u | None => None end in
     match wallet with
     | Some address =>
         if negb (truthy wallet)
         then throw (CustomError "Usuario sin dirección de wallet" 400)
         else
           balance <- TokenService.getTokenBalance bc address ;;
           if Qlt_le_dec balance (perk_tokenCost perk)
           then throw (CustomError
                         "Saldo insuficiente para reclamar este perk" 400)
           else
             let qrCode := generateQRCode now random in
             claim <- perkClaim_create newId now perkId userId
                                       (perk_tokenCost perk) qrCode ;;
             logger_info "Perk claimed"
               [("claimId", JStr (claim_id claim)); ("perkId", JStr perkId);
                ("userId", JStr userId);
                ("tokenCost", JNum (perk_tokenCost perk));
                ("qrCode", JStr qrCode)] ;;;
             ret claim
     | None => throw (CustomError "Usuario sin dirección de wallet" 400)
     end)
    (fun error =>
       logger_error "Error claiming perk:" error ;;;
       throw error).

(** [redeemPerk] up to its first [await]: the lookup of the claim. *)
Definition redeemPerk_lookup (claimId : string) : M (option PerkClaim) :=
  perkClaim_findUnique claimId.

(** [redeemPerk] from the point where the lookup has answered [claim];
    [now] is the [new Date()] of the update. *)
Definition redeemPerk_resume (now : Z) (claimId staffUserId : string)
  (claim : option PerkClaim) : M PerkClaim :=
  match claim with
  | None => throw (CustomError "Claim no encontrado" 404)
  | Some c =>
      match claim_redeemedAt c with
      | Some _ => throw (CustomError "Perk ya ha sido canjeado" 400)
      | None =>
          updatedClaim <- perkClaim_update claimId (set_redeemedAt (Some now)) ;;
          logger_info "Perk redeemed"
            [("claimId", JStr claimId); ("perkId", JStr (claim_perkId c));
             ("userId", JStr (claim_userId c));
             ("staffUserId", JStr staffUserId);
             ("redeemedAt",
              match claim_redeemedAt updatedClaim with
              | Some t => JDate t
              | None => JNull
              end)] ;;;
          ret updatedClaim
      end
  end.

Definition redeemPerk_catch (error : AppError) : M PerkClaim :=
  logger_error "Error redeeming perk:" error ;;;
  throw error.

Definition redeemPerk (now : Z) (claimId staffUserId : string) : M PerkClaim :=
  try_catch
    (claim <- redeemPerk_lookup claimId ;;
     redeemPerk_resume now claimId staffUserId claim)
    redeemPerk_catch.

Definition deletePerk (perkId : string) : M unit :=
  try_catch
    (_ <- perk_update perkId (set_perk_active false) ;;
     logger_info "Perk deactivated" [("perkId", JStr perkId)])
    (fun error =>
       logger_error "Error deactivating perk:" error ;;;
       throw error).

End PerkService.

(** ** VoteService *)

(** [prisma.voteBallot.create]: the pair (voteId, userId) is a unique key
    of the table, the one [castBallot] looks ballots up by. *)
Definition voteBallot_create (newId : string) (now : Z)
  (voteId optionId userId : string) : M VoteBallot :=
  fun w =>
    let d := db w in
    if existsb (fun b => (ballot_voteId b =? voteId)%string
                         && (ballot_userId b =? userId)%string)
               (voteBallots d)
    then (Throw (PrismaError "P2002"), w)
    else
      let b := mkVoteBallot newId voteId optionId userId now in
      (Ok b, with_db w (with_voteBallots d (voteBallots d ++ [b]))).

(** [prisma.voteBallot.count({ where: { optionId } })], also the
    [_count.ballots] of an option. *)
Definition ballots_of_option (d : DB) (optionId : string) : nat :=
  List.length (filter (fun b => (ballot_optionId b =? optionId)%string)
                      (voteBallots d)).

(** [prisma.voteOption.delete({ where: { id } })]. *)
Definition voteOption_delete (id : string) : M unit :=
  fun w =>
    let d := db w in
    if existsb (fun o => (option_id o =? id)%string) (voteOptions d)
    then (Ok tt,
          with_db w (with_voteOptions d
            (filter (fun o => negb (option_id o =? id)%string)
                    (voteOptions d))))
    else (Throw (PrismaError "P2025"), w).

(** [orderBy] with direction desc: a stable insertion sort by decreasing
    key (rows with equal keys stay in the order of the table). *)
Fixpoint insert_desc {A} (key : A -> Z) (x : A) (l : list A) : list A :=
  match l with
  | [] => [x]
  | y :: l' =>
      if (key y <=? key x)%Z then x :: y :: l'
      else y :: insert_desc key x l'
  end.

Definition sort_desc {A} (key : A -> Z) (l : list A) : list A :=
  fold_right (insert_desc key) [] l.

Module VoteService.

Definition getVoteById (voteId : string) : M Vote :=
  try_catch
    (vote <- gets (fun w =>
               find (fun v => (vote_id v =? voteId)%string) (votes (db w))) ;;
     match vote with
     | None => throw (CustomError "Votación no encontrada" 404)
     | Some v => ret v
     end)
    (fun error =>
       logger_error "Error getting vote by ID:" error ;;;
       throw error).

Definition castBallot (newId : string) (now : Z)
  (voteId userId optionId : string) : M VoteBallot :=
  try_catch
    (vote <- getVoteById voteId ;;
     if (now <? vote_startAt vote)%Z || (vote_endAt vote <? now)%Z
     then throw (CustomError "Votación no está activa" 400)
     else if negb (vote_active vote)
     then throw (CustomError "Votación inactiva" 400)
     else
       existingBallot <- gets (fun w =>
         find (fun b => (ballot_voteId b =? voteId)%string
                        && (ballot_userId b =? userId)%string)
              (voteBallots (db w))) ;;
       match existingBallot with
       | Some _ =>
           throw (CustomError "Usuario ya ha votado en esta votación" 400)
       | None =>
           option <- gets (fun w =>
             find (fun o => (option_id o =? optionId)%string
                            && (option_voteId o =? voteId)%string)
                  (voteOptions (db w))) ;;
           match option with
           | None => throw (CustomError "Opción de voto inválida" 400)
           | Some _ =>
               ballot <- voteBallot_create newId now voteId optionId userId ;;
               logger_info "Ballot cast"
                 [("ballotId", JStr (ballot_id ballot));
                  ("voteId", JStr voteId); ("userId", JStr userId);
                  ("optionId", JStr optionId)] ;;;
               ret ballot
           end
       end)
    (fun error =>
       logger_error "Error casting ballot:" error ;;;
       throw error).

Record OptionResult : Type := mkOptionResult {
  result_id : string;
  result_label : string;
  result_votes : nat;
  result_percentage : Number
}.

Record VoteSummary : Type := mkVoteSummary {
  summary_id : string;
  summary_title : string;
  summary_description : option string;
  summary_startAt : Z;
  summary_endAt : Z;
  summary_totalVotes : nat
}.

Record VoteResults : Type := mkVoteResults {
  results_vote : VoteSummary;
  results : list OptionResult
}.

(** The rows of [prisma.voteOption.findMany] in [getVoteResults], each
    paired with its [_count.ballots]. *)
Definition options_with_count (d : DB) (voteId : string)
  : list (VoteOption * nat) :=
  sort_desc (fun row => Z.of_nat (snd row))
    (map (fun o => (o, ballots_of_option d (option_id o)))
         (filter (fun o => (option_voteId o =? voteId)%string)
                 (voteOptions d))).

(** [totalVotes > 0 ? (count / totalVotes) * 100 : 0], on numbers. *)
Definition percentage_of (totalVotes count : nat) : Number :=
  if (0 <? totalVotes)%nat
  then Double.mul (Double.div (Double.of_nat count)
                              (Double.of_nat totalVotes))
                  (Finite 100%Q)
  else Finite 0%Q.

Definition getVoteResults (voteId : string) : M VoteResults :=
  try_catch
    (vote <- getVoteById voteId ;;
     rows <- gets (fun w => options_with_count (db w) voteId) ;;
     let totalVotes := fold_left (fun sum row => (sum + snd row)%nat) rows 0%nat in
     let resultsWithPercentages :=
       map (fun row =>
              mkOptionResult (option_id (fst row)) (option_label (fst row))
                             (snd row) (percentage_of totalVotes (snd row)))
           rows in
     ret (mkVoteResults
            (mkVoteSummary (vote_id vote) (vote_title vote)
                           (vote_description vote) (vote_startAt vote)
                           (vote_endAt vote) totalVotes)
            resultsWithPercentages))
    (fun error =>
       logger_error "Error getting vote results:" error ;;;
       throw error).

Definition removeVoteOption (optionId : string) : M unit :=
  try_catch
    (ballotsCount <- gets (fun w => ballots_of_option (db w) optionId) ;;
     if (0 <? ballotsCount)%nat
     then throw (CustomError
                   "No se puede eliminar una opción que ya tiene votos" 400)
     else
       voteOption_delete optionId ;;;
       logger_info "Vote option removed" [("optionId", JStr optionId)])
    (fun error =>
       logger_error "Error removing vote option:" error ;;;
       throw error).

End VoteService.

(** ** LedgerService *)

(** *** Date.prototype.toISOString *)

Fixpoint fixed_digits (width : nat) (n : Z) (acc : string) : string :=
  match width with
  | O => acc
  | S width' =>
      fixed_digits width' (n / 10) (String (digit_char (n mod 10)) acc)
  end.

(** [n] in decimal on [width] digits, padded with zeros. *)
Definition pad (width : nat) (n : Z) : string := fixed_digits width n "".

(** Year, month and day of the proleptic Gregorian calendar for a number
    of days since 1970-01-01. *)
Definition civil_from_days (days : Z) : Z * Z * Z :=
  let z := days + 719468 in
  let era := z / 146097 in
  let doe := z - era * 146097 in
  let yoe := (doe - doe / 1460 + doe / 36524 - doe / 146096) / 365 in
  let doy := doe - (365 * yoe + yoe / 4 - yoe / 100) in
  let mp := (5 * doy + 2) / 153 in
  let d := doy - (153 * mp + 2) / 5 + 1 in
  let m := if mp <? 10 then mp + 3 else mp - 9 in
  let y := yoe + era * 400 + (if m <=? 2 then 1 else 0) in
  (y, m, d).

Definition iso_year (y : Z) : string :=
  if (0 <=? y) && (y <=? 9999) then pad 4 y
  else if y <? 0 then "-" ++ pad 6 (- y)
  else "+" ++ pad 6 y.

(** [date.toISOString()] for the time value [t]; a [Date] holds a time
    value of at most 8.64e15 in absolute value. *)
Definition toISOString (t : Z) : string :=
  let days := t / 86400000 in
  let ms := t mod 86400000 in
  let '(y, m, d) := civil_from_days days in
  iso_year y ++ "-" ++ pad 2 m ++ "-" ++ pad 2 d ++ "T"
    ++ pad 2 (ms / 3600000) ++ ":" ++ pad 2 (ms / 60000 mod 60) ++ ":"
    ++ pad 2 (ms / 1000 mod 60) ++ "." ++ pad 3 (ms mod 1000) ++ "Z".

Definition direction_string (d : Direction) : string :=
  match d with DirIn => "in" | DirOut => "out" end.

Definition currency_string (c : Currency) : string :=
  match c with EUR => "EUR" | TOKEN => "TOKEN" end.

Definition dquote : ascii := "034"%char.
Definition comma : ascii := ","%char.
Definition LF : ascii := "010"%char.
Definition CR : ascii := "013"%char.

(** The [replace] of [exportLedgerCSV]: every double quote of the string
    becomes two. *)
Fixpoint double_quotes (s : string) : string :=
  match s with
  | EmptyString => EmptyString
  | String c s' =>
      if Ascii.eqb c dquote
      then String dquote (String dquote (double_quotes s'))
      else String c (double_quotes s')
  end.

Record DateRangeInput : Type := mkDateRange {
  startDate : option Z;
  endDate : option Z
}.

Module LedgerService.

(** The [where] of the export: the bounds of [dateRange] that are given. *)
Definition in_range (dateRange : option DateRangeInput) (e : Ledger) : bool :=
  match dateRange with
  | None => true
  | Some r =>
      match startDate r with
      | Some t => (t <=? ledger_createdAt e)%Z
      | None => true
      end
      && match endDate r with
         | Some t => (ledger_createdAt e <=? t)%Z
         | None => true
         end
  end.

Definition csvHeaders : string :=
  "ID,Kind,Reference ID,Direction,Amount,Currency,Metadata,Created At"
    ++ String LF "".

Section CsvExport.

(** The conversion of a JavaScript number to a string, which the template
    literal applies to [entry.amount]. *)
Variable numberToString : Q -> string.

Definition csv_metadata (entry : Ledger) : string :=
  if truthy (ledger_metadataJson entry)
  then match ledger_metadataJson entry with
       | Some json => String dquote (double_quotes json ++ String dquote "")
       | None => ""
       end
  else "".

Definition csv_row (entry : Ledger) : string :=
  ledger_id entry ++ "," ++ ledger_kind entry ++ "," ++ ledger_refId entry
    ++ "," ++ direction_string (ledger_direction entry)
    ++ "," ++ numberToString (ledger_amount entry)
    ++ "," ++ currency_string (ledger_currency entry)
    ++ "," ++ csv_metadata entry
    ++ "," ++ toISOString (ledger_createdAt entry).

Definition exportLedgerCSV (dateRange : option DateRangeInput) : M string :=
  try_catch
    (entries <- gets (fun w =>
       sort_desc ledger_createdAt
                 (filter (in_range dateRange) (ledger (db w)))) ;;
     let csvRows := concat (String LF "") (map csv_row entries) in
     ret (csvHeaders ++ csvRows))
    (fun error =>
       logger_error "Error exporting ledger CSV:" error ;;;
       throw error).

End CsvExport.

End LedgerService.

(** ** Reading comma-separated values back

    The reader against which the export is checked.  It follows the usual
    conventions (RFC 4180): records end at a line feed, fields are
    separated by commas, a field that starts with a double quote runs to
    the closing double quote and may contain commas, line breaks and
    doubled double quotes, each standing for one.  A carriage return
    outside a quoted field is dropped, so that records may end in CR LF. *)

Inductive ReaderState : Type := FieldStart | Unquoted | Quoted | QuoteSeen.

Definition snoc (field : string) (c : ascii) : string :=
  field ++ String c "".

Fixpoint read_csv (st : ReaderState) (field : string) (row : list string)
  (rows : list (list string)) (input : string) : list (list string) :=
  match input with
  | EmptyString =>
      match st, row with
      | FieldStart, [] => rows
      | _, _ => (rows ++ [row ++ [field]])%list
      end
  | String c rest =>
      match st with
      | FieldStart =>
          if Ascii.eqb c dquote then read_csv Quoted "" row rows rest
          else if Ascii.eqb c comma
          then read_csv FieldStart "" (row ++ [""])%list rows rest
          else if Ascii.eqb c LF
          then read_csv FieldStart "" [] (rows ++ [row ++ [""]])%list rest
          else if Ascii.eqb c CR then read_csv FieldStart "" row rows rest
          else read_csv Unquoted (String c "") row rows rest
      | Unquoted =>
          if Ascii.eqb c comma
          then read_csv FieldStart "" (row ++ [field])%list rows rest
          else if Ascii.eqb c LF
          then read_csv FieldStart "" [] ((rows ++ [row ++ [field]])%list) rest
          else if Ascii.eqb c CR then read_csv Unquoted field row rows rest
          else read_csv Unquoted (snoc field c) row rows rest
      | Quoted =>
          if Ascii.eqb c dquote then read_csv QuoteSeen field row rows rest
          else read_csv Quoted (snoc field c) row rows rest
      | QuoteSeen =>
          if Ascii.eqb c dquote
          then read_csv Quoted (snoc field c) row rows rest
          else if Ascii.eqb c comma
          then read_csv FieldStart "" (row ++ [field])%list rows rest
          else if Ascii.eqb c LF
          then read_csv FieldStart "" [] ((rows ++ [row ++ [field]])%list) rest
          else if Ascii.eqb c CR then read_csv QuoteSeen field row rows rest
          else read_csv Unquoted (snoc field c) row rows rest
      end
  end.

Definition parse_csv (text : string) : list (list string) :=
  read_csv FieldStart "" [] [] text.

(** A character that an unquoted field can hold. *)
Definition plain_char (c : ascii) : bool :=
  negb (Ascii.eqb c dquote) && negb (Ascii.eqb c comma)
  && negb (Ascii.eqb c LF) && negb (Ascii.eqb c CR).

Fixpoint plain (s : string) : bool :=
  match s with
  | EmptyString => true
  | String c s' => plain_char c && plain s'
  end.

(** The metadata of an entry as a text, empty when there is none. *)
Definition metadata_value (entry : Ledger) : string :=
  match ledger_metadataJson entry with Some json => json | None => "" end.

(** The values of an entry, in the order of the columns. *)
Definition entry_fields (numberToString : Q -> string) (entry : Ledger)
  : list string :=
  [ledger_id entry; ledger_kind entry; ledger_refId entry;
   direction_string (ledger_direction entry);
   numberToString (ledger_amount entry);
   currency_string (ledger_currency entry);
   metadata_value entry;
   toISOString (ledger_createdAt entry)].

Definition header_fields : list string :=
  ["ID"; "Kind"; "Reference ID"; "Direction"; "Amount"; "Currency";
   "Metadata"; "Created At"].

(** ** Calls of [redeemPerk] in flight

    A call of [redeemPerk] gives the event loop back at each [await]: once
    while the store looks the claim up, once while it rewrites the row.
    Each of the two store operations is atomic; other calls may run
    between them. *)

Inductive Task : Type :=
| Called (claimId staffUserId : string)
| Awaiting (claimId staffUserId : string) (claim : option PerkClaim)
| Settled (r : Result PerkClaim).

(** The next step of a call; [now] is the clock when the step runs. *)
Definition task_step (now : Z) (t : Task) (w : World) : Task * World :=
  match t with
  | Called claimId staffUserId =>
      match PerkService.redeemPerk_lookup claimId w with
      | (Ok claim, w') => (Awaiting claimId staffUserId claim, w')
      | (Throw e, w') =>
          let (r, w'') := PerkService.redeemPerk_catch e w' in (Settled r, w'')
      end
  | Awaiting claimId staffUserId claim =>
      let (r, w') :=
        try_catch (PerkService.redeemPerk_resume now claimId staffUserId claim)
                  PerkService.redeemPerk_catch w in
      (Settled r, w')
  | Settled _ => (t, w)
  end.

(** Two calls under a schedule: each entry names the call that takes the
    next step ([false] the first, [true] the second) and the clock. *)
Fixpoint run_two (schedule : list (bool * Z)) (a b : Task) (w : World)
  : Task * Task * World :=
  match schedule with
  | [] => (a, b, w)
  | (false, now) :: rest =>
      let (a', w') := task_step now a w in run_two rest a' b w'
  | (true, now) :: rest =>
      let (b', w') := task_step now b w in run_two rest a b' w'
  end.

(** ** Vocabulary of the properties *)

(** *** Orders, mints and payments *)

(** The address [mintTokens] sends the tokens to: the recipient given by
    the caller, else the wallet address registered for the user. *)
Definition target_address (w : World) (userId : string)
  (recipientAddress : option string) : option string :=
  if truthy recipientAddress then recipientAddress
  else match find (fun u => (user_id u =? userId)%string) (users (db w)) with
       | Some u => if truthy (walletAddress u) then walletAddress u else None
       | None => None
       end.

Definition has_order (d : DB) (orderId : string) : bool :=
  existsb (fun o => (order_id o =? orderId)%string) (orders d).

Definition has_mint (d : DB) (orderId : string) : bool :=
  existsb (fun m => (mint_orderId m =? orderId)%string) (mints d).

Definition has_payment (d : DB) (orderId : string) : bool :=
  existsb (fun p => (payment_orderId p =? orderId)%string) (payments d).

Definition complete_metadata (s : StripeService.Session) : bool :=
  truthy (StripeService.meta_orderId s) && truthy (StripeService.meta_userId s)
  && truthy (StripeService.meta_productId s)
  && truthy (StripeService.meta_tokenAmount s).

(** The orders after the catch block of [mintTokens] has run for
    [orderId]. *)
Definition mark_failed (orderId : string) (os : list Order) : list Order :=
  map (fun o => if (order_id o =? orderId)%string then set_status Failed o else o)
      os.

(** The ledger entries of one kind that refer to [refId]. *)
Definition ledger_entries (d : DB) (kind refId : string) : list Ledger :=
  filter (fun e => (ledger_kind e =? kind)%string
                   && (ledger_refId e =? refId)%string) (ledger d).

(** What exactly-once minting asks of a call for an order that already has
    a Mint row [m]: the stored hash comes back, no mint command is issued
    and no Mint row is added. *)
Definition mint_replayed (bc : Chain) (newId : string) (now : Z)
  (orderId userId : string) (amount : Q) (recipientAddress : option string)
  (w : World) (m : Mint) : Prop :=
  exists w',
    TokenService.mintTokens bc newId now orderId userId amount
                            recipientAddress w
      = (Ok (TokenService.mkMintResult (mint_txHash m) true), w')
    /\ mintCalls w' = mintCalls w
    /\ mints (db w') = mints (db w).

(** What idempotent settlement asks of two deliveries of one event: both
    return, the second changes nothing in the store, and the ledger then
    has exactly one payment entry, in and in EUR, for the order. *)
Definition settled_once (newId1 newId2 orderId : string)
  (session : StripeService.Session) (w : World) : Prop :=
  exists w1 w2,
    StripeService.handleCheckoutCompleted newId1 session w = (Ok tt, w1)
    /\ StripeService.handleCheckoutCompleted newId2 session w1 = (Ok tt, w2)
    /\ db w2 = db w1
    /\ exists entry,
         ledger_entries (db w2) "payment" orderId = [entry]
         /\ ledger_direction entry = DirIn
         /\ ledger_currency entry = EUR.

(** *** Perks and claims *)

Definition find_active_perk (d : DB) (perkId : string) : option Perk :=
  find (fun p => (perk_id p =? perkId)%string && perk_active p) (perks d).

Definition wallet_of (d : DB) (userId : string) : option string :=
  match find (fun u => (user_id u =? userId)%string) (users d) with
  | Some u => walletAddress u
  | None => None
  end.

Definition find_perk (d : DB) (perkId : string) : option Perk :=
  find (fun p => (perk_id p =? perkId)%string) (perks d).

Definition find_claim (d : DB) (claimId : string) : option PerkClaim :=
  find (fun c => (claim_id c =? claimId)%string) (perkClaims d).

Definition AlreadyRedeemed : AppError :=
  CustomError "Perk ya ha sido canjeado" 400.

(** One row of the claims table across a call: left as it was, or stamped
    at [now] from a null [redeemedAt]. *)
Definition claim_step (now : Z) (c c' : PerkClaim) : Prop :=
  c' = c \/ (claim_redeemedAt c = None /\ c' = set_redeemedAt (Some now) c).

(** Every claim of [l] that is stamped is a claim of [l']. *)
Definition stamped_kept (l l' : list PerkClaim) : Prop :=
  forall c t, In c l -> claim_redeemedAt c = Some t -> In c l'.

(** The log line of a redeem, which names the staff member. *)
Definition redeemed_log (now : Z) (claimId staffUserId : string)
  (c : PerkClaim) : LogEntry :=
  mkLog LInfo "Perk redeemed"
    [("claimId", JStr claimId); ("perkId", JStr (claim_perkId c));
     ("userId", JStr (claim_userId c)); ("staffUserId", JStr staffUserId);
     ("redeemedAt", JDate now)].

(** What serialized redeeming asks of two calls for one claim under a
    schedule: one call returns the claim, the other observes
    AlreadyRedeemed. *)
Definition one_redeem_wins (schedule : list (bool * Z))
  (claimId staff1 staff2 : string) (w : World) : Prop :=
  let '(a, b, _) :=
    run_two schedule (Called claimId staff1) (Called claimId staff2) w in
  (exists c, a = Settled (Ok c) /\ b = Settled (Throw AlreadyRedeemed))
  \/ (exists c, b = Settled (Ok c) /\ a = Settled (Throw AlreadyRedeemed)).

(** The orders of the four steps of two calls in which both lookups come
    before both updates. *)
Definition overlapped (t1 t2 t3 t4 : Z) : list (list (bool * Z)) :=
  [[(false, t1); (true, t2); (false, t3); (true, t4)];
   [(true, t1); (false, t2); (false, t3); (true, t4)];
   [(false, t1); (true, t2); (true, t3); (false, t4)];
   [(true, t1); (false, t2); (true, t3); (false, t4)]].

(** What rejecting the removal of a claimed perk asks of [deletePerk]: for
    a perk with a claim the call fails, and perks and claims remain. *)
Definition delete_refused (perkId : string) (w : World) : Prop :=
  (exists c, In c (perkClaims (db w)) /\ claim_perkId c = perkId) ->
  exists e,
    fst (PerkService.deletePerk perkId w) = Throw e
    /\ perks (db (snd (PerkService.deletePerk perkId w))) = perks (db w)
    /\ perkClaims (db (snd (PerkService.deletePerk perkId w)))
       = perkClaims (db w).

(** *** Votes *)

Definition find_vote (d : DB) (voteId : string) : option Vote :=
  find (fun v => (vote_id v =? voteId)%string) (votes d).

Definition has_ballot (d : DB) (voteId userId : string) : bool :=
  existsb (fun b => (ballot_voteId b =? voteId)%string
                    && (ballot_userId b =? userId)%string) (voteBallots d).

Definition option_of_vote (d : DB) (voteId optionId : string) : bool :=
  existsb (fun o => (option_id o =? optionId)%string
                    && (option_voteId o =? voteId)%string) (voteOptions d).

(** The vote exists, [now] is inside its window and its flag is set. *)
Definition vote_open (d : DB) (now : Z) (voteId : string) : bool :=
  match find_vote d voteId with
  | Some v =>
      (vote_startAt v <=? now)%Z && (now <=? vote_endAt v)%Z && vote_active v
  | None => false
  end.

(** The preconditions of [castBallot]. *)
Definition may_cast (d : DB) (now : Z) (voteId userId optionId : string)
  : bool :=
  vote_open d now voteId && option_of_vote d voteId optionId
  && negb (has_ballot d voteId userId).

Definition AlreadyVoted : AppError :=
  CustomError "Usuario ya ha votado en esta votación" 400.

(** The options of a vote and the number of ballots cast in it. *)
Definition vote_options (d : DB) (voteId : string) : list VoteOption :=
  filter (fun o => (option_voteId o =? voteId)%string) (voteOptions d).

Definition total_ballots (d : DB) (voteId : string) : nat :=
  list_sum (map (fun o => ballots_of_option d (option_id o))
                (vote_options d voteId)).

Definition OptionHasVotes : AppError :=
  CustomError "No se puede eliminar una opción que ya tiene votos" 400.

(** *** The export of the ledger *)

(** The entries [exportLedgerCSV] reads: those in the date range, latest
    first. *)
Definition exported_entries (d : DB) (dateRange : option DateRangeInput)
  : list Ledger :=
  sort_desc ledger_createdAt
            (filter (LedgerService.in_range dateRange) (ledger d)).

(** The columns the export writes without quotes, besides the amount:
    none of them holds a comma, a double quote or a line break. *)
Definition unquoted_plain (entry : Ledger) : bool :=
  plain (ledger_id entry) && plain (ledger_kind entry)
  && plain (ledger_refId entry).

(** What the round trip asks of the export: reading the text back gives
    the header and then, for each entry, its values. *)
Definition csv_round_trip (numberToString : Q -> string)
  (dateRange : option DateRangeInput) (w : World) : Prop :=
  exists csv,
    fst (LedgerService.exportLedgerCSV numberToString dateRange w) = Ok csv
    /\ parse_csv csv
       = header_fields
         :: map (entry_fields numberToString) (exported_entries (db w) dateRange).

(** ** Calls of the services

    The service methods of the embedding as one type of calls, to state
    what holds of the store across any sequence of them. *)

Inductive Call : Type :=
| CallMintTokens (bc : Chain) (newId : string) (now : Z)
    (orderId userId : string) (tokenAmount : Q)
    (recipientAddress : option string)
| CallCheckoutCompleted (newId : string) (session : StripeService.Session)
| CallClaimPerk (bc : Chain) (newId : string) (now : Z)
    (random : list Byte.byte) (perkId userId : string)
| CallRedeemPerk (now : Z) (claimId staffUserId : string)
| CallDeletePerk (perkId : string)
| CallCastBallot (newId : string) (now : Z) (voteId userId optionId : string)
| CallGetVoteResults (voteId : string)
| CallRemoveVoteOption (optionId : string)
| CallExportLedgerCSV (numberToString : Q -> string)
    (dateRange : option DateRangeInput).

(** The world a call leaves behind, whether it returns or throws. *)
Definition exec (c : Call) (w : World) : World :=
  match c with
  | CallMintTokens bc newId now orderId userId tokenAmount recipientAddress =>
      snd (TokenService.mintTokens bc newId now orderId userId tokenAmount
             recipientAddress w)
  | CallCheckoutCompleted newId session =>
      snd (StripeService.handleCheckoutCompleted newId session w)
  | CallClaimPerk bc newId now random perkId userId =>
      snd (PerkService.claimPerk bc newId now random perkId userId w)
  | CallRedeemPerk now claimId staffUserId =>
      snd (PerkService.redeemPerk now claimId staffUserId w)
  | CallDeletePerk perkId => snd (PerkService.deletePerk perkId w)
  | CallCastBallot newId now voteId userId optionId =>
      snd (VoteService.castBallot newId now voteId userId optionId w)
  | CallGetVoteResults voteId => snd (VoteService.getVoteResults voteId w)
  | CallRemoveVoteOption optionId =>
      snd (VoteService.removeVoteOption optionId w)
  | CallExportLedgerCSV numberToString dateRange =>
      snd (LedgerService.exportLedgerCSV numberToString dateRange w)
  end.

Definition exec_all (calls : list Call) (w : World) : World :=
  fold_left (fun w' c => exec c w') calls w.

(** ** Sample data *)

Definition alice : User := mkUser "u1" "alice@example.com" (Some "0xA11CE").

Definition sample_db (s : Schema) (os : list Order) (ms : list Mint) : DB :=
  mkDB s [alice] os [] ms [] [] [] [] [] [].

Definition world_of (d : DB) : World := mkWorld d [] [] false.

Definition chain_accepting (tx : string) : Chain :=
  mkChain true true (fun _ _ => Some tx) (fun _ => Some 0%Q).

Definition chain_rejecting : Chain :=
  mkChain true true (fun _ _ => None) (fun _ => None).

Definition chain_with_balance (balance : Q) : Chain :=
  mkChain true true (fun _ _ => None) (fun _ => Some balance).

(** The store before any mint for order o1, and the world after two calls
    of [mintTokens] for that order which the chain both accepts. *)
Definition paid_db (s : Schema) : DB :=
  sample_db s [mkOrder "o1" "u1" "p1" Completed] [].

Definition pending_db (s : Schema) : DB :=
  sample_db s [mkOrder "o1" "u1" "p1" Pending] [].

(** The store after a first mint for order o1 went through. *)
Definition minted_db (s : Schema) : DB :=
  sample_db s [mkOrder "o1" "u1" "p1" Completed]
            [mkMint "m1" "o1" "u1" 100 "0xaaa" 137 1000].

(** The store as the admin mint route leaves it before it calls
    [mintTokens]: a mock order that is already completed. *)
Definition admin_mint_db : DB :=
  sample_db (mkSchema false false) [mkOrder "o9" "u1" "admin-mint" Completed] [].

Definition minted_twice (s : Schema) : World :=
  snd (TokenService.mintTokens (chain_accepting "0xbbb") "m2" 2000 "o1" "u1"
         100 None
         (snd (TokenService.mintTokens (chain_accepting "0xaaa") "m1" 1000
                 "o1" "u1" 100 None (world_of (paid_db s))))).

(** A checkout event for order o1, 50 EUR, and the store that awaits it. *)
Definition checkout_o1 : StripeService.Session :=
  StripeService.mkSession "cs_1" (Some "o1") (Some "u1") (Some "p1")
                          (Some "100") (Some 5000).

Definition claim_c1 : PerkClaim :=
  mkPerkClaim "c1" "k1" "u1" 10 "PERK_X_00" 500 None.

Definition claimed_db : DB :=
  mkDB (mkSchema false false) [alice] [] [] []
       [mkPerk "k1" "Coffee" 10 true] [claim_c1] [] [] [] [].

Definition perk_db : DB :=
  mkDB (mkSchema false false) [alice] [] [] []
       [mkPerk "k1" "Coffee" 10 true; mkPerk "k2" "Shirt" 40 true]
       [claim_c1] [] [] [] [].

Definition sample_random : list Byte.byte :=
  [Byte.x00; Byte.xff; Byte.x1a; Byte.xb2; Byte.x03; Byte.x4c; Byte.xd5;
   Byte.xee].

Definition poll_db : DB :=
  mkDB (mkSchema false false) [alice] [] [] [] [] []
       [mkVote "v1" "Logo" None 100 200 true]
       [mkVoteOption "A" "v1" "Blue"; mkVoteOption "B" "v1" "Red"]
       [mkVoteBallot "b1" "v1" "A" "u1" 110;
        mkVoteBallot "b2" "v1" "A" "u2" 120;
        mkVoteBallot "b3" "v1" "B" "u3" 130;
        mkVoteBallot "b4" "v1" "A" "u4" 140]
       [].

(** A rendering of numbers for the samples: the decimal digits of an
    amount that is an integer. *)
Definition integerToString (q : Q) : string :=
  let n := (Qnum q / Zpos (Qden q))%Z in
  if (n <? 0)%Z
  then "-" ++ radix_digits (S (Z.to_nat (Z.log2 (- n)))) 10 (- n) ""
  else radix_digits (S (Z.to_nat (Z.log2 n))) 10 n "".

Definition ledger_db (entries : list Ledger) : DB :=
  mkDB (mkSchema false false) [alice] [] [] [] [] [] [] [] [] entries.

(** A payment whose metadata holds commas and double quotes, and a mint. *)
Definition payment_entry : Ledger :=
  mkLedger "l1" "payment" "o1" DirIn 50 EUR
    (Some ("{" ++ String dquote "status" ++ String dquote ":"
               ++ String dquote "completed" ++ String dquote ","
               ++ String dquote "provider" ++ String dquote ":"
               ++ String dquote "stripe" ++ String dquote "}"))
    1700000000000.

Definition mint_entry : Ledger :=
  mkLedger "l2" "mint" "o1" DirOut 100 TOKEN None 1700000060000.

(** An entry whose kind holds a comma. *)
Definition odd_entry : Ledger :=
  mkLedger "l3" "refund,partial" "o1" DirOut 5 EUR None 1700000120000.

(** ** Tactics *)

Ltac run_m :=
  cbv beta iota delta
    [bind ret throw try_catch gets modify modify_db when_ logger_info
     logger_warn logger_error logger_log with_db] in *;
  cbn [fst snd db mintCalls logs sdk] in *.

Ltac break_match_hyp :=
  match goal with
  | H : context [match ?x with _ => _ end] |- _ =>
      lazymatch x with
      | context [match _ with _ => _ end] => fail
      | _ => destruct x eqn:?
      end
  end.

Ltac break_match_goal :=
  match goal with
  | |- context [match ?x with _ => _ end] =>
      lazymatch x with
      | context [match _ with _ => _ end] => fail
      | _ => destruct x eqn:?
      end
  end.

Ltac pair_inv :=
  repeat match goal with
  | H : (_, _) = (_, _) |- _ => inversion H; subst; clear H
  end.

Ltac unfold_services :=
  cbv beta iota delta
    [TokenService.mintTokens TokenService.mintTokens_catch
     TokenService.mintTokens_body TokenService.getTokenBalance
     TokenService.ensure_sdk TokenService.initialize
     TokenService.getContract TokenService.erc20_mintTo
     StripeService.handleCheckoutCompleted
     PerkService.claimPerk PerkService.getPerkById PerkService.deletePerk
     VoteService.castBallot VoteService.getVoteById
     VoteService.getVoteResults VoteService.removeVoteOption
     LedgerService.exportLedgerCSV
     mint_create payment_create perkClaim_create perk_update
     voteBallot_create voteOption_delete user_findUnique order_update
     order_updateMany].

Ltac by_cases_of_the_code :=
  unfold_services; run_m; try reflexivity;
  repeat (break_match_goal;
          cbn [fst snd db mintCalls logs sdk perkClaims with_orders
               with_payments with_mints with_perks with_perkClaims
               with_voteOptions with_voteBallots];
          try reflexivity).

(** ** Further methods of the services

    The methods of the service files that the sections above leave out,
    over the same store, monad and conventions. *)

Definition with_votes (d : DB) (x : list Vote) : DB :=
  mkDB (schema d) (users d) (orders d) (payments d) (mints d) (perks d)
       (perkClaims d) x (voteOptions d) (voteBallots d) (ledger d).

Definition with_ledger (d : DB) (x : list Ledger) : DB :=
  mkDB (schema d) (users d) (orders d) (payments d) (mints d) (perks d)
       (perkClaims d) (votes d) (voteOptions d) (voteBallots d) x.

(** *** TokenService.transferTokens *)

Module Tokens.

(** [transferTokens]; [erc20_transfer] is what
    [contract.erc20.transfer(toAddress, amount.toString())] answers, the
    hash of the receipt or nothing when the call throws. *)
Definition transferTokens (bc : Chain)
  (erc20_transfer : string -> Q -> option string)
  (fromUserId toUserId : string) (amount : Q) : M TokenService.MintResult :=
  try_catch
    (TokenService.ensure_sdk bc ;;;
     fromUser <- user_findUnique fromUserId ;;
     toUser <- user_findUnique toUserId ;;
     let fromWallet :=
       match fromUser with Some u => walletAddress u | None => None end in
     let toWallet :=
       match toUser with Some u => walletAddress u | None => None end in
     match fromWallet, toWallet with
     | Some fromAddress, Some toAddress =>
         if negb (truthy fromWallet) || negb (truthy toWallet)
         then throw (CustomError "Usuarios sin dirección de wallet" 400)
         else
           balance <- TokenService.getTokenBalance bc fromAddress ;;
           if Qlt_le_dec balance amount
           then throw (CustomError "Saldo insuficiente" 400)
           else
             TokenService.getContract bc ;;;
             match erc20_transfer toAddress amount with
             | None => throw (SdkError "transfer")
             | Some tx =>
                 logger_info "Transfer transaction sent"
                   [("txHash", JStr tx); ("fromUserId", JStr fromUserId);
                    ("toUserId", JStr toUserId); ("amount", JNum amount);
                    ("fromAddress", JStr fromAddress);
                    ("toAddress", JStr toAddress)] ;;;
                 ret (TokenService.mkMintResult tx true)
             end
     | _, _ => throw (CustomError "Usuarios sin dirección de wallet" 400)
     end)
    (fun error =>
       logger_error "Error transferring tokens:" error ;;;
       throw error).

End Tokens.

(** *** StripeService.handleWebhook, StripeService.createCheckoutSession *)

Module Stripe.

(** The object of a Stripe event, with the fields the handlers read: those
    of a checkout session and, of a payment intent, [amount] and
    [last_payment_error] (as it is logged). *)
Record EventObject : Type := mkEventObject {
  as_session : StripeService.Session;
  intent_amount : option Z;
  last_payment_error : option string
}.

Record Event : Type := mkEvent {
  event_type : string;
  event_object : EventObject
}.

(** What the handler takes from its environment: the secret of
    [process.env.STRIPE_WEBHOOK_SECRET] and the answer of
    [stripe.webhooks.constructEvent], nothing when it throws (a signature
    that does not verify). *)
Record Env : Type := mkEnv {
  webhookSecret : option string;
  constructEvent : string -> string -> string -> option Event
}.

Definition num_or_null (n : option Z) : JsVal :=
  match n with Some z => JNum (inject_Z z) | None => JNull end.

Definition handlePaymentSucceeded (paymentIntent : EventObject) : M unit :=
  logger_info "Payment succeeded"
    [("paymentIntentId",
      JStr (StripeService.session_id (as_session paymentIntent)));
     ("amount", num_or_null (intent_amount paymentIntent))].

Definition handlePaymentFailed (paymentIntent : EventObject) : M unit :=
  logger_warn "Payment failed"
    [("paymentIntentId",
      JStr (StripeService.session_id (as_session paymentIntent)));
     ("amount", num_or_null (intent_amount paymentIntent));
     ("lastPaymentError",
      match last_payment_error paymentIntent with
      | Some e => JStr e
      | None => JNull
      end)].

Definition handleWebhook (env : Env) (newId : string)
  (payload signature : string) : M unit :=
  try_catch
    (match webhookSecret env with
     | Some secret =>
         if negb (truthy (webhookSecret env))
         then throw (PlainError "STRIPE_WEBHOOK_SECRET no configurado")
         else
           match constructEvent env payload signature secret with
           | None => throw (PlainError "constructEvent")
           | Some event =>
               logger_info "Webhook received:"
                 [("type", JStr (event_type event))] ;;;
               if (event_type event =? "checkout.session.completed")%string
               then StripeService.handleCheckoutCompleted newId
                      (as_session (event_object event))
               else if (event_type event =? "payment_intent.succeeded")%string
               then handlePaymentSucceeded (event_object event)
               else if (event_type event
                        =? "payment_intent.payment_failed")%string
               then handlePaymentFailed (event_object event)
               else logger_info
                      ("Unhandled event type: " ++ event_type event) []
           end
     | None => throw (PlainError "STRIPE_WEBHOOK_SECRET no configurado")
     end)
    (fun error =>
       logger_error "Webhook error:" error ;;;
       throw error).

(** A row of the products table. No method of the services writes that
    table; [createCheckoutSession] takes it as it reads it. *)
Record Product : Type := mkProduct {
  product_id : string;
  product_name : string;
  product_tokenAmount : Q;
  product_priceEur : Q;
  product_active : bool
}.

(** What the code hands to [stripe.checkout.sessions.create], without the
    constants of the call (the card as payment method, the currency eur,
    the quantity 1 and the mode payment). *)
Record SessionParams : Type := mkSessionParams {
  line_name : string;
  line_description : string;
  unit_amount : Number;
  success_url : string;
  cancel_url : string;
  metadata_orderId : string;
  metadata_userId : string;
  metadata_productId : string;
  metadata_tokenAmount : string
}.

(** [Math.round]: the nearest integer, the greater of two that are equally
    near. *)
Definition Math_round (x : Number) : Number :=
  match x with
  | Finite q =>
      let x := (q + (1 # 2))%Q in
      Finite (inject_Z (Qnum x / Z.pos (Qden x)))
  | _ => x
  end.

(** [prisma.order.create]: the row is inserted as it is given. *)
Definition order_create (newId userId productId : string)
  (status : OrderStatus) : M Order :=
  fun w =>
    let d := db w in
    let o := mkOrder newId userId productId status in
    (Ok o, with_db w (with_orders d (orders d ++ [o]))).

(** [createCheckoutSession]; [products] is the products table,
    [sessions_create] what [stripe.checkout.sessions.create] answers,
    nothing when it throws, and [numberToString] the text of a number. The
    order is inserted before the session is asked for. *)
Definition createCheckoutSession (products : list Product)
  (sessions_create : SessionParams -> option StripeService.Session)
  (numberToString : Q -> string) (newId : string)
  (productId userId successUrl cancelUrl : string)
  : M StripeService.Session :=
  try_catch
    (match find (fun p => (product_id p =? productId)%string
                          && product_active p) products with
     | None => throw (CustomError "Producto no encontrado o inactivo" 404)
     | Some product =>
         order <- order_create newId userId productId Pending ;;
         match sessions_create
                 (mkSessionParams
                    (product_name product)
                    (numberToString (product_tokenAmount product)
                     ++ " tokens")
                    (Math_round
                       (Double.mul (Double.round (product_priceEur product))
                                   (Finite 100%Q)))
                    (successUrl ++ "?session_id={CHECKOUT_SESSION_ID}")
                    cancelUrl
                    (order_id order) userId productId
                    (numberToString (product_tokenAmount product))) with
         | None => throw (SdkError "checkout.sessions.create")
         | Some session =>
             logger_info "Checkout session created"
               [("sessionId", JStr (StripeService.session_id session));
                ("orderId", JStr (order_id order));
                ("userId", JStr userId)] ;;;
             ret session
         end
     end)
    (fun error =>
       logger_error "Error creating checkout session:" error ;;;
       throw error).

End Stripe.

(** *** PerkService: the claims of a user, the claims of a perk, creating
    and rewriting a perk

    The lists are those of the rows; the relations a call includes with
    each row (the perk, the user) are read from their own tables. *)

Module Perks.

Definition getUserPerks (userId : string) : M (list PerkClaim) :=
  try_catch
    (gets (fun w =>
       sort_desc claim_createdAt
         (filter (fun c => (claim_userId c =? userId)%string)
                 (perkClaims (db w)))))
    (fun error =>
       logger_error "Error getting user perks:" error ;;;
       throw error).

Definition getPerkClaims (perkId : option string) : M (list PerkClaim) :=
  try_catch
    (gets (fun w =>
       sort_desc claim_createdAt
         (filter (fun c =>
                    if truthy perkId
                    then match perkId with
                         | Some p => (claim_perkId c =? p)%string
                         | None => true
                         end
                    else true)
                 (perkClaims (db w)))))
    (fun error =>
       logger_error "Error getting perk claims:" error ;;;
       throw error).

(** [CreatePerkInput], by the columns of a perk that are modelled: the
    name, the cost and the active flag. *)
Record CreatePerkInput : Type := mkCreatePerkInput {
  new_name : string;
  new_tokenCost : Q;
  new_active : bool
}.

(** [Partial<CreatePerkInput>]: the fields that are given. *)
Record UpdatePerkInput : Type := mkUpdatePerkInput {
  set_name : option string;
  set_tokenCost : option Q;
  set_active : option bool
}.

(** [prisma.perk.create({ data })]. *)
Definition perk_create (newId : string) (data : CreatePerkInput) : M Perk :=
  fun w =>
    let d := db w in
    let p := mkPerk newId (new_name data) (new_tokenCost data)
                    (new_active data) in
    (Ok p, with_db w (with_perks d (perks d ++ [p]))).

Definition createPerk (newId : string) (data : CreatePerkInput) : M Perk :=
  try_catch
    (perk <- perk_create newId data ;;
     logger_info "Perk created"
       [("perkId", JStr (perk_id perk)); ("name", JStr (perk_name perk))] ;;;
     ret perk)
    (fun error =>
       logger_error "Error creating perk:" error ;;;
       throw error).

(** The [data] of an update on a row: a field that is given replaces the
    column, the others stay. *)
Definition perk_data_of (data : UpdatePerkInput) (p : Perk) : Perk :=
  mkPerk (perk_id p)
         (match set_name data with Some n => n | None => perk_name p end)
         (match set_tokenCost data with
          | Some c => c
          | None => perk_tokenCost p
          end)
         (match set_active data with Some a => a | None => perk_active p end).

Definition updatePerk (perkId : string) (data : UpdatePerkInput) : M Perk :=
  try_catch
    (perk <- perk_update perkId (perk_data_of data) ;;
     logger_info "Perk updated"
       [("perkId", JStr perkId); ("name", JStr (perk_name perk))] ;;;
     ret perk)
    (fun error =>
       logger_error "Error updating perk:" error ;;;
       throw error).

End Perks.

(** *** VoteService: listing, creating, rewriting, closing, options, the
    ballots of a user *)

Definition set_vote_active (b : bool) (v : Vote) : Vote :=
  mkVote (vote_id v) (vote_title v) (vote_description v) (vote_startAt v)
         (vote_endAt v) b.

(** [prisma.vote.update({ where: { id }, data })]. *)
Definition vote_update (id : string) (data : Vote -> Vote) : M Vote :=
  fun w =>
    let d := db w in
    match find (fun v => (vote_id v =? id)%string) (votes d) with
    | None => (Throw (PrismaError "P2025"), w)
    | Some v =>
        (Ok (data v),
         with_db w (with_votes d
           (update_first (fun v' => (vote_id v' =? id)%string) data
                         (votes d))))
    end.

(** [prisma.voteOption.create]: the option refers to its vote (a vote is
    created with its options and read with them), so P2003 when the vote
    is missing. *)
Definition voteOption_create (newId voteId label : string) : M VoteOption :=
  fun w =>
    let d := db w in
    if existsb (fun v => (vote_id v =? voteId)%string) (votes d)
    then
      let o := mkVoteOption newId voteId label in
      (Ok o, with_db w (with_voteOptions d (voteOptions d ++ [o])))
    else (Throw (PrismaError "P2003"), w).

Module Votes.

(** [getVotes]; [now] is its [new Date()]. The rows are listed without
    the options and the ballot count the call includes with each. *)
Definition getVotes (now : Z) (activeOnly : bool) : M (list Vote) :=
  try_catch
    (gets (fun w =>
       sort_desc vote_startAt
         (filter (fun v =>
                    if activeOnly
                    then vote_active v && (vote_startAt v <=? now)%Z
                         && (now <=? vote_endAt v)%Z
                    else true)
                 (votes (db w)))))
    (fun error =>
       logger_error "Error getting votes:" error ;;;
       throw error).

Definition getUserVotes (userId : string) : M (list VoteBallot) :=
  try_catch
    (gets (fun w =>
       sort_desc ballot_castAt
         (filter (fun b => (ballot_userId b =? userId)%string)
                 (voteBallots (db w)))))
    (fun error =>
       logger_error "Error getting user votes:" error ;;;
       throw error).

Definition deleteVote (voteId : string) : M unit :=
  try_catch
    (_ <- vote_update voteId (set_vote_active false) ;;
     logger_info "Vote deactivated" [("voteId", JStr voteId)])
    (fun error =>
       logger_error "Error deactivating vote:" error ;;;
       throw error).

Definition addVoteOption (newId voteId label : string) : M VoteOption :=
  try_catch
    (option <- voteOption_create newId voteId label ;;
     logger_info "Vote option added"
       [("optionId", JStr (option_id option)); ("voteId", JStr voteId);
        ("label", JStr label)] ;;;
     ret option)
    (fun error =>
       logger_error "Error adding vote option:" error ;;;
       throw error).

(** [CreateVoteInput]; [new_startAt] and [new_endAt] are the instants the
    texts of the input denote, what [new Date] makes of them. *)
Record CreateVoteInput : Type := mkCreateVoteInput {
  new_title : string;
  new_description : option string;
  new_startAt : Z;
  new_endAt : Z;
  new_options : list string
}.

(** [Partial<CreateVoteInput>]: the fields that are given. *)
Record UpdateVoteInput : Type := mkUpdateVoteInput {
  set_title : option string;
  set_description : option string;
  set_startAt : option Z;
  set_endAt : option Z;
  set_options : option (list string)
}.

(** [prisma.vote.create] with [options: { create: ... }]: the vote and one
    option for each label, in the order of the labels. [newOptionId] names
    the options the store creates, and [activeDefault] is the flag the
    store gives a vote that is created without one. *)
Definition vote_create (newId : string) (newOptionId : nat -> string)
  (activeDefault : bool) (title : string) (description : option string)
  (startAt endAt : Z) (labels : list string) : M (Vote * list VoteOption) :=
  fun w =>
    let d := db w in
    let v := mkVote newId title description startAt endAt activeDefault in
    let created :=
      map (fun il => mkVoteOption (newOptionId (fst il)) newId (snd il))
          (combine (seq 0 (List.length labels)) labels) in
    (Ok (v, created),
     with_db w (with_voteOptions (with_votes d (votes d ++ [v]))
                                 (voteOptions d ++ created))).

Definition createVote (newId : string) (newOptionId : nat -> string)
  (activeDefault : bool) (data : CreateVoteInput)
  : M (Vote * list VoteOption) :=
  try_catch
    (vote <- vote_create newId newOptionId activeDefault (new_title data)
               (new_description data) (new_startAt data) (new_endAt data)
               (new_options data) ;;
     logger_info "Vote created"
       [("voteId", JStr (vote_id (fst vote)));
        ("title", JStr (vote_title (fst vote)));
        ("optionsCount",
         JNum (inject_Z (Z.of_nat (List.length (new_options data)))))] ;;;
     ret vote)
    (fun error =>
       logger_error "Error creating vote:" error ;;;
       throw error).

(** The [data] of an update on a row: a field that is given replaces the
    column, the others stay. *)
Definition vote_data_of (data : UpdateVoteInput) (v : Vote) : Vote :=
  mkVote (vote_id v)
         (match set_title data with Some t => t | None => vote_title v end)
         (match set_description data with
          | Some s => Some s
          | None => vote_description v
          end)
         (match set_startAt data with Some t => t | None => vote_startAt v end)
         (match set_endAt data with Some t => t | None => vote_endAt v end)
         (vote_active v).

(** [updateVote]. The labels of [options] go to the update as they are,
    and a list of labels is no value of the relation: the store refuses
    the update. *)
Definition updateVote (voteId : string) (data : UpdateVoteInput) : M Vote :=
  try_catch
    (match set_options data with
     | Some _ => throw (PrismaError "PrismaClientValidationError")
     | None =>
         vote <- vote_update voteId (vote_data_of data) ;;
         logger_info "Vote updated"
           [("voteId", JStr voteId); ("title", JStr (vote_title vote))] ;;;
         ret vote
     end)
    (fun error =>
       logger_error "Error updating vote:" error ;;;
       throw error).

End Votes.

(** *** LedgerService: writing and reading the ledger *)

(** A JavaScript value as [JSON.stringify] sees it. *)
#[warnings="-register-all"]
Inductive Json : Type :=
| JsonNull
| JsonBool (b : bool)
| JsonNumber (q : Q)
| JsonString (s : string)
| JsonArray (items : list Json)
| JsonObject (members : list (string * Json)).

Definition backslash : ascii := "\"%char.

(** The escape of one character inside a JSON string: the two-character
    escapes, [\u00XX] for the other control characters, the character
    itself otherwise. *)
Definition escape_json_char (c : ascii) : string :=
  let n := Z.of_nat (nat_of_ascii c) in
  if Ascii.eqb c dquote then String backslash (String dquote "")
  else if Ascii.eqb c backslash then String backslash (String backslash "")
  else if (n =? 8)%Z then String backslash "b"
  else if (n =? 9)%Z then String backslash "t"
  else if (n =? 10)%Z then String backslash "n"
  else if (n =? 12)%Z then String backslash "f"
  else if (n =? 13)%Z then String backslash "r"
  else if (n <? 32)%Z
  then String backslash
         ("u00" ++ String (digit_char (n / 16)) (String (digit_char (n mod 16)) ""))
  else String c "".

Fixpoint escape_json (s : string) : string :=
  match s with
  | EmptyString => EmptyString
  | String c s' => escape_json_char c ++ escape_json s'
  end.

Definition quoteJSONString (s : string) : string :=
  String dquote (escape_json s ++ String dquote "").

(** JavaScript truthiness of a value. *)
Definition json_truthy (numberIsZero : Q -> bool) (j : Json) : bool :=
  match j with
  | JsonNull => false
  | JsonBool b => b
  | JsonNumber q => negb (numberIsZero q)
  | JsonString s => negb (s =? "")%string
  | JsonArray _ | JsonObject _ => true
  end.

Record PaginationInput : Type := mkPagination {
  page : positive;
  limit : positive
}.

Record LedgerFilters : Type := mkLedgerFilters {
  filter_kind : option string;
  filter_currency : option Currency;
  filter_direction : option Direction;
  filter_startDate : option Z;
  filter_endDate : option Z
}.

Definition currency_eqb (a b : Currency) : bool :=
  match a, b with EUR, EUR | TOKEN, TOKEN => true | _, _ => false end.

Definition direction_eqb (a b : Direction) : bool :=
  match a, b with DirIn, DirIn | DirOut, DirOut => true | _, _ => false end.

(** [orderBy] with direction asc. *)
Fixpoint insert_asc {A} (key : A -> Z) (x : A) (l : list A) : list A :=
  match l with
  | [] => [x]
  | y :: l' =>
      if (key x <=? key y)%Z then x :: y :: l'
      else y :: insert_asc key x l'
  end.

Definition sort_asc {A} (key : A -> Z) (l : list A) : list A :=
  fold_right (insert_asc key) [] l.

(** [reduce((sum, entry) => sum + entry.amount, 0)]: the additions are
    those of numbers, made in the order of the rows. *)
Definition sum_amounts (l : list Ledger) : Number :=
  fold_left (fun sum entry =>
               Double.add sum (Double.round (ledger_amount entry)))
            l (Finite 0%Q).

Module LedgerOps.

Record LedgerPage : Type := mkLedgerPage {
  page_entries : list Ledger;
  page_total : nat;
  page_page : positive;
  page_totalPages : nat
}.

Record Totals : Type := mkTotals {
  totalIn : Number;
  totalOut : Number;
  net : Number
}.

Record Activity : Type := mkActivity {
  activity_kind : string;
  activity_count : nat;
  activity_totalAmount : Number
}.

Record Summary : Type := mkSummary {
  summary_eur : Totals;
  summary_tokens : Totals;
  activityByKind : list Activity;
  totalEntries : nat
}.

(** The [where] that [getLedgerEntries] builds from its filters. *)
Definition matches (filters : LedgerFilters) (e : Ledger) : bool :=
  (if truthy (filter_kind filters)
   then match filter_kind filters with
        | Some k => (ledger_kind e =? k)%string
        | None => true
        end
   else true)
  && match filter_currency filters with
     | Some c => currency_eqb (ledger_currency e) c
     | None => true
     end
  && match filter_direction filters with
     | Some d => direction_eqb (ledger_direction e) d
     | None => true
     end
  && match filter_startDate filters with
     | Some t => (t <=? ledger_createdAt e)%Z
     | None => true
     end
  && match filter_endDate filters with
     | Some t => (ledger_createdAt e <=? t)%Z
     | None => true
     end.

(** [skip: (page - 1) * limit, take: limit]. *)
Definition paginate {A} (pagination : PaginationInput) (l : list A) : list A :=
  firstn (Pos.to_nat (limit pagination))
         (skipn ((Pos.to_nat (page pagination) - 1)
                 * Pos.to_nat (limit pagination))%nat l).

(** [Math.ceil(total / limit)]. *)
Definition totalPages_of (total : nat) (pagination : PaginationInput) : nat :=
  ((total + Pos.to_nat (limit pagination) - 1)
   / Pos.to_nat (limit pagination))%nat.

(** [getLedgerEntries]; a page and a limit are integers from 1 on, as the
    pagination schema of the routes admits them. *)
Definition getLedgerEntries (filters : LedgerFilters)
  (pagination : PaginationInput) : M LedgerPage :=
  try_catch
    (rows <- gets (fun w => filter (matches filters) (ledger (db w))) ;;
     let entries := paginate pagination (sort_desc ledger_createdAt rows) in
     let total := List.length rows in
     ret (mkLedgerPage entries total (page pagination)
                       (totalPages_of total pagination)))
    (fun error =>
       logger_error "Error getting ledger entries:" error ;;;
       throw error).

Definition getLedgerByKind (kind : string) (pagination : PaginationInput)
  : M (LedgerPage * string) :=
  try_catch
    (rows <- gets (fun w =>
               filter (fun e => (ledger_kind e =? kind)%string)
                      (ledger (db w))) ;;
     let entries := paginate pagination (sort_desc ledger_createdAt rows) in
     let total := List.length rows in
     ret (mkLedgerPage entries total (page pagination)
                       (totalPages_of total pagination), kind))
    (fun error =>
       logger_error "Error getting ledger by kind:" error ;;;
       throw error).

Definition getLedgerByReference (refId : string) : M (list Ledger) :=
  try_catch
    (gets (fun w =>
       sort_asc ledger_createdAt
         (filter (fun e => (ledger_refId e =? refId)%string)
                 (ledger (db w)))))
    (fun error =>
       logger_error "Error getting ledger by reference:" error ;;;
       throw error).

Definition is_direction (d : Direction) (e : Ledger) : bool :=
  direction_eqb (ledger_direction e) d.

Definition is_currency (c : Currency) (e : Ledger) : bool :=
  currency_eqb (ledger_currency e) c.

(** [prisma.ledger.groupBy({ by: ["kind"], _count, _sum })]: one row for
    each kind that occurs, with the number of its entries and the sum of
    their amounts; the store chooses the order of the rows, and the sum is
    the one the database makes, [sum] of the amounts of the group. *)
Definition groupByKind (sum : list Q -> Number) (rows : list Ledger)
  : list (string * nat * Number) :=
  map (fun k =>
         let group := filter (fun e => (ledger_kind e =? k)%string) rows in
         (k, List.length group, sum (map ledger_amount group)))
      (nodup string_dec (map ledger_kind rows)).

Definition totals_of (entries : list Ledger) : Totals :=
  let totIn := sum_amounts (filter (is_direction DirIn) entries) in
  let totOut := sum_amounts (filter (is_direction DirOut) entries) in
  mkTotals totIn totOut (Double.sub totIn totOut).

(** [getLedgerSummary]. Two answers of the store are inputs: [scan], the
    order in which it returns the rows of a [findMany] that asks for no
    order, and [sum], the [_sum] of a group of [groupBy]. *)
Definition getLedgerSummary (scan : list Ledger -> list Ledger)
  (sum : list Q -> Number) (dateRange : option DateRangeInput) : M Summary :=
  try_catch
    (rows <- gets (fun w =>
               filter (LedgerService.in_range dateRange) (ledger (db w))) ;;
     let eurEntries := scan (filter (is_currency EUR) rows) in
     let tokenEntries := scan (filter (is_currency TOKEN) rows) in
     ret (mkSummary
            (totals_of eurEntries)
            (totals_of tokenEntries)
            (map (fun item =>
                    let '(kind, count, total) := item in
                    mkActivity kind count
                               (if Double.truthy total then total
                                else Finite 0%Q))
                 (groupByKind sum rows))
            (List.length eurEntries + List.length tokenEntries)%nat))
    (fun error =>
       logger_error "Error getting ledger summary:" error ;;;
       throw error).

Section Writing.

(** The conversion of a number to a string, as in the export, and the
    test of a number against zero. *)
Variable numberToString : Q -> string.

Fixpoint stringify (j : Json) : string :=
  match j with
  | JsonNull => "null"
  | JsonBool true => "true"
  | JsonBool false => "false"
  | JsonNumber q => numberToString q
  | JsonString s => quoteJSONString s
  | JsonArray items => "[" ++ concat "," (map stringify items) ++ "]"
  | JsonObject members =>
      "{" ++ concat ","
               (map (fun member =>
                       match member with
                       | (key, value) =>
                           quoteJSONString key ++ ":" ++ stringify value
                       end)
                    members)
          ++ "}"
  end.

Definition createLedgerEntry (newId : string) (now : Z)
  (kind refId : string) (direction : Direction) (amount : Q)
  (currency : Currency) (metadata : option Json) : M Ledger :=
  try_catch
    (let metadataJson :=
       match metadata with
       | Some j =>
           if json_truthy (fun q => Qeq_bool q 0) j
           then Some (stringify j) else None
       | None => None
       end in
     let entry :=
       mkLedger newId kind refId direction amount currency metadataJson now in
     modify_db (fun d => with_ledger d (ledger d ++ [entry])) ;;;
     logger_info "Ledger entry created"
       [("entryId", JStr newId); ("kind", JStr kind); ("refId", JStr refId);
        ("direction", JStr (direction_string direction));
        ("amount", JNum amount);
        ("currency", JStr (currency_string currency))] ;;;
     ret entry)
    (fun error =>
       logger_error "Error creating ledger entry:" error ;;;
       throw error).

Definition logPayment (newId : string) (now : Z) (orderId : string)
  (amount : Q) (status : string) : M unit :=
  _ <- createLedgerEntry newId now "payment" orderId DirIn amount EUR
         (Some (JsonObject [("status", JsonString status);
                            ("provider", JsonString "stripe")])) ;;
  ret tt.

Definition logMint (newId : string) (now : Z) (orderId : string)
  (tokenAmount : Q) (txHash : string) : M unit :=
  _ <- createLedgerEntry newId now "mint" orderId DirOut tokenAmount TOKEN
         (Some (JsonObject [("txHash", JsonString txHash);
                            ("chainId", JsonNumber 137)])) ;;
  ret tt.

Definition logPerkClaim (newId : string) (now : Z) (claimId : string)
  (tokenCost : Q) : M unit :=
  _ <- createLedgerEntry newId now "perk_claim" claimId DirIn tokenCost TOKEN
         (Some (JsonObject [("type", JsonString "perk_redemption")])) ;;
  ret tt.

Definition logVote (newId : string) (now : Z) (voteId userId : string)
  : M unit :=
  _ <- createLedgerEntry newId now "vote" voteId DirIn 1 TOKEN
         (Some (JsonObject [("userId", JsonString userId);
                            ("type", JsonString "governance")])) ;;
  ret tt.

End Writing.

End LedgerOps.

(** *** TokenService.getTokenInfo, PerkService.getPerks *)

Module Reads.

Record TokenInfo : Type := mkTokenInfo {
  info_name : string;
  info_symbol : string;
  info_decimals : Z;
  info_totalSupply : string
}.

(** [getTokenInfo]; [erc20_info] is what the four reads of the contract
    ([name], [symbol], [decimals], [totalSupply]) answer together, nothing
    when one of them throws. *)
Definition getTokenInfo (bc : Chain) (erc20_info : option TokenInfo)
  : M TokenInfo :=
  try_catch
    (TokenService.ensure_sdk bc ;;;
     TokenService.getContract bc ;;;
     match erc20_info with
     | Some info => ret info
     | None => throw (SdkError "erc20")
     end)
    (fun error =>
       logger_error "Error getting token info:" error ;;;
       throw error).

(** [orderBy] with direction asc on a text column: an insertion sort by
    [le], the order of the collation of the store. *)
Fixpoint insert_by {A} (le : A -> A -> bool) (x : A) (l : list A) : list A :=
  match l with
  | [] => [x]
  | y :: l' => if le x y then x :: y :: l' else y :: insert_by le x l'
  end.

Definition sort_by {A} (le : A -> A -> bool) (l : list A) : list A :=
  fold_right (insert_by le) [] l.

(** [getPerks]; [name_le] is the order of the store on names. *)
Definition getPerks (name_le : string -> string -> bool) (activeOnly : bool)
  : M (list Perk) :=
  try_catch
    (gets (fun w =>
       sort_by (fun p q => name_le (perk_name p) (perk_name q))
         (filter (fun p => if activeOnly then perk_active p else true)
                 (perks (db w)))))
    (fun error =>
       logger_error "Error getting perks:" error ;;;
       throw error).

End Reads.

(** *** The operations of the services

    The public methods of the five services, and the private
    [handleCheckoutCompleted] among the calls, each with the inputs it
    takes from its environment. *)
Inductive Op : Type :=
| OpCall (c : Call)
| OpInitialize (bc : Chain)
| OpGetTokenInfo (bc : Chain) (erc20_info : option Reads.TokenInfo)
| OpGetPerks (name_le : string -> string -> bool) (activeOnly : bool)
| OpGetTokenBalance (bc : Chain) (address : string)
| OpTransferTokens (bc : Chain)
    (erc20_transfer : string -> Q -> option string)
    (fromUserId toUserId : string) (amount : Q)
| OpWebhook (env : Stripe.Env) (newId payload signature : string)
| OpGetPerkById (perkId : string)
| OpGetUserPerks (userId : string)
| OpGetPerkClaims (perkId : option string)
| OpGetVotes (now : Z) (activeOnly : bool)
| OpGetVoteById (voteId : string)
| OpGetUserVotes (userId : string)
| OpDeleteVote (voteId : string)
| OpAddVoteOption (newId voteId label : string)
| OpCreateLedgerEntry (numberToString : Q -> string) (newId : string)
    (now : Z) (kind refId : string) (direction : Direction) (amount : Q)
    (currency : Currency) (metadata : option Json)
| OpLogPayment (numberToString : Q -> string) (newId : string) (now : Z)
    (orderId : string) (amount : Q) (status : string)
| OpLogMint (numberToString : Q -> string) (newId : string) (now : Z)
    (orderId : string) (tokenAmount : Q) (txHash : string)
| OpLogPerkClaim (numberToString : Q -> string) (newId : string) (now : Z)
    (claimId : string) (tokenCost : Q)
| OpLogVote (numberToString : Q -> string) (newId : string) (now : Z)
    (voteId userId : string)
| OpGetLedgerEntries (filters : LedgerFilters) (pagination : PaginationInput)
| OpGetLedgerSummary (scan : list Ledger -> list Ledger)
    (sum : list Q -> Number) (dateRange : option DateRangeInput)
| OpGetLedgerByKind (kind : string) (pagination : PaginationInput)
| OpGetLedgerByReference (refId : string)
| OpCreatePerk (newId : string) (data : Perks.CreatePerkInput)
| OpUpdatePerk (perkId : string) (data : Perks.UpdatePerkInput)
| OpCreateVote (newId : string) (newOptionId : nat -> string)
    (activeDefault : bool) (data : Votes.CreateVoteInput)
| OpUpdateVote (voteId : string) (data : Votes.UpdateVoteInput)
| OpCreateCheckoutSession (products : list Stripe.Product)
    (sessions_create : Stripe.SessionParams -> option StripeService.Session)
    (numberToString : Q -> string) (newId : string)
    (productId userId successUrl cancelUrl : string).

(** The world an operation leaves behind, whether it returns or throws. *)
Definition run (o : Op) (w : World) : World :=
  match o with
  | OpCall c => exec c w
  | OpInitialize bc => snd (TokenService.initialize bc w)
  | OpGetTokenInfo bc erc20_info => snd (Reads.getTokenInfo bc erc20_info w)
  | OpGetPerks name_le activeOnly =>
      snd (Reads.getPerks name_le activeOnly w)
  | OpGetTokenBalance bc address =>
      snd (TokenService.getTokenBalance bc address w)
  | OpTransferTokens bc erc20_transfer fromUserId toUserId amount =>
      snd (Tokens.transferTokens bc erc20_transfer fromUserId toUserId
             amount w)
  | OpWebhook env newId payload signature =>
      snd (Stripe.handleWebhook env newId payload signature w)
  | OpGetPerkById perkId => snd (PerkService.getPerkById perkId w)
  | OpGetUserPerks userId => snd (Perks.getUserPerks userId w)
  | OpGetPerkClaims perkId => snd (Perks.getPerkClaims perkId w)
  | OpGetVotes now activeOnly => snd (Votes.getVotes now activeOnly w)
  | OpGetVoteById voteId => snd (VoteService.getVoteById voteId w)
  | OpGetUserVotes userId => snd (Votes.getUserVotes userId w)
  | OpDeleteVote voteId => snd (Votes.deleteVote voteId w)
  | OpAddVoteOption newId voteId label =>
      snd (Votes.addVoteOption newId voteId label w)
  | OpCreateLedgerEntry numberToString newId now kind refId direction amount
      currency metadata =>
      snd (LedgerOps.createLedgerEntry numberToString newId now kind refId
             direction amount currency metadata w)
  | OpLogPayment numberToString newId now orderId amount status =>
      snd (LedgerOps.logPayment numberToString newId now orderId amount
             status w)
  | OpLogMint numberToString newId now orderId tokenAmount txHash =>
      snd (LedgerOps.logMint numberToString newId now orderId tokenAmount
             txHash w)
  | OpLogPerkClaim numberToString newId now claimId tokenCost =>
      snd (LedgerOps.logPerkClaim numberToString newId now claimId
             tokenCost w)
  | OpLogVote numberToString newId now voteId userId =>
      snd (LedgerOps.logVote numberToString newId now voteId userId w)
  | OpGetLedgerEntries filters pagination =>
      snd (LedgerOps.getLedgerEntries filters pagination w)
  | OpGetLedgerSummary scan sum dateRange =>
      snd (LedgerOps.getLedgerSummary scan sum dateRange w)
  | OpGetLedgerByKind kind pagination =>
      snd (LedgerOps.getLedgerByKind kind pagination w)
  | OpGetLedgerByReference refId =>
      snd (LedgerOps.getLedgerByReference refId w)
  | OpCreatePerk newId data => snd (Perks.createPerk newId data w)
  | OpUpdatePerk perkId data => snd (Perks.updatePerk perkId data w)
  | OpCreateVote newId newOptionId activeDefault data =>
      snd (Votes.createVote newId newOptionId activeDefault data w)
  | OpUpdateVote voteId data => snd (Votes.updateVote voteId data w)
  | OpCreateCheckoutSession products sessions_create numberToString newId
      productId userId successUrl cancelUrl =>
      snd (Stripe.createCheckoutSession products sessions_create
             numberToString newId productId userId successUrl cancelUrl w)
  end.

Definition run_all (ops : list Op) (w : World) : World :=
  fold_left (fun w' o => run o w') ops w.

(** The operations that write the ledger: [createLedgerEntry] and the
    four helpers over it. *)
Definition writes_ledger (o : Op) : bool :=
  match o with
  | OpCreateLedgerEntry _ _ _ _ _ _ _ _ _
  | OpLogPayment _ _ _ _ _ _
  | OpLogMint _ _ _ _ _ _
  | OpLogPerkClaim _ _ _ _ _
  | OpLogVote _ _ _ _ _ => true
  | _ => false
  end.

(** *** Vocabulary of the further properties *)

(** At most one ballot for a vote and a user. *)
Definition unique_voters (d : DB) : Prop :=
  NoDup (map (fun b => (ballot_voteId b, ballot_userId b)) (voteBallots d)).

(** Every ballot names an option of the table that belongs to the vote of
    the ballot. *)
Definition ballots_refer_to_options (d : DB) : Prop :=
  forall b, In b (voteBallots d) ->
    option_of_vote d (ballot_voteId b) (ballot_optionId b) = true.

(** The event a delivery verifies to: the secret is configured and
    [constructEvent] accepts the signature. *)
Definition verified_event (env : Stripe.Env) (payload signature : string)
  : option Stripe.Event :=
  match Stripe.webhookSecret env with
  | Some secret =>
      if truthy (Stripe.webhookSecret env)
      then Stripe.constructEvent env payload signature secret
      else None
  | None => None
  end.

(** The chain answers the set-up of the SDK and of the contract. *)
Definition chain_ready (bc : Chain) (w : World) : bool :=
  (sdk w || chain_fromPrivateKey bc) && chain_getContract bc.

(** The wallet of a user as the services accept it: set and not empty. *)
Definition usable_wallet (d : DB) (userId : string) : option string :=
  match wallet_of d userId with
  | Some a => if (a =? "")%string then None else Some a
  | None => None
  end.

Ltac unfold_methods :=
  cbv beta iota delta
    [run exec
     Reads.getTokenInfo Reads.getPerks
     Perks.createPerk Perks.updatePerk Perks.perk_create
     Votes.createVote Votes.updateVote Votes.vote_create
     Stripe.createCheckoutSession Stripe.order_create
     Tokens.transferTokens Stripe.handleWebhook Stripe.handlePaymentSucceeded
     Stripe.handlePaymentFailed Perks.getUserPerks Perks.getPerkClaims
     Votes.getVotes Votes.getUserVotes Votes.deleteVote Votes.addVoteOption
     vote_update voteOption_create
     LedgerOps.createLedgerEntry LedgerOps.logPayment LedgerOps.logMint
     LedgerOps.logPerkClaim LedgerOps.logVote LedgerOps.getLedgerEntries
     LedgerOps.getLedgerSummary LedgerOps.getLedgerByKind
     LedgerOps.getLedgerByReference
     PerkService.redeemPerk PerkService.redeemPerk_lookup
     PerkService.redeemPerk_resume PerkService.redeemPerk_catch
     perkClaim_findUnique perkClaim_update
     TokenService.mintTokens TokenService.mintTokens_catch
     TokenService.mintTokens_body TokenService.getTokenBalance
     TokenService.ensure_sdk TokenService.initialize
     TokenService.getContract TokenService.erc20_mintTo
     StripeService.handleCheckoutCompleted
     PerkService.claimPerk PerkService.getPerkById PerkService.deletePerk
     VoteService.castBallot VoteService.getVoteById
     VoteService.getVoteResults VoteService.removeVoteOption
     LedgerService.exportLedgerCSV
     mint_create payment_create perkClaim_create perk_update
     voteBallot_create voteOption_delete user_findUnique order_update
     order_updateMany].

Ltac simpl_store :=
  cbn [fst snd db mintCalls logs sdk schema users orders payments mints perks
       perkClaims votes voteOptions voteBallots ledger with_db with_orders
       with_payments with_mints with_perks with_perkClaims with_votes
       with_voteOptions with_voteBallots with_ledger] in *.

(** Every path of an operation, one goal for each. *)
Ltac by_paths_of_the_code :=
  unfold_methods; run_m; simpl_store; try reflexivity;
  repeat (break_match_goal; simpl_store; try reflexivity).

(** *** Sample data of the further properties *)

Definition bob : User := mkUser "u2" "bob@example.com" (Some "0xB0B").

Definition carol : User := mkUser "u3" "carol@example.com" None.

Definition redeemed_c0 : PerkClaim :=
  mkPerkClaim "c0" "k1" "u2" 10 "PERK_W_00" 400 (Some 450).

(** A store with three users (the third without wallet), a pending order,
    two perks, a redeemed and an open claim, an open vote with two options
    and three ballots, and two ledger entries. *)
Definition club_db : DB :=
  mkDB (mkSchema false false) [alice; bob; carol]
       [mkOrder "o1" "u1" "p1" Pending] [] []
       [mkPerk "k1" "Coffee" 10 true; mkPerk "k2" "Shirt" 40 true]
       [redeemed_c0; claim_c1]
       [mkVote "v1" "Logo" None 100 200 true]
       [mkVoteOption "A" "v1" "Blue"; mkVoteOption "B" "v1" "Red"]
       [mkVoteBallot "b1" "v1" "A" "u1" 110;
        mkVoteBallot "b2" "v1" "A" "u2" 120;
        mkVoteBallot "b3" "v1" "B" "u3" 130]
       [payment_entry; mint_entry].

(** The answer of [constructEvent] for a payload that names the type of
    the event, about the session [checkout_o1]. *)
Definition sample_env : Stripe.Env :=
  Stripe.mkEnv (Some "whsec_1")
    (fun payload signature _ =>
       if (signature =? "good")%string
       then Some (Stripe.mkEvent payload
                    (Stripe.mkEventObject checkout_o1 (Some 5000) None))
       else None).

(** A ledger of cents: 0.1 and 0.2 in, 0.3 out, all in EUR. *)
Definition cents_db : DB :=
  ledger_db
    [mkLedger "l1" "payment" "o1" DirIn (1 # 10) EUR None 100;
     mkLedger "l2" "payment" "o2" DirIn (2 # 10) EUR None 200;
     mkLedger "l3" "refund" "o1" DirOut (3 # 10) EUR None 300].

(** A store that sums the amounts of a group as numbers, in the order of
    its rows. *)
Definition sample_sum (amounts : list Q) : Number :=
  fold_left (fun total q => Double.add total (Double.round q)) amounts
            (Finite 0%Q).

(** A run of operations of every service. *)
Definition sample_ops : list Op :=
  [OpWebhook sample_env "pay1" "checkout.session.completed" "good";
   OpCall (CallMintTokens (chain_accepting "0xaaa") "m1" 1000 "o1" "u1" 100
             None);
   OpLogMint integerToString "l3" 1700000090000 "o1" 100 "0xaaa";
   OpCall (CallClaimPerk (chain_with_balance 25) "c2" 600 sample_random
             "k1" "u1");
   OpCall (CallRedeemPerk 650 "c0" "staff");
   OpCall (CallRedeemPerk 660 "c1" "staff");
   OpCall (CallDeletePerk "k1");
   OpCall (CallCastBallot "b4" 150 "v1" "u4" "B");
   OpCall (CallCastBallot "b5" 160 "v1" "u4" "A");
   OpAddVoteOption "C" "v1" "Green";
   OpCall (CallRemoveVoteOption "C");
   OpCall (CallRemoveVoteOption "A");
   OpDeleteVote "v1";
   OpTransferTokens (chain_with_balance 25) (fun _ _ => Some "0xccc")
     "u1" "u2" 5;
   OpGetLedgerSummary (fun rows => rows) sample_sum None;
   OpGetPerks String.leb true;
   OpInitialize (chain_accepting "0xaaa");
   OpGetUserPerks "u1"].

(** A product of 19.99 EUR, a Stripe client that answers with a session
    of what it was handed, and a run of the operations that create and
    rewrite perks and votes, open a checkout and set the SDK up. *)
Definition sample_products : list Stripe.Product :=
  [Stripe.mkProduct "p1" "Pack" 100 (1999 # 100) true;
   Stripe.mkProduct "p2" "Old pack" 50 5 false].

Definition sample_sessions_create (params : Stripe.SessionParams)
  : option StripeService.Session :=
  Some (StripeService.mkSession "cs_2"
          (Some (Stripe.metadata_orderId params))
          (Some (Stripe.metadata_userId params))
          (Some (Stripe.metadata_productId params))
          (Some (Stripe.metadata_tokenAmount params))
          match Stripe.unit_amount params with
          | Finite q => Some (Qnum q / Z.pos (Qden q))%Z
          | _ => None
          end).

Definition sample_admin_ops : list Op :=
  [OpCreatePerk "k3" (Perks.mkCreatePerkInput "Mug" 15 true);
   OpUpdatePerk "k1" (Perks.mkUpdatePerkInput (Some "Espresso") (Some 12%Q)
                        None);
   OpCreateVote "v2" (fun i => "v2-" ++ integerToString (inject_Z (Z.of_nat i)))
     true (Votes.mkCreateVoteInput "Colour" None 300 400 ["Red"; "Blue"]);
   OpUpdateVote "v2" (Votes.mkUpdateVoteInput None (Some "Of the shirt")
                        None (Some 500%Z) None);
   OpUpdateVote "v2" (Votes.mkUpdateVoteInput (Some "Color") None None None
                        (Some ["Green"]));
   OpCreateCheckoutSession sample_products sample_sessions_create
     integerToString "o2" "p1" "u1" "https://club/success"
     "https://club/cancel";
   OpCreateCheckoutSession sample_products (fun _ => None)
     integerToString "o3" "p1" "u1" "https://club/success"
     "https://club/cancel";
   OpCreateCheckoutSession sample_products sample_sessions_create
     integerToString "o4" "p2" "u1" "https://club/success"
     "https://club/cancel";
   OpInitialize (chain_accepting "0xaaa");
   OpInitialize (chain_accepting "0xaaa")].

(** The ledger entries an operation writes, read off a run of it on the
    empty store. *)
Definition empty_db : DB :=
  mkDB (mkSchema false false) [] [] [] [] [] [] [] [] [] [].

Definition written (o : Op) : list Ledger :=
  ledger (db (run o (world_of empty_db))).

(** What one operation does to the ballots and the options: nothing, one
    ballot more (of a voter without ballot in the vote, for an option of
    the vote), options more, or the options of an id without ballots
    removed. *)
Inductive poll_step (d d' : DB) : Prop :=
| poll_same :
    voteBallots d' = voteBallots d -> voteOptions d' = voteOptions d ->
    poll_step d d'
| poll_cast (b : VoteBallot) :
    voteBallots d' = (voteBallots d ++ [b])%list ->
    voteOptions d' = voteOptions d ->
    has_ballot d (ballot_voteId b) (ballot_userId b) = false ->
    option_of_vote d (ballot_voteId b) (ballot_optionId b) = true ->
    poll_step d d'
| poll_add (added : list VoteOption) :
    voteBallots d' = voteBallots d ->
    voteOptions d' = (voteOptions d ++ added)%list ->
    poll_step d d'
| poll_remove (optionId : string) :
    voteBallots d' = voteBallots d ->
    voteOptions d'
    = filter (fun o => negb (option_id o =? optionId)%string) (voteOptions d) ->
    ballots_of_option d optionId = 0%nat ->
    poll_step d d'.

(** The value a call returned, nothing when it threw. *)
Definition returned {A} (r : Result A) : option A :=
  match r with
  | Ok a => Some a
  | Throw _ => None
  end.

(** The entries of the page [k] (from 1 on) of [getLedgerEntries]. *)
Definition page_of (filters : LedgerFilters) (limit : positive) (w : World)
  (k : nat) : list Ledger :=
  match fst (LedgerOps.getLedgerEntries filters
               (mkPagination (Pos.of_nat k) limit) w) with
  | Ok p => LedgerOps.page_entries p
  | Throw _ => []
  end.

(** The entries that match the filters, latest first. *)
Definition matching_entries (filters : LedgerFilters) (d : DB) : list Ledger :=
  sort_desc ledger_createdAt (filter (LedgerOps.matches filters) (ledger d)).

(** The entries [getLedgerSummary] reads. *)
Definition entries_in_range (dateRange : option DateRangeInput) (d : DB)
  : list Ledger :=
  filter (LedgerService.in_range dateRange) (ledger d).

(** The error a call threw, nothing when it returned. *)
Definition error_of {A} (r : Result A) : option AppError :=
  match r with
  | Ok _ => None
  | Throw e => Some e
  end.

(** The error an operation throws on a world, nothing when it returns. *)
Definition thrown (o : Op) (w : World) : option AppError :=
  match o with
  | OpCall (CallMintTokens bc newId now orderId userId tokenAmount
              recipientAddress) =>
      error_of (fst (TokenService.mintTokens bc newId now orderId userId
                       tokenAmount recipientAddress w))
  | OpCall (CallCheckoutCompleted newId session) =>
      error_of (fst (StripeService.handleCheckoutCompleted newId session w))
  | OpCall (CallClaimPerk bc newId now random perkId userId) =>
      error_of (fst (PerkService.claimPerk bc newId now random perkId userId
                       w))
  | OpCall (CallRedeemPerk now claimId staffUserId) =>
      error_of (fst (PerkService.redeemPerk now claimId staffUserId w))
  | OpCall (CallDeletePerk perkId) =>
      error_of (fst (PerkService.deletePerk perkId w))
  | OpCall (CallCastBallot newId now voteId userId optionId) =>
      error_of (fst (VoteService.castBallot newId now voteId userId optionId
                       w))
  | OpCall (CallGetVoteResults voteId) =>
      error_of (fst (VoteService.getVoteResults voteId w))
  | OpCall (CallRemoveVoteOption optionId) =>
      error_of (fst (VoteService.removeVoteOption optionId w))
  | OpCall (CallExportLedgerCSV numberToString dateRange) =>
      error_of (fst (LedgerService.exportLedgerCSV numberToString dateRange
                       w))
  | OpInitialize bc => error_of (fst (TokenService.initialize bc w))
  | OpGetTokenInfo bc erc20_info =>
      error_of (fst (Reads.getTokenInfo bc erc20_info w))
  | OpGetPerks name_le activeOnly =>
      error_of (fst (Reads.getPerks name_le activeOnly w))
  | OpGetTokenBalance bc address =>
      error_of (fst (TokenService.getTokenBalance bc address w))
  | OpTransferTokens bc erc20_transfer fromUserId toUserId amount =>
      error_of (fst (Tokens.transferTokens bc erc20_transfer fromUserId
                       toUserId amount w))
  | OpWebhook env newId payload signature =>
      error_of (fst (Stripe.handleWebhook env newId payload signature w))
  | OpGetPerkById perkId => error_of (fst (PerkService.getPerkById perkId w))
  | OpGetUserPerks userId => error_of (fst (Perks.getUserPerks userId w))
  | OpGetPerkClaims perkId => error_of (fst (Perks.getPerkClaims perkId w))
  | OpGetVotes now activeOnly =>
      error_of (fst (Votes.getVotes now activeOnly w))
  | OpGetVoteById voteId => error_of (fst (VoteService.getVoteById voteId w))
  | OpGetUserVotes userId => error_of (fst (Votes.getUserVotes userId w))
  | OpDeleteVote voteId => error_of (fst (Votes.deleteVote voteId w))
  | OpAddVoteOption newId voteId label =>
      error_of (fst (Votes.addVoteOption newId voteId label w))
  | OpCreateLedgerEntry numberToString newId now kind refId direction amount
      currency metadata =>
      error_of (fst (LedgerOps.createLedgerEntry numberToString newId now
                       kind refId direction amount currency metadata w))
  | OpLogPayment numberToString newId now orderId amount status =>
      error_of (fst (LedgerOps.logPayment numberToString newId now orderId
                       amount status w))
  | OpLogMint numberToString newId now orderId tokenAmount txHash =>
      error_of (fst (LedgerOps.logMint numberToString newId now orderId
                       tokenAmount txHash w))
  | OpLogPerkClaim numberToString newId now claimId tokenCost =>
      error_of (fst (LedgerOps.logPerkClaim numberToString newId now claimId
                       tokenCost w))
  | OpLogVote numberToString newId now voteId userId =>
      error_of (fst (LedgerOps.logVote numberToString newId now voteId userId
                       w))
  | OpGetLedgerEntries filters pagination =>
      error_of (fst (LedgerOps.getLedgerEntries filters pagination w))
  | OpGetLedgerSummary scan sum dateRange =>
      error_of (fst (LedgerOps.getLedgerSummary scan sum dateRange w))
  | OpGetLedgerByKind kind pagination =>
      error_of (fst (LedgerOps.getLedgerByKind kind pagination w))
  | OpGetLedgerByReference refId =>
      error_of (fst (LedgerOps.getLedgerByReference refId w))
  | OpCreatePerk newId data => error_of (fst (Perks.createPerk newId data w))
  | OpUpdatePerk perkId data =>
      error_of (fst (Perks.updatePerk perkId data w))
  | OpCreateVote newId newOptionId activeDefault data =>
      error_of (fst (Votes.createVote newId newOptionId activeDefault data
                       w))
  | OpUpdateVote voteId data =>
      error_of (fst (Votes.updateVote voteId data w))
  | OpCreateCheckoutSession products sessions_create numberToString newId
      productId userId successUrl cancelUrl =>
      error_of (fst (Stripe.createCheckoutSession products sessions_create
                       numberToString newId productId userId successUrl
                       cancelUrl w))
  end.

(** [handleCheckoutCompleted] is private and has no catch block of its
    own; it runs under the one of [handleWebhook]. *)
Definition without_catch (o : Op) : bool :=
  match o with
  | OpCall (CallCheckoutCompleted _ _) => true
  | _ => false
  end.

(** The calls of [initialize] itself, which sets the SDK up whether or
    not it is set up; every other method that needs the SDK asks for it
    under [if (!this.sdk)]. *)
Definition initializes (o : Op) : bool :=
  match o with
  | OpInitialize _ => true
  | _ => false
  end.

(** The log lines of a set-up of the SDK. *)
Definition sdk_initialized (l : list LogEntry) : nat :=
  List.length
    (filter (fun e => (log_message e =? "Thirdweb SDK initialized")%string) l).

(** The columns of an order and of a claim that no operation rewrites:
    all but the status of an order and the redeemedAt of a claim. *)
Definition order_data (o : Order) : string * string * string :=
  (order_id o, order_userId o, order_productId o).

Definition claim_data (c : PerkClaim)
  : string * string * string * Q * string * Z :=
  (claim_id c, claim_perkId c, claim_userId c, claim_tokenCost c,
   claim_qrCode c, claim_createdAt c).

(** The rows of [d] are kept in [d']: the users are as they were; the
    orders, the perks, the votes and the claims are those of [d], in their
    order and under their ids, followed by new ones, and an order or a
    claim differs in its status or its redeemedAt only; payments, mints,
    ballots and ledger entries are those of [d], in their order, followed
    by new ones. *)
Definition rows_kept (d d' : DB) : Prop :=
  schema d' = schema d
  /\ users d' = users d
  /\ (exists l, map order_data (orders d')
                = (map order_data (orders d) ++ l)%list)
  /\ (exists l, map perk_id (perks d') = (map perk_id (perks d) ++ l)%list)
  /\ (exists l, map vote_id (votes d') = (map vote_id (votes d) ++ l)%list)
  /\ (exists l, payments d' = (payments d ++ l)%list)
  /\ (exists l, mints d' = (mints d ++ l)%list)
  /\ (exists l, map claim_data (perkClaims d')
                = (map claim_data (perkClaims d) ++ l)%list)
  /\ (exists l, voteBallots d' = (voteBallots d ++ l)%list)
  /\ (exists l, ledger d' = (ledger d ++ l)%list).

(** *** Reading digits back *)

(** The value of a digit of [digit_chars], and of a string of digits in a
    radix, most significant digit first. *)
Fixpoint index_of (c : ascii) (l : list ascii) (i : Z) : Z :=
  match l with
  | [] => i
  | x :: l' => if Ascii.eqb x c then i else index_of c l' (i + 1)
  end.

Definition digit_value (c : ascii) : Z := index_of c digit_chars 0.

Fixpoint value_of_digits (radix : Z) (s : string) (acc : Z) : Z :=
  match s with
  | EmptyString => acc
  | String c s' => value_of_digits radix s' (acc * radix + digit_value c)
  end.

(** A digit or a lower-case letter; a string of such characters. *)
Definition lower_alnum (c : ascii) : bool :=
  existsb (Ascii.eqb c) digit_chars.

Fixpoint alnum_string (s : string) : bool :=
  match s with
  | EmptyString => true
  | String c s' => lower_alnum c && alnum_string s'
  end.

(** * Properties *)

(** ** TokenService.mintTokens *)

(** When the body of [mintTokens] throws, the store is as it was: the only
    writes of the body are the insertion of the Mint row and the update of
    the order that follows it. *)
Lemma mintTokens_body_throw_db bc newId now orderId userId amount recipient
  w e w1 :
  TokenService.mintTokens_body bc newId now orderId userId amount recipient w
    = (Throw e, w1) ->
  db w1 = db w.
Proof.
  unfold TokenService.mintTokens_body, TokenService.ensure_sdk,
    TokenService.initialize, TokenService.getContract,
    TokenService.erc20_mintTo, mint_create, user_findUnique, order_updateMany.
  run_m. intros H.
  repeat (break_match_hyp; cbn [fst snd db mintCalls logs sdk] in *;
          try discriminate; pair_inv; try reflexivity).
Qed.

Lemma mintTokens_throw_inv bc newId now orderId userId amount recipient w e w' :
  TokenService.mintTokens bc newId now orderId userId amount recipient w
    = (Throw e, w') ->
  exists w1,
    TokenService.mintTokens_body bc newId now orderId userId amount recipient w
      = (Throw e, w1)
    /\ db w' = with_orders (db w1) (mark_failed orderId (orders (db w1))).
Proof.
  unfold TokenService.mintTokens, try_catch.
  destruct (TokenService.mintTokens_body _ _ _ _ _ _ _ w) as [[a|e1] w1] eqn:Hb.
  - discriminate.
  - unfold TokenService.mintTokens_catch, order_updateMany. run_m.
    intros H. inversion H; subst. exists w1. split; reflexivity.
Qed.

(** C10. Whenever [mintTokens] throws, whatever the cause, the error is
    the one its body threw and its catch block has set to failed every
    order with the given id, whatever the status of the order was: the
    orders of the store are those before the call with that update
    applied, so an order that was completed is failed when the error
    reaches the caller. *)
Theorem mintTokens_throw_marks_order_failed
  bc newId now orderId userId amount recipient w e w' :
  TokenService.mintTokens bc newId now orderId userId amount recipient w
    = (Throw e, w') ->
  (exists w1,
     TokenService.mintTokens_body bc newId now orderId userId amount
                                  recipient w = (Throw e, w1))
  /\ orders (db w') = mark_failed orderId (orders (db w))
  /\ (forall o, In o (orders (db w)) -> order_id o = orderId ->
        In (set_status Failed o) (orders (db w')))
  /\ (forall o, In o (orders (db w')) -> order_id o = orderId ->
        order_status o = Failed).
Proof.
  intros H. apply mintTokens_throw_inv in H. destruct H as [w1 [Hb Hw']].
  split; [exists w1; exact Hb|].
  apply mintTokens_body_throw_db in Hb.
  assert (Ho : orders (db w') = mark_failed orderId (orders (db w))).
  { rewrite Hw', <- Hb. reflexivity. }
  split; [exact Ho|]. rewrite Ho. unfold mark_failed. split.
  - intros o Hin Hid. apply in_map_iff. exists o. split; [|exact Hin].
    rewrite Hid, String.eqb_refl. reflexivity.
  - intros o Hin Hid. apply in_map_iff in Hin. destruct Hin as [o0 [Heq _]].
    destruct (order_id o0 =? orderId)%string eqn:E.
    + subst o. reflexivity.
    + subst o. apply String.eqb_neq in E. contradiction.
Qed.

Lemma mintTokens_throw_marks_order_failed_witness :
  let w := world_of admin_mint_db in
  let w' := snd (TokenService.mintTokens chain_rejecting "m1" 1000 "o9" "u1"
                   100 (Some "0xA11CE") w) in
  (exists w1,
     TokenService.mintTokens_body chain_rejecting "m1" 1000 "o9" "u1" 100
                                  (Some "0xA11CE") w
     = (Throw (SdkError "mintTo"), w1))
  /\ orders (db w') = mark_failed "o9" (orders (db w))
  /\ (forall o, In o (orders (db w)) -> order_id o = "o9" ->
        In (set_status Failed o) (orders (db w')))
  /\ (forall o, In o (orders (db w')) -> order_id o = "o9" ->
        order_status o = Failed).
Proof.
  apply (mintTokens_throw_marks_order_failed chain_rejecting "m1" 1000 "o9"
           "u1" 100 (Some "0xA11CE") (world_of admin_mint_db)
           (SdkError "mintTo")).
  vm_compute. reflexivity.
Defined.

(** The three causes named for a throw of [mintTokens], each on the
    completed order of the admin route. *)
Example mintTokens_throws_without_wallet :
  fst (TokenService.mintTokens (chain_accepting "0xbbb") "m1" 1000 "o9" "u2"
         100 None (world_of admin_mint_db))
  = Throw (CustomError "Usuario sin dirección de wallet" 400).
Proof. vm_compute. reflexivity. Qed.

Example mintTokens_throws_on_rejection :
  let out := TokenService.mintTokens chain_rejecting "m1" 1000 "o9" "u1"
               100 None (world_of admin_mint_db) in
  fst out = Throw (SdkError "mintTo")
  /\ orders (db (snd out)) = [mkOrder "o9" "u1" "admin-mint" Failed].
Proof. vm_compute. split; reflexivity. Qed.

Example mintTokens_throws_on_insert :
  let out := TokenService.mintTokens (chain_accepting "0xbbb") "m2" 2000 "o1"
               "u1" 100 None (world_of (minted_db (mkSchema true false))) in
  fst out = Throw (PrismaError "P2002")
  /\ orders (db (snd out)) = [mkOrder "o1" "u1" "p1" Failed].
Proof. vm_compute. split; reflexivity. Qed.

(** No path of [mintTokens] writes the ledger. *)
Lemma mintTokens_ledger_unchanged bc newId now orderId userId amount recipient
  w :
  ledger (db (snd (TokenService.mintTokens bc newId now orderId userId amount
                     recipient w)))
  = ledger (db w).
Proof.
  unfold TokenService.mintTokens, TokenService.mintTokens_catch,
    TokenService.mintTokens_body, TokenService.ensure_sdk,
    TokenService.initialize, TokenService.getContract,
    TokenService.erc20_mintTo, mint_create, user_findUnique, order_updateMany.
  run_m.
  repeat (break_match_goal;
          cbn [fst snd db mintCalls logs sdk ledger with_mints with_orders]
            in *;
          try discriminate; pair_inv; try reflexivity).
Qed.

(** One call of [mintTokens] whose target address resolves, with the SDK
    available: the mint command is issued whatever the Mint rows are. *)
Lemma mintTokens_call bc newId now orderId userId amount recipient w addr :
  sdk w || chain_fromPrivateKey bc = true ->
  chain_getContract bc = true ->
  target_address w userId recipient = Some addr ->
  let out :=
    TokenService.mintTokens bc newId now orderId userId amount recipient w in
  mintCalls (snd out)
    = (mintCalls w ++ [mkMintCall addr amount (chain_mintTo bc addr amount)])%list
  /\ (forall tx,
        chain_mintTo bc addr amount = Some tx ->
        has_order (db w) orderId = true ->
        if mintOrderIdUnique (schema (db w)) && has_mint (db w) orderId
        then fst out = Throw (PrismaError "P2002")
             /\ mints (db (snd out)) = mints (db w)
        else fst out = Ok (TokenService.mkMintResult tx true)
             /\ sdk (snd out) = true
             /\ db (snd out)
                = with_orders
                    (with_mints (db w)
                       (mints (db w)
                        ++ [mkMint newId orderId userId amount tx 137 now]))
                    (map (fun o =>
                            if (order_id o =? orderId)%string
                               && status_eqb (order_status o) Pending
                            then set_status Completed o else o)
                         (orders (db w)))).
Proof.
  intros Hsdk Hc Ht out.
  assert (Haddr :
    (negb (truthy match find (fun u => (user_id u =? userId)%string)
                             (users (db w)) with
                  | Some u => walletAddress u
                  | None => None
                  end)
     && negb (truthy recipient) = false)
    /\ (if truthy recipient
        then match recipient with Some a => a | None => "" end
        else match
               match find (fun u => (user_id u =? userId)%string)
                          (users (db w)) with
               | Some u => walletAddress u
               | None => None
               end
             with Some a => a | None => "" end) = addr).
  { unfold target_address in Ht.
    destruct (truthy recipient) eqn:Hr.
    - rewrite andb_false_r. subst recipient. split; reflexivity.
    - destruct (find _ (users (db w))) as [u|]; [|discriminate].
      destruct (truthy (walletAddress u)) eqn:Hu; [|discriminate].
      rewrite Ht. split; reflexivity. }
  destruct Haddr as [Hcheck Htarget].
  subst out.
  unfold TokenService.mintTokens, TokenService.mintTokens_catch,
    TokenService.mintTokens_body, TokenService.ensure_sdk,
    TokenService.initialize, TokenService.getContract,
    TokenService.erc20_mintTo, mint_create, user_findUnique,
    order_updateMany, has_order, has_mint.
  run_m. cbv zeta. rewrite Hc.
  split.
  - destruct (sdk w); cbn [orb] in Hsdk; [|rewrite Hsdk];
      cbn [fst snd db mintCalls logs sdk];
      rewrite Hcheck, Htarget;
      repeat (break_match_goal;
              cbn [fst snd db mintCalls logs sdk with_mints with_orders];
              try reflexivity).
  - intros tx Htx Ho.
    destruct (sdk w) eqn:Hready; cbn [orb] in Hsdk; [|rewrite Hsdk];
      cbn [fst snd db mintCalls logs sdk];
      rewrite Hcheck, Htarget, Htx;
      cbn [fst snd db mintCalls logs sdk]; rewrite Ho;
      cbn [negb];
      destruct (mintOrderIdUnique (schema (db w)) && _);
      cbn [fst snd db mintCalls logs sdk mints with_mints with_orders];
      rewrite ?Hready; repeat split; reflexivity.
Qed.

Lemma existsb_map_same {A} (p : A -> bool) (f : A -> A) (l : list A) :
  (forall x, p (f x) = p x) -> existsb p (map f l) = existsb p l.
Proof.
  intros H. induction l as [|x l IH]; cbn; [reflexivity|].
  rewrite H, IH. reflexivity.
Qed.

(** C1, as the code has it.  [mintTokens] looks no Mint row up.  Whenever
    the SDK is available and a target address resolves, the call issues
    one mint command on the chain, also when the order already has a Mint
    row.  If the command is accepted and the order exists, the call then
    inserts a Mint row with the new hash and returns that hash; only a
    store that keeps [orderId] unique refuses the row of an order that has
    one, and then the call throws P2002 after the command was issued and
    the Mint rows stay as they were.  Hence two calls for an order without
    a Mint row issue two mint commands; the second call returns the second
    hash and leaves two Mint rows, or, under a unique [orderId], throws
    and leaves one. *)
Theorem mintTokens_issues_a_command_on_every_call
  bc newId now orderId userId amount recipient w addr :
  sdk w || chain_fromPrivateKey bc = true ->
  chain_getContract bc = true ->
  target_address w userId recipient = Some addr ->
  let out :=
    TokenService.mintTokens bc newId now orderId userId amount recipient w in
  mintCalls (snd out)
    = (mintCalls w ++ [mkMintCall addr amount (chain_mintTo bc addr amount)])%list
  /\ (forall tx,
        chain_mintTo bc addr amount = Some tx ->
        has_order (db w) orderId = true ->
        if mintOrderIdUnique (schema (db w)) && has_mint (db w) orderId
        then fst out = Throw (PrismaError "P2002")
             /\ mints (db (snd out)) = mints (db w)
        else fst out = Ok (TokenService.mkMintResult tx true)
             /\ mints (db (snd out))
                = (mints (db w)
                   ++ [mkMint newId orderId userId amount tx 137 now])%list)
  /\ (forall tx bc2 newId2 now2,
        chain_mintTo bc addr amount = Some tx ->
        has_order (db w) orderId = true ->
        has_mint (db w) orderId = false ->
        chain_getContract bc2 = true ->
        let out2 :=
          TokenService.mintTokens bc2 newId2 now2 orderId userId amount
                                  recipient (snd out) in
        mintCalls (snd out2)
          = (mintCalls w
             ++ [mkMintCall addr amount (Some tx);
                 mkMintCall addr amount (chain_mintTo bc2 addr amount)])%list
        /\ forall tx2,
             chain_mintTo bc2 addr amount = Some tx2 ->
             if mintOrderIdUnique (schema (db w))
             then fst out2 = Throw (PrismaError "P2002")
                  /\ mints (db (snd out2))
                     = (mints (db w)
                        ++ [mkMint newId orderId userId amount tx 137 now])%list
             else fst out2 = Ok (TokenService.mkMintResult tx2 true)
                  /\ mints (db (snd out2))
                     = (mints (db w)
                        ++ [mkMint newId orderId userId amount tx 137 now;
                            mkMint newId2 orderId userId amount tx2 137 now2])%list).
Proof.
  intros Hsdk Hc Ht out.
  destruct (mintTokens_call bc newId now orderId userId amount recipient w addr
              Hsdk Hc Ht) as [Hcalls Hres].
  fold out in Hcalls, Hres.
  split; [exact Hcalls|]. split.
  - intros tx Htx Ho. specialize (Hres tx Htx Ho).
    destruct (mintOrderIdUnique (schema (db w)) && has_mint (db w) orderId).
    + exact Hres.
    + destruct Hres as [Hr [_ Hd]]. split; [exact Hr|]. rewrite Hd. reflexivity.
  - intros tx bc2 newId2 now2 Htx Ho Hm Hc2 out2.
    specialize (Hres tx Htx Ho). rewrite Hm, andb_false_r in Hres.
    destruct Hres as [_ [Hs1 Hd1]].
    assert (Hsdk2 : sdk (snd out) || chain_fromPrivateKey bc2 = true)
      by (rewrite Hs1; reflexivity).
    assert (Ht2 : target_address (snd out) userId recipient = Some addr).
    { unfold target_address in *. rewrite Hd1. exact Ht. }
    assert (Ho2 : has_order (db (snd out)) orderId = true).
    { unfold has_order in *. rewrite Hd1. cbn [orders with_orders].
      rewrite existsb_map_same; [exact Ho|].
      intros o. destruct (_ && _); reflexivity. }
    assert (Hm2 : has_mint (db (snd out)) orderId = true).
    { unfold has_mint. rewrite Hd1. cbn [mints with_orders with_mints].
      rewrite existsb_app. cbn. rewrite String.eqb_refl.
      apply orb_true_r. }
    assert (Hsch : schema (db (snd out)) = schema (db w))
      by (rewrite Hd1; reflexivity).
    assert (Hmints : mints (db (snd out))
                     = (mints (db w)
                        ++ [mkMint newId orderId userId amount tx 137 now])%list)
      by (rewrite Hd1; reflexivity).
    destruct (mintTokens_call bc2 newId2 now2 orderId userId amount recipient
                (snd out) addr Hsdk2 Hc2 Ht2) as [Hcalls2 Hres2].
    fold out2 in Hcalls2, Hres2.
    split.
    + rewrite Hcalls2, Hcalls, Htx, <- app_assoc. reflexivity.
    + intros tx2 Htx2. specialize (Hres2 tx2 Htx2 Ho2).
      rewrite Hsch, Hm2, andb_true_r in Hres2.
      destruct (mintOrderIdUnique (schema (db w))).
      * destruct Hres2 as [Hr Hd]. split; [exact Hr|].
        rewrite Hd. exact Hmints.
      * destruct Hres2 as [Hr [_ Hd]]. split; [exact Hr|].
        rewrite Hd. cbn [mints with_orders with_mints].
        rewrite Hmints, <- app_assoc. reflexivity.
Qed.

Lemma mintTokens_issues_a_command_on_every_call_witness :
  let w := world_of (paid_db (mkSchema false false)) in
  let out :=
    TokenService.mintTokens (chain_accepting "0xaaa") "m1" 1000 "o1" "u1" 100
                            None w in
  mintCalls (snd out)
    = (mintCalls w ++ [mkMintCall "0xA11CE" 100 (Some "0xaaa")])%list
  /\ (forall tx,
        Some "0xaaa" = Some tx ->
        has_order (db w) "o1" = true ->
        if mintOrderIdUnique (schema (db w)) && has_mint (db w) "o1"
        then fst out = Throw (PrismaError "P2002")
             /\ mints (db (snd out)) = mints (db w)
        else fst out = Ok (TokenService.mkMintResult tx true)
             /\ mints (db (snd out))
                = (mints (db w)
                   ++ [mkMint "m1" "o1" "u1" 100 tx 137 1000])%list)
  /\ (forall tx bc2 newId2 now2,
        Some "0xaaa" = Some tx ->
        has_order (db w) "o1" = true ->
        has_mint (db w) "o1" = false ->
        chain_getContract bc2 = true ->
        let out2 :=
          TokenService.mintTokens bc2 newId2 now2 "o1" "u1" 100 None
                                  (snd out) in
        mintCalls (snd out2)
          = (mintCalls w
             ++ [mkMintCall "0xA11CE" 100 (Some tx);
                 mkMintCall "0xA11CE" 100 (chain_mintTo bc2 "0xA11CE" 100)])%list
        /\ forall tx2,
             chain_mintTo bc2 "0xA11CE" 100 = Some tx2 ->
             if mintOrderIdUnique (schema (db w))
             then fst out2 = Throw (PrismaError "P2002")
                  /\ mints (db (snd out2))
                     = (mints (db w)
                        ++ [mkMint "m1" "o1" "u1" 100 tx 137 1000])%list
             else fst out2 = Ok (TokenService.mkMintResult tx2 true)
                  /\ mints (db (snd out2))
                     = (mints (db w)
                        ++ [mkMint "m1" "o1" "u1" 100 tx 137 1000;
                            mkMint newId2 "o1" "u1" 100 tx2 137 now2])%list).
Proof.
  apply (mintTokens_issues_a_command_on_every_call
           (chain_accepting "0xaaa") "m1" 1000 "o1" "u1" 100 None
           (world_of (paid_db (mkSchema false false))) "0xA11CE");
    reflexivity.
Defined.

(** C1 does not hold of the code.  On a store where order o1 has its Mint
    row with hash 0xaaa, a second call is not answered from that row,
    whether or not the store keeps [orderId] unique; and after two
    accepted calls for one order the chain has received two mint commands
    while the ledger has no mint entry for the order. *)
Lemma mintTokens_not_exactly_once :
  ~ mint_replayed (chain_accepting "0xbbb") "m2" 2000 "o1" "u1" 100 None
      (world_of (minted_db (mkSchema false false)))
      (mkMint "m1" "o1" "u1" 100 "0xaaa" 137 1000)
  /\ ~ mint_replayed (chain_accepting "0xbbb") "m2" 2000 "o1" "u1" 100 None
         (world_of (minted_db (mkSchema true false)))
         (mkMint "m1" "o1" "u1" 100 "0xaaa" 137 1000)
  /\ List.length (mintCalls (minted_twice (mkSchema false false))) = 2%nat
  /\ List.length (mints (db (minted_twice (mkSchema false false)))) = 2%nat
  /\ List.length (mintCalls (minted_twice (mkSchema true false))) = 2%nat
  /\ ledger_entries (db (minted_twice (mkSchema false false))) "mint" "o1" = []
  /\ ledger_entries (db (minted_twice (mkSchema true false))) "mint" "o1" = [].
Proof.
  split; [|split].
  - intros [w' [H _]]. vm_compute in H. discriminate H.
  - intros [w' [H _]]. vm_compute in H. discriminate H.
  - vm_compute. repeat split; reflexivity.
Qed.

(** ** StripeService.handleCheckoutCompleted *)

Lemma update_first_existsb {A} (p : A -> bool) (f : A -> A) (l : list A) :
  (forall x, p (f x) = p x) ->
  existsb p (update_first p f l) = existsb p l.
Proof.
  intros H. induction l as [|x l IH]; cbn; [reflexivity|].
  destruct (p x) eqn:E; cbn.
  - rewrite H, E. reflexivity.
  - rewrite E. exact IH.
Qed.

(** One delivery with complete metadata for an order of the store. *)
Lemma handleCheckoutCompleted_delivery newId session orderId w :
  complete_metadata session = true ->
  StripeService.meta_orderId session = Some orderId ->
  has_order (db w) orderId = true ->
  let out := StripeService.handleCheckoutCompleted newId session w in
  orders (db (snd out))
  = update_first (fun o => (order_id o =? orderId)%string)
                 (set_status Completed) (orders (db w))
  /\ schema (db (snd out)) = schema (db w)
  /\ if paymentOrderIdUnique (schema (db w)) && has_payment (db w) orderId
     then fst out = Throw (PrismaError "P2002")
          /\ payments (db (snd out)) = payments (db w)
     else fst out = Ok tt
          /\ payments (db (snd out))
             = (payments (db w)
                ++ [mkPayment newId orderId "stripe"
                              (StripeService.amountEur_of session)
                              "completed"])%list.
Proof.
  intros Hm Hid Ho out. subst out.
  unfold complete_metadata, has_order, has_payment in *.
  unfold StripeService.handleCheckoutCompleted.
  apply andb_prop in Hm. destruct Hm as [Hm H4].
  apply andb_prop in Hm. destruct Hm as [Hm H3].
  apply andb_prop in Hm. destruct Hm as [H1 H2].
  rewrite H1, H2, H3, H4, Hid. cbn [negb orb].
  unfold order_update, payment_create. run_m. rewrite Ho.
  cbn [fst snd db orders with_orders schema payments].
  rewrite update_first_existsb, Ho by reflexivity. cbn [negb].
  destruct (paymentOrderIdUnique (schema (db w)) && _);
    cbn [fst snd db orders with_orders with_payments payments schema];
    repeat split; reflexivity.
Qed.

(** C2, as the code has it.  [handleCheckoutCompleted] looks no earlier
    settlement up and does not look at the status of the order.  Every
    delivery with complete metadata for an order of the store sets the
    status of that order to completed, whatever it was, and then inserts a
    Payment row (provider stripe, the total in EUR, status completed);
    only a store that keeps the [orderId] of payments unique refuses the
    row of an order that has one, and then the delivery throws P2002 after
    the status was set.  A second delivery of the event is processed as
    the first was: after a first delivery that went through it adds a
    second Payment row, or throws under a unique [orderId]. *)
Theorem handleCheckoutCompleted_settles_on_every_delivery
  newId session orderId w :
  complete_metadata session = true ->
  StripeService.meta_orderId session = Some orderId ->
  has_order (db w) orderId = true ->
  let out := StripeService.handleCheckoutCompleted newId session w in
  orders (db (snd out))
  = update_first (fun o => (order_id o =? orderId)%string)
                 (set_status Completed) (orders (db w))
  /\ (if paymentOrderIdUnique (schema (db w)) && has_payment (db w) orderId
      then fst out = Throw (PrismaError "P2002")
           /\ payments (db (snd out)) = payments (db w)
      else fst out = Ok tt
           /\ payments (db (snd out))
              = (payments (db w)
                 ++ [mkPayment newId orderId "stripe"
                               (StripeService.amountEur_of session)
                               "completed"])%list)
  /\ (forall newId2,
        fst out = Ok tt ->
        let out2 :=
          StripeService.handleCheckoutCompleted newId2 session (snd out) in
        if paymentOrderIdUnique (schema (db w))
        then fst out2 = Throw (PrismaError "P2002")
             /\ payments (db (snd out2)) = payments (db (snd out))
        else fst out2 = Ok tt
             /\ payments (db (snd out2))
                = (payments (db w)
                   ++ [mkPayment newId orderId "stripe"
                                 (StripeService.amountEur_of session)
                                 "completed";
                       mkPayment newId2 orderId "stripe"
                                 (StripeService.amountEur_of session)
                                 "completed"])%list).
Proof.
  intros Hm Hid Ho out.
  destruct (handleCheckoutCompleted_delivery newId session orderId w Hm Hid Ho)
    as [Hor [Hsch Hres]].
  fold out in Hor, Hsch, Hres.
  split; [exact Hor|]. split; [exact Hres|].
  intros newId2 Hok out2.
  destruct (paymentOrderIdUnique (schema (db w)) && has_payment (db w) orderId)
    eqn:Hu.
  { destruct Hres as [Hr _]. rewrite Hr in Hok. discriminate. }
  destruct Hres as [_ Hpay].
  assert (Ho2 : has_order (db (snd out)) orderId = true).
  { unfold has_order in *. rewrite Hor.
    rewrite update_first_existsb by reflexivity. exact Ho. }
  assert (Hp2 : has_payment (db (snd out)) orderId = true).
  { unfold has_payment. rewrite Hpay, existsb_app. cbn.
    rewrite String.eqb_refl. apply orb_true_r. }
  destruct (handleCheckoutCompleted_delivery newId2 session orderId (snd out)
              Hm Hid Ho2) as [_ [_ Hres2]].
  fold out2 in Hres2. rewrite Hsch, Hp2, andb_true_r in Hres2.
  destruct (paymentOrderIdUnique (schema (db w))).
  - exact Hres2.
  - destruct Hres2 as [Hr Hd]. split; [exact Hr|].
    rewrite Hd, Hpay, <- app_assoc. reflexivity.
Qed.

Lemma handleCheckoutCompleted_settles_on_every_delivery_witness :
  let w := world_of (pending_db (mkSchema false false)) in
  let out := StripeService.handleCheckoutCompleted "pay1" checkout_o1 w in
  orders (db (snd out))
  = update_first (fun o => (order_id o =? "o1")%string)
                 (set_status Completed) (orders (db w))
  /\ (if paymentOrderIdUnique (schema (db w)) && has_payment (db w) "o1"
      then fst out = Throw (PrismaError "P2002")
           /\ payments (db (snd out)) = payments (db w)
      else fst out = Ok tt
           /\ payments (db (snd out))
              = (payments (db w)
                 ++ [mkPayment "pay1" "o1" "stripe"
                               (StripeService.amountEur_of checkout_o1)
                               "completed"])%list)
  /\ (forall newId2,
        fst out = Ok tt ->
        let out2 :=
          StripeService.handleCheckoutCompleted newId2 checkout_o1 (snd out) in
        if paymentOrderIdUnique (schema (db w))
        then fst out2 = Throw (PrismaError "P2002")
             /\ payments (db (snd out2)) = payments (db (snd out))
        else fst out2 = Ok tt
             /\ payments (db (snd out2))
                = (payments (db w)
                   ++ [mkPayment "pay1" "o1" "stripe"
                                 (StripeService.amountEur_of checkout_o1)
                                 "completed";
                       mkPayment newId2 "o1" "stripe"
                                 (StripeService.amountEur_of checkout_o1)
                                 "completed"])%list).
Proof.
  apply (handleCheckoutCompleted_settles_on_every_delivery
           "pay1" checkout_o1 "o1"
           (world_of (pending_db (mkSchema false false))));
    reflexivity.
Defined.

(** No path of [handleCheckoutCompleted] writes the ledger. *)
Lemma handleCheckoutCompleted_ledger_unchanged newId session w :
  ledger (db (snd (StripeService.handleCheckoutCompleted newId session w)))
  = ledger (db w).
Proof. by_cases_of_the_code. Qed.

(** C2 does not hold of the code.  For the pending order o1 the second
    delivery of the event is no no-op: it adds a second Payment row, or,
    where the store keeps the [orderId] of payments unique, it throws.
    After the two deliveries the ledger has no payment entry for the
    order. *)
Lemma handleCheckoutCompleted_not_settled_once :
  ~ settled_once "pay1" "pay2" "o1" checkout_o1
      (world_of (pending_db (mkSchema false false)))
  /\ ~ settled_once "pay1" "pay2" "o1" checkout_o1
         (world_of (pending_db (mkSchema false true)))
  /\ List.length
       (payments
          (db (snd (StripeService.handleCheckoutCompleted "pay2" checkout_o1
                      (snd (StripeService.handleCheckoutCompleted "pay1"
                              checkout_o1
                              (world_of (pending_db (mkSchema false false)))))))))
     = 2%nat
  /\ ledger_entries
       (db (snd (StripeService.handleCheckoutCompleted "pay2" checkout_o1
                   (snd (StripeService.handleCheckoutCompleted "pay1"
                           checkout_o1
                           (world_of (pending_db (mkSchema false false))))))))
       "payment" "o1" = [].
Proof.
  split; [|split; [|split]].
  - intros [w1 [w2 [H1 [H2 [H3 _]]]]].
    vm_compute in H1. inversion H1; subst w1.
    vm_compute in H2. inversion H2; subst w2.
    vm_compute in H3. discriminate H3.
  - intros [w1 [w2 [H1 [H2 _]]]].
    vm_compute in H1. inversion H1; subst w1.
    vm_compute in H2. discriminate H2.
  - vm_compute. reflexivity.
  - vm_compute. reflexivity.
Qed.

(** ** PerkService.redeemPerk *)

Section UpdateFirst.

Context {A : Type} (where_ : A -> bool) (data : A -> A).

Lemma find_update_first (l : list A) (x : A) :
  find where_ l = Some x -> where_ (data x) = true ->
  find where_ (update_first where_ data l) = Some (data x).
Proof.
  induction l as [|y l IH]; cbn; [discriminate|].
  destruct (where_ y) eqn:E; intros H Hd.
  - inversion H; subst. cbn. rewrite Hd. reflexivity.
  - cbn. rewrite E. apply IH; assumption.
Qed.

Lemma update_first_none (l : list A) :
  find where_ l = None -> update_first where_ data l = l.
Proof.
  induction l as [|y l IH]; cbn; [reflexivity|].
  destruct (where_ y); [discriminate|]. intros H. rewrite IH; auto.
Qed.

Lemma update_first_rel (R : A -> A -> Prop) (l : list A) (x : A) :
  (forall y, R y y) -> find where_ l = Some x -> R x (data x) ->
  Forall2 R l (update_first where_ data l).
Proof.
  intros Hrefl. induction l as [|y l IH]; cbn; [discriminate|].
  assert (Hl : forall l0 : list A, Forall2 R l0 l0).
  { induction l0; constructor; auto. }
  destruct (where_ y) eqn:E; intros H HR.
  - inversion H; subst. constructor; auto.
  - constructor; auto.
Qed.

End UpdateFirst.

Lemma Forall2_refl {A} (R : A -> A -> Prop) (l : list A) :
  (forall y, R y y) -> Forall2 R l l.
Proof. intros H. induction l; constructor; auto. Qed.

(** The result of [redeemPerk] by cases on the claim the lookup finds. *)
Lemma redeemPerk_missing now claimId staffUserId w :
  find_claim (db w) claimId = None ->
  fst (PerkService.redeemPerk now claimId staffUserId w)
    = Throw (CustomError "Claim no encontrado" 404)
  /\ db (snd (PerkService.redeemPerk now claimId staffUserId w)) = db w.
Proof.
  unfold find_claim. intros H.
  unfold PerkService.redeemPerk, PerkService.redeemPerk_lookup,
    PerkService.redeemPerk_resume, PerkService.redeemPerk_catch,
    perkClaim_findUnique.
  run_m. rewrite H. split; reflexivity.
Qed.

Lemma redeemPerk_redeemed now claimId staffUserId w c t :
  find_claim (db w) claimId = Some c -> claim_redeemedAt c = Some t ->
  fst (PerkService.redeemPerk now claimId staffUserId w) = Throw AlreadyRedeemed
  /\ db (snd (PerkService.redeemPerk now claimId staffUserId w)) = db w.
Proof.
  unfold find_claim. intros H Ht.
  unfold PerkService.redeemPerk, PerkService.redeemPerk_lookup,
    PerkService.redeemPerk_resume, PerkService.redeemPerk_catch,
    perkClaim_findUnique.
  run_m. rewrite H, Ht. split; reflexivity.
Qed.

Lemma redeemPerk_fresh now claimId staffUserId w c :
  find_claim (db w) claimId = Some c -> claim_redeemedAt c = None ->
  PerkService.redeemPerk now claimId staffUserId w
  = (Ok (set_redeemedAt (Some now) c),
     mkWorld
       (with_perkClaims (db w)
          (update_first (fun c' => (claim_id c' =? claimId)%string)
                        (set_redeemedAt (Some now)) (perkClaims (db w))))
       (mintCalls w)
       (logs w ++ [redeemed_log now claimId staffUserId c])
       (sdk w)).
Proof.
  unfold find_claim. intros H Ht.
  unfold PerkService.redeemPerk, PerkService.redeemPerk_lookup,
    PerkService.redeemPerk_resume, PerkService.redeemPerk_catch,
    perkClaim_findUnique, perkClaim_update.
  run_m. rewrite H, Ht. cbn [fst snd db]. rewrite H. reflexivity.
Qed.

Lemma find_claim_id d claimId c :
  find_claim d claimId = Some c -> (claim_id c =? claimId)%string = true.
Proof. unfold find_claim. intros H. apply find_some in H. apply H. Qed.

(** Across a call of [redeemPerk] each row of the claims table is left as
    it was or stamped from null. *)
Lemma redeemPerk_rows now claimId staffUserId w :
  Forall2 (claim_step now) (perkClaims (db w))
    (perkClaims (db (snd (PerkService.redeemPerk now claimId staffUserId w)))).
Proof.
  destruct (find_claim (db w) claimId) as [c|] eqn:Hc.
  - destruct (claim_redeemedAt c) as [t|] eqn:Ht.
    + destruct (redeemPerk_redeemed now claimId staffUserId w c t Hc Ht)
        as [_ Hd]. rewrite Hd. apply Forall2_refl. left. reflexivity.
    + rewrite (redeemPerk_fresh _ _ _ _ _ Hc Ht).
      cbn [snd db perkClaims with_perkClaims].
      apply update_first_rel with (x := c).
      * left. reflexivity.
      * exact Hc.
      * right. auto.
  - destruct (redeemPerk_missing now claimId staffUserId w Hc) as [_ Hd].
    rewrite Hd. apply Forall2_refl. left. reflexivity.
Qed.

(** C3. [redeemPerk] succeeds exactly when the claim exists and its
    [redeemedAt] is null.  On success it returns the claim stamped with the
    clock, the store holds the stamped claim, and the log line of the
    redeem names the staff member; from then on every call for the claim
    fails with AlreadyRedeemed and leaves the store as it is.  Across any
    call each row of the claims table is left as it was or stamped from
    null, so a stamp is set once and never reverted. *)
Theorem redeemPerk_redeems_exactly_once now claimId staffUserId w :
  let out := PerkService.redeemPerk now claimId staffUserId w in
  ((exists c', fst out = Ok c')
   <-> (exists c, find_claim (db w) claimId = Some c
                  /\ claim_redeemedAt c = None))
  /\ (forall c,
        find_claim (db w) claimId = Some c -> claim_redeemedAt c = None ->
        fst out = Ok (set_redeemedAt (Some now) c)
        /\ find_claim (db (snd out)) claimId
           = Some (set_redeemedAt (Some now) c)
        /\ logs (snd out)
           = (logs w ++ [redeemed_log now claimId staffUserId c])%list
        /\ forall now' staff',
             fst (PerkService.redeemPerk now' claimId staff' (snd out))
               = Throw AlreadyRedeemed
             /\ db (snd (PerkService.redeemPerk now' claimId staff' (snd out)))
                = db (snd out))
  /\ (forall c t,
        find_claim (db w) claimId = Some c -> claim_redeemedAt c = Some t ->
        fst out = Throw AlreadyRedeemed /\ db (snd out) = db w)
  /\ Forall2 (claim_step now) (perkClaims (db w)) (perkClaims (db (snd out))).
Proof.
  intros out. subst out.
  assert (Hfresh : forall c,
    find_claim (db w) claimId = Some c -> claim_redeemedAt c = None ->
    find_claim (db (snd (PerkService.redeemPerk now claimId staffUserId w)))
               claimId = Some (set_redeemedAt (Some now) c)).
  { intros c Hc Hn. rewrite (redeemPerk_fresh _ _ _ _ _ Hc Hn).
    cbn [snd db perkClaims with_perkClaims]. unfold find_claim.
    apply find_update_first; [exact Hc|].
    cbn. exact (find_claim_id _ _ _ Hc). }
  split; [|split; [|split]].
  - split.
    + intros [c' Hok].
      destruct (find_claim (db w) claimId) as [c|] eqn:Hc.
      * destruct (claim_redeemedAt c) as [t|] eqn:Ht.
        -- destruct (redeemPerk_redeemed now claimId staffUserId w c t Hc Ht)
             as [Hr _]. rewrite Hr in Hok. discriminate.
        -- exists c. auto.
      * destruct (redeemPerk_missing now claimId staffUserId w Hc) as [Hr _].
        rewrite Hr in Hok. discriminate.
    + intros [c [Hc Hn]]. rewrite (redeemPerk_fresh _ _ _ _ _ Hc Hn).
      eexists. reflexivity.
  - intros c Hc Hn. split; [|split; [|split]].
    + rewrite (redeemPerk_fresh _ _ _ _ _ Hc Hn). reflexivity.
    + apply Hfresh; assumption.
    + rewrite (redeemPerk_fresh _ _ _ _ _ Hc Hn). reflexivity.
    + intros now' staff'.
      apply (redeemPerk_redeemed now' claimId staff' _ _ now (Hfresh c Hc Hn)).
      reflexivity.
  - intros c t Hc Ht. apply (redeemPerk_redeemed _ _ _ _ _ _ Hc Ht).
  - apply redeemPerk_rows.
Qed.

(** The case of the claim c1, redeemed at 900 by staff member s1. *)
Example redeemPerk_example :
  let out := PerkService.redeemPerk 900 "c1" "s1" (world_of claimed_db) in
  fst out = Ok (set_redeemedAt (Some 900) claim_c1)
  /\ perkClaims (db (snd out)) = [set_redeemedAt (Some 900) claim_c1]
  /\ fst (PerkService.redeemPerk 950 "c1" "s2" (snd out)) = Throw AlreadyRedeemed.
Proof. vm_compute. repeat split; reflexivity. Qed.

(** ** Two calls of redeemPerk for one claim *)

(** A call that runs its two steps with nothing in between is
    [redeemPerk]. *)
Lemma task_alone_is_redeemPerk t1 t2 claimId staffUserId w :
  let '(a, w1) := task_step t1 (Called claimId staffUserId) w in
  task_step t2 a w1
  = (Settled (fst (PerkService.redeemPerk t2 claimId staffUserId w)),
     snd (PerkService.redeemPerk t2 claimId staffUserId w)).
Proof.
  unfold task_step, PerkService.redeemPerk, PerkService.redeemPerk_lookup,
    perkClaim_findUnique.
  run_m.
  destruct (PerkService.redeemPerk_resume t2 claimId staffUserId
              (find (fun c => (claim_id c =? claimId)%string)
                    (perkClaims (db w))) w) as [[c'|e] w'];
    reflexivity.
Qed.

Lemma lookup_step claimId staffUserId now w :
  task_step now (Called claimId staffUserId) w
  = (Awaiting claimId staffUserId (find_claim (db w) claimId), w).
Proof. reflexivity. Qed.

(** The second step of a call that looked up an unredeemed claim [c],
    whatever happened to the row in between. *)
Lemma resume_step claimId staffUserId now w c c0 :
  claim_redeemedAt c = None ->
  find_claim (db w) claimId = Some c0 ->
  task_step now (Awaiting claimId staffUserId (Some c)) w
  = (Settled (Ok (set_redeemedAt (Some now) c0)),
     mkWorld
       (with_perkClaims (db w)
          (update_first (fun c' => (claim_id c' =? claimId)%string)
                        (set_redeemedAt (Some now)) (perkClaims (db w))))
       (mintCalls w)
       (logs w ++ [redeemed_log now claimId staffUserId c])
       (sdk w)).
Proof.
  unfold find_claim. intros Hn H0.
  unfold task_step, PerkService.redeemPerk_resume,
    PerkService.redeemPerk_catch, perkClaim_update.
  run_m. rewrite Hn. cbn [fst snd db]. rewrite H0. reflexivity.
Qed.

Lemma resume_step_redeemed claimId staffUserId now w c t :
  claim_redeemedAt c = Some t ->
  task_step now (Awaiting claimId staffUserId (Some c)) w
  = (Settled (Throw AlreadyRedeemed),
     mkWorld (db w) (mintCalls w)
       (logs w ++ [mkLog LError "Error redeeming perk:"
                     [("error", JErr AlreadyRedeemed)]])
       (sdk w)).
Proof.
  intros Ht.
  unfold task_step, PerkService.redeemPerk_resume,
    PerkService.redeemPerk_catch.
  run_m. rewrite Ht. reflexivity.
Qed.

Lemma stamped_lookup claimId now w c :
  find_claim (db w) claimId = Some c ->
  find (fun c' => (claim_id c' =? claimId)%string)
       (update_first (fun c' => (claim_id c' =? claimId)%string)
                     (set_redeemedAt (Some now)) (perkClaims (db w)))
  = Some (set_redeemedAt (Some now) c).
Proof.
  intros Hc. apply find_update_first; [exact Hc|].
  cbn. exact (find_claim_id _ _ _ Hc).
Qed.

(** C9, as the code has it.  [redeemPerk] reads the claim and rewrites it
    in two store operations, with no condition on [redeemedAt] in the
    second.  For a claim that is not yet redeemed: when one call has
    finished before the other starts, the first returns the claim and the
    second observes AlreadyRedeemed; when both lookups come before both
    updates, both calls return the claim, the row is stamped twice, the
    later stamp stays, and two redeems are logged. *)
Theorem redeemPerk_two_calls claimId staff1 staff2 w c t1 t2 t3 t4 :
  find_claim (db w) claimId = Some c ->
  claim_redeemedAt c = None ->
  (exists w',
     run_two [(false, t1); (false, t2); (true, t3); (true, t4)]
             (Called claimId staff1) (Called claimId staff2) w
     = (Settled (Ok (set_redeemedAt (Some t2) c)),
        Settled (Throw AlreadyRedeemed), w')
     /\ find_claim (db w') claimId = Some (set_redeemedAt (Some t2) c))
  /\ (exists w',
        run_two [(true, t1); (true, t2); (false, t3); (false, t4)]
                (Called claimId staff1) (Called claimId staff2) w
        = (Settled (Throw AlreadyRedeemed),
           Settled (Ok (set_redeemedAt (Some t2) c)), w')
        /\ find_claim (db w') claimId = Some (set_redeemedAt (Some t2) c))
  /\ (forall schedule, In schedule (overlapped t1 t2 t3 t4) ->
        exists ca cb w',
          run_two schedule (Called claimId staff1) (Called claimId staff2) w
          = (Settled (Ok ca), Settled (Ok cb), w')
          /\ (claim_redeemedAt ca = Some t3 /\ claim_redeemedAt cb = Some t4
              \/ claim_redeemedAt ca = Some t4 /\ claim_redeemedAt cb = Some t3)
          /\ find_claim (db w') claimId = Some (set_redeemedAt (Some t4) c)
          /\ List.length (logs w') = (List.length (logs w) + 2)%nat).
Proof.
  intros Hc Hn.
  assert (Hs : forall t, claim_redeemedAt (set_redeemedAt (Some t) c) = Some t)
    by reflexivity.
  split; [|split].
  - cbn [run_two]. rewrite lookup_step, Hc. cbn beta iota.
    rewrite (resume_step _ _ _ _ _ _ Hn Hc). cbn beta iota.
    rewrite lookup_step. cbn beta iota. unfold find_claim at 1.
    cbn [db perkClaims with_perkClaims].
    rewrite (stamped_lookup _ _ _ _ Hc), (resume_step_redeemed _ _ _ _ _ _ (Hs t2)).
    eexists. split; [reflexivity|].
    unfold find_claim. cbn [db perkClaims with_perkClaims].
    apply stamped_lookup, Hc.
  - cbn [run_two]. rewrite lookup_step, Hc. cbn beta iota.
    rewrite (resume_step _ _ _ _ _ _ Hn Hc). cbn beta iota.
    rewrite lookup_step. cbn beta iota. unfold find_claim at 1.
    cbn [db perkClaims with_perkClaims].
    rewrite (stamped_lookup _ _ _ _ Hc), (resume_step_redeemed _ _ _ _ _ _ (Hs t2)).
    eexists. split; [reflexivity|].
    unfold find_claim. cbn [db perkClaims with_perkClaims].
    apply stamped_lookup, Hc.
  - intros schedule Hin.
    assert (Hc3 : forall w3 : World,
      db w3 = with_perkClaims (db w)
                (update_first (fun c' => (claim_id c' =? claimId)%string)
                              (set_redeemedAt (Some t3)) (perkClaims (db w))) ->
      find_claim (db w3) claimId = Some (set_redeemedAt (Some t3) c)).
    { intros w3 H3. unfold find_claim. rewrite H3.
      cbn [perkClaims with_perkClaims]. apply stamped_lookup, Hc. }
    cbn [overlapped In] in Hin.
    destruct Hin as [H|[H|[H|[H|[]]]]]; subst schedule; cbn [run_two];
      rewrite lookup_step; cbn beta iota; rewrite lookup_step; cbn beta iota;
      rewrite Hc, (resume_step _ _ _ _ _ _ Hn Hc); cbn beta iota;
      match goal with
      | |- context [task_step t4 _ ?w3] =>
          rewrite (resume_step _ _ t4 w3 c _ Hn (Hc3 w3 eq_refl))
      end;
      do 3 eexists; (split; [reflexivity|]);
      (split; [cbn; auto|]);
      (split;
       [ unfold find_claim; cbn [db perkClaims with_perkClaims];
         apply (find_update_first
                  (fun c' => (claim_id c' =? claimId)%string)
                  (set_redeemedAt (Some t4)) _ (set_redeemedAt (Some t3) c));
         [apply stamped_lookup, Hc | cbn; exact (find_claim_id _ _ _ Hc)]
       | cbn [logs]; rewrite !length_app; cbn; lia ]).
Qed.

Lemma redeemPerk_two_calls_witness :
  (exists w',
     run_two [(false, 1); (false, 2); (true, 3); (true, 4)]
             (Called "c1" "s1") (Called "c1" "s2") (world_of claimed_db)
     = (Settled (Ok (set_redeemedAt (Some 2) claim_c1)),
        Settled (Throw AlreadyRedeemed), w')
     /\ find_claim (db w') "c1" = Some (set_redeemedAt (Some 2) claim_c1))
  /\ (exists w',
        run_two [(true, 1); (true, 2); (false, 3); (false, 4)]
                (Called "c1" "s1") (Called "c1" "s2") (world_of claimed_db)
        = (Settled (Throw AlreadyRedeemed),
           Settled (Ok (set_redeemedAt (Some 2) claim_c1)), w')
        /\ find_claim (db w') "c1" = Some (set_redeemedAt (Some 2) claim_c1))
  /\ (forall schedule, In schedule (overlapped 1 2 3 4) ->
        exists ca cb w',
          run_two schedule (Called "c1" "s1") (Called "c1" "s2")
                  (world_of claimed_db)
          = (Settled (Ok ca), Settled (Ok cb), w')
          /\ (claim_redeemedAt ca = Some 3 /\ claim_redeemedAt cb = Some 4
              \/ claim_redeemedAt ca = Some 4 /\ claim_redeemedAt cb = Some 3)
          /\ find_claim (db w') "c1" = Some (set_redeemedAt (Some 4) claim_c1)
          /\ List.length (logs w')
             = (List.length (logs (world_of claimed_db)) + 2)%nat).
Proof.
  apply (redeemPerk_two_calls "c1" "s1" "s2" (world_of claimed_db) claim_c1
                              1 2 3 4); reflexivity.
Defined.

(** C9 does not hold of the code: when the two lookups for the unredeemed
    claim c1 come before the two updates, neither call observes
    AlreadyRedeemed. *)
Lemma redeemPerk_both_calls_win :
  ~ one_redeem_wins [(false, 1); (true, 2); (false, 3); (true, 4)]
      "c1" "s1" "s2" (world_of claimed_db).
Proof.
  unfold one_redeem_wins. vm_compute.
  intros [[c [_ H]]|[c [_ H]]]; discriminate H.
Qed.

(** ** VoteService.castBallot *)

Lemma find_existsb {A} (p : A -> bool) (l : list A) :
  existsb p l = match find p l with Some _ => true | None => false end.
Proof.
  induction l as [|x l IH]; cbn; [reflexivity|].
  destruct (p x); [reflexivity | exact IH].
Qed.

(** The outcome of [castBallot] in each of its five cases. *)
Lemma castBallot_cases newId now voteId userId optionId w :
  let out := VoteService.castBallot newId now voteId userId optionId w in
  match find_vote (db w) voteId with
  | None =>
      fst out = Throw (CustomError "Votación no encontrada" 404)
      /\ db (snd out) = db w
  | Some v =>
      if (now <? vote_startAt v)%Z || (vote_endAt v <? now)%Z
      then fst out = Throw (CustomError "Votación no está activa" 400)
           /\ db (snd out) = db w
      else if negb (vote_active v)
      then fst out = Throw (CustomError "Votación inactiva" 400)
           /\ db (snd out) = db w
      else if has_ballot (db w) voteId userId
      then fst out = Throw AlreadyVoted /\ db (snd out) = db w
      else if negb (option_of_vote (db w) voteId optionId)
      then fst out = Throw (CustomError "Opción de voto inválida" 400)
           /\ db (snd out) = db w
      else fst out = Ok (mkVoteBallot newId voteId optionId userId now)
           /\ db (snd out)
              = with_voteBallots (db w)
                  (voteBallots (db w)
                   ++ [mkVoteBallot newId voteId optionId userId now])
  end.
Proof.
  intros out. subst out.
  unfold find_vote, has_ballot, option_of_vote.
  rewrite !find_existsb.
  unfold VoteService.castBallot, VoteService.getVoteById, voteBallot_create.
  run_m.
  destruct (find _ (votes (db w))) as [v|]; [|split; reflexivity].
  cbn [fst snd db].
  destruct ((now <? vote_startAt v)%Z || (vote_endAt v <? now)%Z);
    [split; reflexivity|].
  destruct (vote_active v); cbn [negb]; [|split; reflexivity].
  destruct (find _ (voteBallots (db w))) as [b|] eqn:Hb;
    [split; reflexivity|].
  destruct (find _ (voteOptions (db w))) as [o|]; cbn [negb fst snd db];
    [|split; reflexivity].
  rewrite find_existsb, Hb. split; reflexivity.
Qed.

(** C4. [castBallot] persists a ballot exactly when the vote exists, the
    clock is inside its window, its flag is set, the option belongs to the
    vote and the voter has no ballot in the vote; the ballot is then added
    to the table.  In every other case the call throws and the store is
    unchanged.  A voter who already has a ballot in the vote is rejected
    with an error, no ballot is added, and while the vote is open the error
    is the 400 already-voted one. *)
Theorem castBallot_one_ballot_per_voter newId now voteId userId optionId w :
  let out := VoteService.castBallot newId now voteId userId optionId w in
  ((exists b, fst out = Ok b)
   <-> may_cast (db w) now voteId userId optionId = true)
  /\ (may_cast (db w) now voteId userId optionId = true ->
        fst out = Ok (mkVoteBallot newId voteId optionId userId now)
        /\ voteBallots (db (snd out))
           = (voteBallots (db w)
              ++ [mkVoteBallot newId voteId optionId userId now])%list)
  /\ (may_cast (db w) now voteId userId optionId = false ->
        exists e, fst out = Throw e /\ db (snd out) = db w)
  /\ (has_ballot (db w) voteId userId = true ->
        (exists message statusCode,
           fst out = Throw (CustomError message statusCode))
        /\ voteBallots (db (snd out)) = voteBallots (db w)
        /\ (vote_open (db w) now voteId = true -> fst out = Throw AlreadyVoted)).
Proof.
  intros out.
  pose proof (castBallot_cases newId now voteId userId optionId w) as H.
  cbv zeta in H. fold out in H.
  unfold may_cast, vote_open.
  destruct (find_vote (db w) voteId) as [v|].
  2:{ destruct H as [Hr Hd]. cbn [andb]. rewrite Hr, Hd.
      repeat split; try discriminate; eauto.
      intros [b Hb]. discriminate. }
  rewrite (Z.ltb_antisym (vote_startAt v) now),
          (Z.ltb_antisym now (vote_endAt v)) in H.
  destruct (vote_startAt v <=? now)%Z; cbn [negb orb andb] in *.
  2:{ destruct H as [Hr Hd]. rewrite Hr, Hd.
      repeat split; try discriminate; eauto.
      intros [b Hb]. discriminate. }
  destruct (now <=? vote_endAt v)%Z; cbn [negb orb andb] in *.
  2:{ destruct H as [Hr Hd]. rewrite Hr, Hd.
      repeat split; try discriminate; eauto.
      intros [b Hb]. discriminate. }
  destruct (vote_active v); cbn [negb orb andb] in *.
  2:{ destruct H as [Hr Hd]. rewrite Hr, Hd.
      repeat split; try discriminate; eauto.
      intros [b Hb]. discriminate. }
  destruct (has_ballot (db w) voteId userId); cbn [negb orb andb] in *.
  { destruct H as [Hr Hd]. rewrite Hr, Hd. rewrite andb_false_r.
    repeat split; try discriminate; eauto.
    - intros [b Hb]. discriminate.
    - unfold AlreadyVoted. eauto. }
  destruct (option_of_vote (db w) voteId optionId); cbn [negb orb andb] in *.
  2:{ destruct H as [Hr Hd]. rewrite Hr, Hd.
      repeat split; try discriminate; eauto.
      intros [b Hb]. discriminate. }
  destruct H as [Hr Hd]. rewrite Hr, Hd.
  repeat split; try discriminate; eauto.
Qed.

(** Voter u1 has a ballot in the open vote v1; voter u9 has none. *)
Example castBallot_example :
  fst (VoteService.castBallot "b5" 150 "v1" "u1" "B" (world_of poll_db))
    = Throw AlreadyVoted
  /\ fst (VoteService.castBallot "b5" 150 "v1" "u9" "B" (world_of poll_db))
     = Ok (mkVoteBallot "b5" "v1" "B" "u9" 150)
  /\ fst (VoteService.castBallot "b5" 250 "v1" "u9" "B" (world_of poll_db))
     = Throw (CustomError "Votación no está activa" 400).
Proof. vm_compute. repeat split; reflexivity. Qed.

(** ** VoteService.getVoteResults *)

Section SortDesc.

Context {A : Type} (key : A -> Z).

Lemma insert_desc_perm (x : A) (l : list A) :
  Permutation (insert_desc key x l) (x :: l).
Proof.
  induction l as [|y l IH]; cbn; [reflexivity|].
  destruct (key y <=? key x)%Z; [reflexivity|].
  rewrite IH. apply perm_swap.
Qed.

Lemma sort_desc_perm (l : list A) : Permutation (sort_desc key l) l.
Proof.
  induction l as [|x l IH]; cbn; [reflexivity|].
  rewrite insert_desc_perm. constructor. exact IH.
Qed.

End SortDesc.

Lemma fold_left_sum {A} (f : A -> nat) (l : list A) (acc : nat) :
  fold_left (fun sum x => (sum + f x)%nat) l acc
  = (acc + list_sum (map f l))%nat.
Proof.
  revert acc. induction l as [|x l IH]; intros acc.
  - cbn. symmetry. apply Nat.add_0_r.
  - cbn [fold_left map list_sum fold_right]. rewrite IH.
    unfold list_sum. symmetry. apply Nat.add_assoc.
Qed.

Lemma options_with_count_perm d voteId :
  Permutation (VoteService.options_with_count d voteId)
    (map (fun o => (o, ballots_of_option d (option_id o)))
         (vote_options d voteId)).
Proof. apply sort_desc_perm. Qed.

Lemma options_with_count_total d voteId :
  fold_left (fun sum row => (sum + snd row)%nat) (VoteService.options_with_count d voteId)
            0%nat
  = total_ballots d voteId.
Proof.
  rewrite (fold_left_sum (@snd VoteOption nat)). cbn [Nat.add].
  unfold total_ballots.
  rewrite (Permutation_map snd (options_with_count_perm d voteId)).
  rewrite map_map. reflexivity.
Qed.

(** The rows of an [orderBy] with direction desc come with their keys in
    decreasing order. *)
Lemma insert_desc_sorted {A} (key : A -> Z) (x : A) (l : list A) :
  StronglySorted (fun a b => (key b <= key a)%Z) l ->
  StronglySorted (fun a b => (key b <= key a)%Z) (insert_desc key x l).
Proof.
  induction l as [|y l IH]; intros Hs; cbn [insert_desc].
  - constructor; constructor.
  - inversion Hs as [|a l' Hl Hy]; subst.
    destruct (key y <=? key x)%Z eqn:E.
    + apply Z.leb_le in E. constructor; [exact Hs|].
      constructor; [exact E|].
      apply Forall_forall. intros z Hz.
      rewrite Forall_forall in Hy. specialize (Hy z Hz). lia.
    + apply Z.leb_gt in E. constructor; [apply IH, Hl|].
      apply Forall_forall. intros z Hz.
      apply (Permutation_in _ (insert_desc_perm key x l)) in Hz.
      destruct Hz as [Hz|Hz]; [subst z; lia|].
      rewrite Forall_forall in Hy. apply Hy, Hz.
Qed.

Lemma sort_desc_sorted {A} (key : A -> Z) (l : list A) :
  StronglySorted (fun a b => (key b <= key a)%Z) (sort_desc key l).
Proof.
  induction l as [|x l IH]; cbn; [constructor|].
  apply insert_desc_sorted, IH.
Qed.

Lemma StronglySorted_map {A B} (f : A -> B) (R : B -> B -> Prop)
  (l : list A) :
  StronglySorted (fun a b => R (f a) (f b)) l -> StronglySorted R (map f l).
Proof.
  induction 1 as [|x l Hl IH Hx]; cbn; constructor; [exact IH|].
  apply Forall_forall. intros y Hy. apply in_map_iff in Hy.
  destruct Hy as [z [<- Hz]]. rewrite Forall_forall in Hx. apply Hx, Hz.
Qed.

Lemma StronglySorted_weaken {A} (R R' : A -> A -> Prop) (l : list A) :
  (forall a b, R a b -> R' a b) ->
  StronglySorted R l -> StronglySorted R' l.
Proof.
  intros H. induction 1 as [|x l Hl IH Hx]; constructor; [exact IH|].
  apply Forall_forall. intros y Hy. rewrite Forall_forall in Hx.
  apply H, Hx, Hy.
Qed.

(** C5. For a vote that exists, [getVoteResults] only reads the store. It
    returns one result for each option of the vote, the options with more
    ballots first; a result carries the id and the label of its option,
    the number of ballots of the table that name the option, and the
    percentage, the number that ([votes] / [totalVotes]) * 100 is in
    JavaScript: the quotient of the two counts rounded to the nearest
    double, times 100, rounded again. totalVotes, returned with the vote,
    is the sum of the ballots over the options of the vote; when it is 0
    every percentage is 0 and nothing is divided. *)
Theorem getVoteResults_tally voteId w v :
  find_vote (db w) voteId = Some v ->
  let cast := fun o : VoteOption =>
    List.length
      (filter (fun b => (ballot_optionId b =? option_id o)%string)
              (voteBallots (db w))) in
  let options :=
    filter (fun o => (option_voteId o =? voteId)%string)
           (voteOptions (db w)) in
  let total := list_sum (map cast options) in
  exists r,
    VoteService.getVoteResults voteId w = (Ok r, w)
    /\ VoteService.results_vote r
       = VoteService.mkVoteSummary (vote_id v) (vote_title v)
           (vote_description v) (vote_startAt v) (vote_endAt v) total
    /\ Permutation (VoteService.results r)
         (map (fun o =>
                 VoteService.mkOptionResult (option_id o) (option_label o)
                   (cast o)
                   (if (total =? 0)%nat then Finite 0%Q
                    else Double.mul
                           (Double.div (Double.of_nat (cast o))
                                       (Double.of_nat total))
                           (Finite 100%Q)))
              options)
    /\ StronglySorted
         (fun x y =>
            (VoteService.result_votes y <= VoteService.result_votes x)%nat)
         (VoteService.results r)
    /\ (total = 0%nat ->
        forall x, In x (VoteService.results r) ->
          VoteService.result_percentage x = Finite 0%Q).
Proof.
  intros Hv cast options total. unfold find_vote in Hv.
  unfold VoteService.getVoteResults, VoteService.getVoteById.
  run_m. rewrite Hv. cbn [fst snd db].
  eexists. split; [reflexivity|].
  cbn [VoteService.results_vote VoteService.summary_totalVotes
       VoteService.results].
  rewrite options_with_count_total.
  change (total_ballots (db w) voteId) with total.
  assert (Hperm :
    Permutation
      (map (fun row : VoteOption * nat =>
              VoteService.mkOptionResult (option_id (fst row))
                (option_label (fst row)) (snd row)
                (VoteService.percentage_of total (snd row)))
           (VoteService.options_with_count (db w) voteId))
      (map (fun o =>
              VoteService.mkOptionResult (option_id o) (option_label o)
                (cast o)
                (if (total =? 0)%nat then Finite 0%Q
                 else Double.mul
                        (Double.div (Double.of_nat (cast o))
                                    (Double.of_nat total))
                        (Finite 100%Q)))
           options)).
  { rewrite (Permutation_map _ (options_with_count_perm (db w) voteId)).
    rewrite map_map. cbn [fst snd]. unfold vote_options.
    fold options. unfold VoteService.percentage_of.
    destruct total; reflexivity. }
  split; [reflexivity|]. split; [exact Hperm|]. split.
  - apply StronglySorted_map. cbn [VoteService.result_votes].
    unfold VoteService.options_with_count.
    pose proof (sort_desc_sorted (fun row : VoteOption * nat =>
                                    Z.of_nat (snd row))
                  (map (fun o => (o, ballots_of_option (db w) (option_id o)))
                       (filter (fun o => (option_voteId o =? voteId)%string)
                               (voteOptions (db w))))) as Hs.
    revert Hs. apply StronglySorted_weaken. intros a b Hab.
    cbn [VoteService.result_votes]. lia.
  - intros Hz x Hin. apply (Permutation_in _ Hperm) in Hin.
    apply in_map_iff in Hin. destruct Hin as [o [<- _]].
    rewrite Hz. reflexivity.
Qed.

(** Three votes. In [poll_db] option A has three ballots and option B one:
    75 and 25 percent of 4 votes. In [club_db] option A has two ballots and
    option B one: the percentages are the doubles that print as
    66.66666666666666 and 33.33333333333333, of 3 votes. Without ballots
    both percentages are 0. *)
Lemma getVoteResults_tally_witness :
  (exists r,
     VoteService.getVoteResults "v1" (world_of poll_db)
     = (Ok r, world_of poll_db)
     /\ VoteService.results_vote r
        = VoteService.mkVoteSummary "v1" "Logo" None 100 200 4
     /\ Permutation (VoteService.results r)
          [VoteService.mkOptionResult "A" "Blue" 3 (Finite 75%Q);
           VoteService.mkOptionResult "B" "Red" 1 (Finite 25%Q)])
  /\ (exists r,
        VoteService.getVoteResults "v1" (world_of club_db)
        = (Ok r, world_of club_db)
        /\ VoteService.results_vote r
           = VoteService.mkVoteSummary "v1" "Logo" None 100 200 3
        /\ Permutation (VoteService.results r)
             [VoteService.mkOptionResult "A" "Blue" 2
                (Finite (2345624805922133 # 35184372088832));
              VoteService.mkOptionResult "B" "Red" 1
                (Finite (2345624805922133 # 70368744177664))])
  /\ (exists r,
        VoteService.getVoteResults "v1"
          (world_of (with_voteBallots poll_db []))
        = (Ok r, world_of (with_voteBallots poll_db []))
        /\ VoteService.results_vote r
           = VoteService.mkVoteSummary "v1" "Logo" None 100 200 0
        /\ forall x, In x (VoteService.results r) ->
             VoteService.result_percentage x = Finite 0%Q).
Proof.
  split; [|split].
  - destruct (getVoteResults_tally "v1" (world_of poll_db)
                (mkVote "v1" "Logo" None 100 200 true) eq_refl)
      as (r & Hr & Hv & Hp & _).
    exists r. vm_compute in Hv, Hp. repeat split; assumption.
  - destruct (getVoteResults_tally "v1" (world_of club_db)
                (mkVote "v1" "Logo" None 100 200 true) eq_refl)
      as (r & Hr & Hv & Hp & _).
    exists r. vm_compute in Hv, Hp. repeat split; assumption.
  - destruct (getVoteResults_tally "v1"
                (world_of (with_voteBallots poll_db []))
                (mkVote "v1" "Logo" None 100 200 true) eq_refl)
      as (r & Hr & Hv & _ & _ & Hz).
    exists r. vm_compute in Hv. repeat split; try assumption.
    apply Hz. reflexivity.
Defined.

(** The tally of [poll_db] as the call returns it, the option with more
    ballots first. *)
Example getVoteResults_example :
  match fst (VoteService.getVoteResults "v1" (world_of poll_db)) with
  | Ok r =>
      VoteService.summary_totalVotes (VoteService.results_vote r) = 4%nat
      /\ map (fun x => (VoteService.result_id x, VoteService.result_votes x,
                        VoteService.result_percentage x))
             (VoteService.results r)
         = [("A", 3%nat, Finite 75%Q); ("B", 1%nat, Finite 25%Q)]
  | Throw _ => False
  end.
Proof. vm_compute. split; reflexivity. Qed.

(** ** PerkService.claimPerk *)

Lemma existsb_false_forall {A} (p : A -> bool) (l : list A) :
  existsb p l = false -> forall x, In x l -> p x = false.
Proof.
  intros H x Hin. destruct (p x) eqn:E; [|reflexivity].
  assert (Ht : existsb p l = true) by (apply existsb_exists; eauto).
  rewrite H in Ht. discriminate.
Qed.

(** *** The text of a code *)

Lemma append_nil_r (s : string) : s ++ "" = s.
Proof. induction s as [|c s IH]; cbn; [|rewrite IH]; reflexivity. Qed.

Lemma append_assoc (a b c : string) : (a ++ b) ++ c = a ++ (b ++ c).
Proof. induction a as [|x a IH]; cbn; [|rewrite IH]; reflexivity. Qed.

Lemma digit_char_alnum (d : Z) :
  (0 <= d < 36)%Z -> lower_alnum (digit_char d) = true.
Proof.
  intros Hd. unfold lower_alnum, digit_char.
  apply existsb_exists. exists (nth (Z.to_nat d) digit_chars "0"%char).
  split; [|apply Ascii.eqb_refl].
  apply nth_In. change (List.length digit_chars) with 36%nat. lia.
Qed.

Lemma digit_value_char (d : Z) :
  (0 <= d < 36)%Z -> digit_value (digit_char d) = d.
Proof.
  intros Hd.
  assert (H : exists n, (n < 36)%nat /\ d = Z.of_nat n)
    by (exists (Z.to_nat d); lia).
  destruct H as (n & Hn & ->).
  do 36 (destruct n as [|n]; [reflexivity|]). lia.
Qed.

Lemma value_of_digits_app radix (s t : string) (acc : Z) :
  value_of_digits radix (s ++ t) acc
  = value_of_digits radix t (value_of_digits radix s acc).
Proof.
  revert acc. induction s as [|c s IH]; intros acc; cbn; [reflexivity|].
  apply IH.
Qed.

Lemma alnum_string_app (s t : string) :
  alnum_string (s ++ t) = alnum_string s && alnum_string t.
Proof.
  induction s as [|c s IH]; cbn; [reflexivity|].
  rewrite IH, andb_assoc. reflexivity.
Qed.

(** [radix_digits] puts before [acc] the digits of [n], which read back
    as [n]. *)
Lemma radix_digits_value (fuel : nat) (n : Z) (acc : string) :
  (0 <= n < 2 ^ Z.of_nat fuel)%Z ->
  exists p,
    radix_digits fuel 36 n acc = p ++ acc
    /\ value_of_digits 36 p 0 = n
    /\ alnum_string p = true.
Proof.
  revert n acc. induction fuel as [|fuel IH]; intros n acc Hn.
  - exists "". cbn in *. repeat split. lia.
  - cbn [radix_digits].
    assert (Hd : (0 <= n mod 36 < 36)%Z) by (apply Z.mod_pos_bound; lia).
    destruct (n / 36 =? 0)%Z eqn:Hq.
    + apply Z.eqb_eq in Hq.
      exists (String (digit_char (n mod 36)) "").
      cbn [value_of_digits alnum_string append].
      rewrite digit_value_char by exact Hd.
      rewrite digit_char_alnum by exact Hd.
      repeat split.
      pose proof (Z.div_mod n 36). lia.
    + apply Z.eqb_neq in Hq.
      destruct (IH (n / 36)%Z (String (digit_char (n mod 36)) acc))
        as (p & Hp & Hv & Ha).
      { rewrite Nat2Z.inj_succ, Z.pow_succ_r in Hn by lia.
        split; [apply Z.div_pos; lia|].
        apply Z.div_lt_upper_bound; lia. }
      exists (p ++ String (digit_char (n mod 36)) "").
      rewrite Hp. split.
      * rewrite append_assoc. reflexivity.
      * rewrite value_of_digits_app, Hv, alnum_string_app, Ha.
        cbn [value_of_digits alnum_string andb].
        rewrite digit_value_char by exact Hd.
        rewrite digit_char_alnum by exact Hd.
        split; [|reflexivity].
        pose proof (Z.div_mod n 36). lia.
Qed.

Lemma toString36_value (n : Z) :
  (0 <= n)%Z ->
  value_of_digits 36 (toString36 n) 0 = n
  /\ alnum_string (toString36 n) = true.
Proof.
  intros Hn. unfold toString36.
  destruct (n <? 0)%Z eqn:Hneg; [apply Z.ltb_lt in Hneg; lia|].
  destruct (radix_digits_value (S (Z.to_nat (Z.log2 n))) n "")
    as (p & Hp & Hv & Ha).
  - split; [exact Hn|].
    rewrite Nat2Z.inj_succ, Z2Nat.id by apply Z.log2_nonneg.
    destruct (Z.eq_dec n 0) as [->|Hne]; [reflexivity|].
    apply Z.log2_spec. lia.
  - rewrite Hp, append_nil_r. split; assumption.
Qed.

Lemma hex_of_byte_inj (b1 b2 : Byte.byte) :
  hex_of_byte b1 = hex_of_byte b2 -> b1 = b2.
Proof.
  unfold hex_of_byte. intros H. injection H as H1 H2.
  pose proof (Byte.to_N_bounded b1) as Hb1.
  pose proof (Byte.to_N_bounded b2) as Hb2.
  set (n1 := Z.of_N (Byte.to_N b1)) in *.
  set (n2 := Z.of_N (Byte.to_N b2)) in *.
  assert (Hn1 : (0 <= n1 < 256)%Z) by (subst n1; lia).
  assert (Hn2 : (0 <= n2 < 256)%Z) by (subst n2; lia).
  apply (f_equal digit_value) in H1, H2.
  assert (Hq1 : (0 <= n1 / 16 < 16)%Z)
    by (split; [apply Z.div_pos; lia|apply Z.div_lt_upper_bound; lia]).
  assert (Hq2 : (0 <= n2 / 16 < 16)%Z)
    by (split; [apply Z.div_pos; lia|apply Z.div_lt_upper_bound; lia]).
  pose proof (Z.mod_pos_bound n1 16) as Hm1.
  pose proof (Z.mod_pos_bound n2 16) as Hm2.
  rewrite !digit_value_char in H1, H2 by lia.
  assert (Hn : n1 = n2).
  { rewrite (Z.div_mod n1 16), (Z.div_mod n2 16) by lia. congruence. }
  subst n1 n2. apply N2Z.inj in Hn.
  pose proof (Byte.of_to_N b1) as E1. pose proof (Byte.of_to_N b2) as E2.
  rewrite Hn in E1. congruence.
Qed.

Lemma toHex_cons (b : Byte.byte) (r : list Byte.byte) :
  toHex (b :: r) = hex_of_byte b ++ toHex r.
Proof.
  unfold toHex. cbn [map String.concat].
  destruct r as [|b' r]; cbn [map String.concat];
    [symmetry; apply append_nil_r|reflexivity].
Qed.

Lemma toHex_inj (r1 r2 : list Byte.byte) : toHex r1 = toHex r2 -> r1 = r2.
Proof.
  revert r2. induction r1 as [|b1 r1 IH]; intros [|b2 r2] H.
  - reflexivity.
  - rewrite toHex_cons in H. discriminate H.
  - rewrite toHex_cons in H. discriminate H.
  - rewrite !toHex_cons in H. unfold hex_of_byte in H. cbv zeta in H.
    cbn [append] in H. injection H as H1 H2 H3.
    f_equal; [|apply IH, H3].
    apply hex_of_byte_inj. unfold hex_of_byte. cbv zeta.
    rewrite H1, H2. reflexivity.
Qed.

Lemma toHex_alnum (r : list Byte.byte) : alnum_string (toHex r) = true.
Proof.
  induction r as [|b r IH]; [reflexivity|].
  rewrite toHex_cons, alnum_string_app, IH. unfold hex_of_byte.
  pose proof (Byte.to_N_bounded b) as Hb.
  set (n := Z.of_N (Byte.to_N b)) in *.
  assert (Hn : (0 <= n < 256)%Z) by (subst n; lia).
  pose proof (Z.mod_pos_bound n 16) as Hm.
  assert (Hq : (0 <= n / 16 < 16)%Z)
    by (split; [apply Z.div_pos; lia|apply Z.div_lt_upper_bound; lia]).
  cbn [alnum_string]. rewrite !digit_char_alnum by lia. reflexivity.
Qed.

Lemma lower_alnum_in (c : ascii) :
  lower_alnum c = true -> In c digit_chars.
Proof.
  unfold lower_alnum. intros H. apply existsb_exists in H.
  destruct H as [x [Hin Hx]]. apply Ascii.eqb_eq in Hx. subst x. exact Hin.
Qed.

(** Upper-casing keeps digits and lower-case letters apart, and turns none
    of them into an underscore. *)
Lemma upper_char_inj (c1 c2 : ascii) :
  lower_alnum c1 = true -> lower_alnum c2 = true ->
  upper_char c1 = upper_char c2 -> c1 = c2.
Proof.
  intros H1 H2 Hu. apply lower_alnum_in in H1, H2.
  assert (Hcheck :
    forallb (fun a =>
      forallb (fun b =>
        implb (Ascii.eqb (upper_char a) (upper_char b)) (Ascii.eqb a b))
        digit_chars) digit_chars = true) by (vm_compute; reflexivity).
  rewrite forallb_forall in Hcheck. specialize (Hcheck c1 H1).
  rewrite forallb_forall in Hcheck. specialize (Hcheck c2 H2).
  rewrite Hu, Ascii.eqb_refl in Hcheck. cbn [implb] in Hcheck.
  apply Ascii.eqb_eq, Hcheck.
Qed.

Lemma upper_char_not_underscore (c : ascii) :
  lower_alnum c = true -> upper_char c <> "_"%char.
Proof.
  intros H Hu. apply lower_alnum_in in H.
  assert (Hcheck :
    forallb (fun a => negb (Ascii.eqb (upper_char a) "_"%char)) digit_chars
    = true) by (vm_compute; reflexivity).
  rewrite forallb_forall in Hcheck. specialize (Hcheck c H).
  rewrite Hu in Hcheck. discriminate Hcheck.
Qed.

Lemma toUpperCase_app (s t : string) :
  toUpperCase (s ++ t) = toUpperCase s ++ toUpperCase t.
Proof.
  induction s as [|c s IH]; cbn; [reflexivity|]. rewrite IH. reflexivity.
Qed.

Lemma toUpperCase_inj (s1 s2 : string) :
  alnum_string s1 = true -> alnum_string s2 = true ->
  toUpperCase s1 = toUpperCase s2 -> s1 = s2.
Proof.
  revert s2. induction s1 as [|c1 s1 IH]; intros [|c2 s2] H1 H2 H;
    cbn [toUpperCase] in H; try discriminate H; [reflexivity|].
  cbn [alnum_string] in H1, H2.
  apply andb_prop in H1, H2. destruct H1 as [Hc1 H1], H2 as [Hc2 H2].
  injection H as Hc Hs.
  rewrite (upper_char_inj c1 c2 Hc1 Hc2 Hc), (IH s2 H1 H2 Hs). reflexivity.
Qed.

(** Two upper-cased strings of digits and letters, each followed by an
    underscore and a rest, are equal only part by part. *)
Lemma split_at_underscore (t1 t2 h1 h2 : string) :
  alnum_string t1 = true -> alnum_string t2 = true ->
  toUpperCase t1 ++ String "_" h1 = toUpperCase t2 ++ String "_" h2 ->
  toUpperCase t1 = toUpperCase t2 /\ h1 = h2.
Proof.
  revert t2. induction t1 as [|c1 t1 IH]; intros [|c2 t2] H1 H2 H;
    cbn [toUpperCase append alnum_string] in *.
  - injection H as H. split; [reflexivity|exact H].
  - injection H as Hc _. apply andb_prop in H2. destruct H2 as [Hc2 _].
    exfalso. apply (upper_char_not_underscore c2 Hc2). symmetry. exact Hc.
  - injection H as Hc _. apply andb_prop in H1. destruct H1 as [Hc1 _].
    exfalso. apply (upper_char_not_underscore c1 Hc1). exact Hc.
  - apply andb_prop in H1, H2. destruct H1 as [_ H1], H2 as [_ H2].
    injection H as Hc Hs. destruct (IH t2 H1 H2 Hs) as [Ht Hh].
    rewrite Hc, Ht. split; [reflexivity|exact Hh].
Qed.

(** C6. When [claimPerk] succeeds, the perk is in the store and active, the
    user has a wallet address, the balance the chain reports for that
    address is at least the token cost of the perk, and the claim returned
    carries that cost and the generated code.  The claims table afterwards
    is the claims table before followed by that claim; every other table
    of the store, the ledger among them, is as it was, and no mint command
    is issued.  No claim that was in the table has the code of the new
    claim, and the code determines the millisecond and the random bytes it
    was generated from: a later call that draws another time or other bytes
    generates another code. *)
Theorem claimPerk_success bc newId now random perkId userId w claim w' :
  PerkService.claimPerk bc newId now random perkId userId w = (Ok claim, w') ->
  exists perk address balance,
    find_active_perk (db w) perkId = Some perk
    /\ perk_active perk = true
    /\ wallet_of (db w) userId = Some address
    /\ chain_balanceOf bc address = Some balance
    /\ (perk_tokenCost perk <= balance)%Q
    /\ claim = mkPerkClaim newId perkId userId (perk_tokenCost perk)
                 (PerkService.generateQRCode now random) now None
    /\ perkClaims (db w') = (perkClaims (db w) ++ [claim])%list
    /\ In claim (perkClaims (db w'))
    /\ List.length (perkClaims (db w'))
       = S (List.length (perkClaims (db w)))
    /\ schema (db w') = schema (db w)
    /\ users (db w') = users (db w)
    /\ orders (db w') = orders (db w)
    /\ payments (db w') = payments (db w)
    /\ mints (db w') = mints (db w)
    /\ perks (db w') = perks (db w)
    /\ votes (db w') = votes (db w)
    /\ voteOptions (db w') = voteOptions (db w)
    /\ voteBallots (db w') = voteBallots (db w)
    /\ ledger (db w') = ledger (db w)
    /\ mintCalls w' = mintCalls w
    /\ (forall c, In c (perkClaims (db w)) ->
          claim_qrCode c <> claim_qrCode claim)
    /\ (forall now' random',
          (0 <= now)%Z -> (0 <= now')%Z ->
          PerkService.generateQRCode now' random' = claim_qrCode claim ->
          now' = now /\ random' = random).
Proof.
  unfold PerkService.claimPerk, PerkService.getPerkById,
    TokenService.getTokenBalance, TokenService.ensure_sdk,
    TokenService.initialize, TokenService.getContract, perkClaim_create,
    qrCode_taken, user_findUnique, find_active_perk, wallet_of.
  run_m. intros H.
  destruct (find _ (perks (db w))) as [perk|] eqn:Hp;
    cbn [fst snd db mintCalls logs sdk] in H; [|discriminate].
  destruct (find _ (users (db w))) as [u|] eqn:Hu; [|discriminate].
  destruct (walletAddress u) as [address|] eqn:Ha; [|discriminate].
  assert (Hact : perk_active perk = true).
  { apply find_some in Hp. destruct Hp as [_ Hp].
    apply andb_prop in Hp. apply Hp. }
  assert (Hcode : forall now' random',
            (0 <= now)%Z -> (0 <= now')%Z ->
            PerkService.generateQRCode now' random'
            = PerkService.generateQRCode now random ->
            now' = now /\ random' = random).
  { intros now' random' Hn Hn' Hq. unfold PerkService.generateQRCode in Hq.
    rewrite !(toUpperCase_app "PERK_") in Hq.
    cbn [toUpperCase append] in Hq.
    injection Hq as Hq. rewrite !toUpperCase_app in Hq.
    cbn [toUpperCase append] in Hq.
    change (upper_char "_") with "_"%char in Hq.
    destruct (toString36_value now Hn) as [Hv Hal].
    destruct (toString36_value now' Hn') as [Hv' Hal'].
    destruct (split_at_underscore _ _ _ _ Hal' Hal Hq) as [Ht Hh].
    apply (toUpperCase_inj _ _ Hal' Hal) in Ht.
    apply (toUpperCase_inj _ _ (toHex_alnum random') (toHex_alnum random))
      in Hh.
    split; [|apply toHex_inj, Hh].
    rewrite <- Hv, <- Hv', Ht. reflexivity. }
  exists perk, address.
  repeat (break_match_hyp; cbn [fst snd db mintCalls logs sdk] in *;
          try discriminate; pair_inv);
    match goal with
    | Hb : chain_balanceOf bc address = Some ?b |- _ => exists b
    end;
    match goal with
    | Hx : existsb _ (perkClaims (db w)) = false |- _ =>
        pose proof (existsb_false_forall _ _ Hx) as Hfresh
    end;
    (repeat match goal with |- _ /\ _ => split end;
     try reflexivity; try assumption;
     [ cbn; apply in_or_app; right; left; reflexivity
     | cbn; rewrite length_app, Nat.add_comm; reflexivity
     | intros c0 Hin Heq; specialize (Hfresh c0 Hin); cbn in Hfresh, Heq;
       rewrite Heq, String.eqb_refl in Hfresh; discriminate ]).
Qed.

Lemma claimPerk_success_witness :
  exists perk address balance,
    find_active_perk (db (world_of perk_db)) "k2" = Some perk
    /\ perk_active perk = true
    /\ wallet_of (db (world_of perk_db)) "u1" = Some address
    /\ chain_balanceOf (chain_with_balance 55) address = Some balance
    /\ (perk_tokenCost perk <= balance)%Q
    /\ mkPerkClaim "c2" "k2" "u1" 40 "PERK_LOYW3V28_00FF1AB2034CD5EE"
         1700000000000 None
       = mkPerkClaim "c2" "k2" "u1" (perk_tokenCost perk)
           (PerkService.generateQRCode 1700000000000 sample_random)
           1700000000000 None
    /\ perkClaims (db (snd (PerkService.claimPerk (chain_with_balance 55) "c2"
                  1700000000000 sample_random "k2" "u1" (world_of perk_db))))
       = (perkClaims (db (world_of perk_db))
          ++ [mkPerkClaim "c2" "k2" "u1" 40
                "PERK_LOYW3V28_00FF1AB2034CD5EE" 1700000000000 None])%list
    /\ In (mkPerkClaim "c2" "k2" "u1" 40
             "PERK_LOYW3V28_00FF1AB2034CD5EE" 1700000000000 None)
          (perkClaims (db (snd (PerkService.claimPerk (chain_with_balance 55) "c2"
                  1700000000000 sample_random "k2" "u1" (world_of perk_db)))))
    /\ List.length (perkClaims (db (snd (PerkService.claimPerk (chain_with_balance 55) "c2"
                  1700000000000 sample_random "k2" "u1" (world_of perk_db)))))
       = S (List.length (perkClaims (db (world_of perk_db))))
    /\ schema (db (snd (PerkService.claimPerk (chain_with_balance 55) "c2"
                  1700000000000 sample_random "k2" "u1" (world_of perk_db)))) = schema (db (world_of perk_db))
    /\ users (db (snd (PerkService.claimPerk (chain_with_balance 55) "c2"
                  1700000000000 sample_random "k2" "u1" (world_of perk_db)))) = users (db (world_of perk_db))
    /\ orders (db (snd (PerkService.claimPerk (chain_with_balance 55) "c2"
                  1700000000000 sample_random "k2" "u1" (world_of perk_db)))) = orders (db (world_of perk_db))
    /\ payments (db (snd (PerkService.claimPerk (chain_with_balance 55) "c2"
                  1700000000000 sample_random "k2" "u1" (world_of perk_db)))) = payments (db (world_of perk_db))
    /\ mints (db (snd (PerkService.claimPerk (chain_with_balance 55) "c2"
                  1700000000000 sample_random "k2" "u1" (world_of perk_db)))) = mints (db (world_of perk_db))
    /\ perks (db (snd (PerkService.claimPerk (chain_with_balance 55) "c2"
                  1700000000000 sample_random "k2" "u1" (world_of perk_db)))) = perks (db (world_of perk_db))
    /\ votes (db (snd (PerkService.claimPerk (chain_with_balance 55) "c2"
                  1700000000000 sample_random "k2" "u1" (world_of perk_db)))) = votes (db (world_of perk_db))
    /\ voteOptions (db (snd (PerkService.claimPerk (chain_with_balance 55) "c2"
                  1700000000000 sample_random "k2" "u1" (world_of perk_db)))) = voteOptions (db (world_of perk_db))
    /\ voteBallots (db (snd (PerkService.claimPerk (chain_with_balance 55) "c2"
                  1700000000000 sample_random "k2" "u1" (world_of perk_db)))) = voteBallots (db (world_of perk_db))
    /\ ledger (db (snd (PerkService.claimPerk (chain_with_balance 55) "c2"
                  1700000000000 sample_random "k2" "u1" (world_of perk_db)))) = ledger (db (world_of perk_db))
    /\ mintCalls (snd (PerkService.claimPerk (chain_with_balance 55) "c2"
                  1700000000000 sample_random "k2" "u1" (world_of perk_db))) = mintCalls (world_of perk_db)
    /\ (forall c, In c (perkClaims (db (world_of perk_db))) ->
          claim_qrCode c
          <> claim_qrCode (mkPerkClaim "c2" "k2" "u1" 40
                             "PERK_LOYW3V28_00FF1AB2034CD5EE"
                             1700000000000 None))
    /\ (forall now' random',
          (0 <= 1700000000000)%Z -> (0 <= now')%Z ->
          PerkService.generateQRCode now' random'
          = claim_qrCode (mkPerkClaim "c2" "k2" "u1" 40
                            "PERK_LOYW3V28_00FF1AB2034CD5EE"
                            1700000000000 None) ->
          now' = 1700000000000%Z /\ random' = sample_random).
Proof.
  apply (claimPerk_success (chain_with_balance 55) "c2" 1700000000000
           sample_random "k2" "u1" (world_of perk_db)).
  vm_compute. reflexivity.
Defined.

(** The claims table of the sample store after that call: the claim that
    was there, then the new one. *)
Example claimPerk_persists :
  map (fun c => (claim_id c, claim_perkId c, claim_userId c,
                 claim_qrCode c))
      (perkClaims (db (snd (PerkService.claimPerk (chain_with_balance 55) "c2"
                  1700000000000 sample_random "k2" "u1" (world_of perk_db)))))
  = [ ("c1", "k1", "u1", "PERK_X_00");
      ("c2", "k2", "u1", "PERK_LOYW3V28_00FF1AB2034CD5EE") ].
Proof. vm_compute. reflexivity. Qed.

(** A balance below the cost, and a perk that is not active. *)
Example claimPerk_refused :
  fst (PerkService.claimPerk (chain_with_balance 39) "c2" 1700000000000
         sample_random "k2" "u1" (world_of perk_db))
  = Throw (CustomError "Saldo insuficiente para reclamar este perk" 400)
  /\ fst (PerkService.claimPerk (chain_with_balance 55) "c2" 1700000000000
            sample_random "k9" "u1" (world_of perk_db))
     = Throw (CustomError "Perk no encontrado" 404).
Proof. vm_compute. split; reflexivity. Qed.

Example generateQRCode_example :
  PerkService.generateQRCode 1700000000000 sample_random
  = "PERK_LOYW3V28_00FF1AB2034CD5EE".
Proof. vm_compute. reflexivity. Qed.

(** ** Removing a vote option, removing a perk *)

Lemma update_first_keys {A B} (where_ : A -> bool) (data : A -> A)
  (key : A -> B) (l : list A) :
  (forall x, key (data x) = key x) ->
  map key (update_first where_ data l) = map key l.
Proof.
  intros Hk. induction l as [|x l IH]; cbn; [reflexivity|].
  destruct (where_ x); cbn; [rewrite Hk | rewrite IH]; reflexivity.
Qed.

Lemma update_first_in {A} (where_ : A -> bool) (data : A -> A) (l : list A) x :
  find where_ l = Some x -> In (data x) (update_first where_ data l).
Proof.
  induction l as [|y l IH]; cbn; [discriminate|].
  destruct (where_ y); intros H.
  - inversion H; subst. left. reflexivity.
  - right. apply IH, H.
Qed.

(** C8, as the code has it, in two statements that hold apart from each
    other.  [removeVoteOption] rejects the removal of every option that at
    least one ballot refers to: it throws the 400 error and the store is as
    it was, so no option and no ballot is deleted.  [deletePerk] rejects
    nothing: for every perk of the store, with or without claims, it
    succeeds, every perk row and every claim remains, and the active flag
    of the perk is cleared. *)
Theorem removal_guarded_for_options_soft_for_perks :
  (forall optionId w,
     (exists b, In b (voteBallots (db w)) /\ ballot_optionId b = optionId) ->
     let ro := VoteService.removeVoteOption optionId w in
     fst ro = Throw OptionHasVotes
     /\ db (snd ro) = db w
     /\ voteOptions (db (snd ro)) = voteOptions (db w)
     /\ voteBallots (db (snd ro)) = voteBallots (db w))
  /\ (forall perkId w p,
        find (fun p' => (perk_id p' =? perkId)%string) (perks (db w))
        = Some p ->
        let dp := PerkService.deletePerk perkId w in
        fst dp = Ok tt
        /\ perkClaims (db (snd dp)) = perkClaims (db w)
        /\ map perk_id (perks (db (snd dp))) = map perk_id (perks (db w))
        /\ perks (db (snd dp))
           = update_first (fun p' => (perk_id p' =? perkId)%string)
                          (set_perk_active false) (perks (db w))
        /\ In (set_perk_active false p) (perks (db (snd dp)))).
Proof.
  split.
  - intros optionId w [b [Hin Hb]] ro. subst ro.
    assert (Hc : (0 <? ballots_of_option (db w) optionId)%nat = true).
    { apply Nat.ltb_lt. unfold ballots_of_option.
      assert (Hf : In b (filter (fun b' => (ballot_optionId b' =? optionId)%string)
                                (voteBallots (db w)))).
      { apply filter_In. split; [exact Hin|]. rewrite Hb.
        apply String.eqb_refl. }
      destruct (filter _ (voteBallots (db w))); [destruct Hf | cbn; lia]. }
    unfold VoteService.removeVoteOption, voteOption_delete.
    run_m. rewrite Hc. cbn [fst snd db]. repeat split.
  - intros perkId w p Hp dp. subst dp.
    unfold PerkService.deletePerk, perk_update.
    run_m. rewrite Hp.
    cbn [fst snd db perks perkClaims with_perks].
    repeat split.
    + apply update_first_keys. reflexivity.
    + apply update_first_in, Hp.
Qed.

Lemma removal_guarded_for_options_soft_for_perks_witness :
  (let ro := VoteService.removeVoteOption "B" (world_of poll_db) in
   fst ro = Throw OptionHasVotes
   /\ db (snd ro) = poll_db
   /\ voteOptions (db (snd ro))
      = [mkVoteOption "A" "v1" "Blue"; mkVoteOption "B" "v1" "Red"]
   /\ voteBallots (db (snd ro)) = voteBallots poll_db)
  /\ (let dp := PerkService.deletePerk "k1" (world_of perk_db) in
      fst dp = Ok tt
      /\ perkClaims (db (snd dp)) = [claim_c1]
      /\ map perk_id (perks (db (snd dp))) = ["k1"; "k2"]
      /\ perks (db (snd dp))
         = [mkPerk "k1" "Coffee" 10 false; mkPerk "k2" "Shirt" 40 true]
      /\ In (mkPerk "k1" "Coffee" 10 false) (perks (db (snd dp)))).
Proof.
  split.
  - apply (proj1 removal_guarded_for_options_soft_for_perks "B"
             (world_of poll_db)).
    exists (mkVoteBallot "b3" "v1" "B" "u3" 130).
    split; [|reflexivity]. right. right. left. reflexivity.
  - apply (proj2 removal_guarded_for_options_soft_for_perks "k1"
             (world_of perk_db) (mkPerk "k1" "Coffee" 10 true)).
    reflexivity.
Defined.

(** An option without ballots is deleted. *)
Lemma removeVoteOption_unvoted optionId w :
  ballots_of_option (db w) optionId = 0%nat ->
  existsb (fun o => (option_id o =? optionId)%string) (voteOptions (db w))
    = true ->
  fst (VoteService.removeVoteOption optionId w) = Ok tt
  /\ voteOptions (db (snd (VoteService.removeVoteOption optionId w)))
     = filter (fun o => negb (option_id o =? optionId)%string)
              (voteOptions (db w)).
Proof.
  intros Hb He.
  unfold VoteService.removeVoteOption, voteOption_delete.
  run_m. rewrite Hb. cbn [Nat.ltb Nat.leb fst snd db]. rewrite He.
  split; reflexivity.
Qed.

(** C8 does not hold of the code for perks: perk k1 has the claim c1, and
    [deletePerk] succeeds on it. *)
Lemma deletePerk_not_refused : ~ delete_refused "k1" (world_of perk_db).
Proof.
  intros H. destruct H as [e [He _]].
  - exists claim_c1. split; [left|]; reflexivity.
  - vm_compute in He. discriminate He.
Qed.

(** ** LedgerService.exportLedgerCSV *)

(** *** Strings *)

Lemma plain_app (a b : string) : plain (a ++ b) = plain a && plain b.
Proof.
  induction a as [|c a IH]; cbn; [reflexivity|].
  rewrite IH. apply andb_assoc.
Qed.

Lemma plain_char_inv (c : ascii) :
  plain_char c = true ->
  Ascii.eqb c dquote = false /\ Ascii.eqb c comma = false
  /\ Ascii.eqb c LF = false /\ Ascii.eqb c CR = false.
Proof.
  unfold plain_char. intros H.
  destruct (Ascii.eqb c dquote), (Ascii.eqb c comma), (Ascii.eqb c LF),
    (Ascii.eqb c CR); try discriminate.
  repeat split.
Qed.

(** *** Digits and timestamps hold no separator *)

Lemma digit_char_plain (d : Z) : plain_char (digit_char d) = true.
Proof.
  unfold digit_char.
  destruct (nth_in_or_default (Z.to_nat d) digit_chars "0"%char) as [Hin|Hd].
  - revert Hin. generalize (nth (Z.to_nat d) digit_chars "0"%char).
    assert (Hall : forallb plain_char digit_chars = true)
      by (vm_compute; reflexivity).
    intros c Hin. exact (proj1 (forallb_forall _ _) Hall c Hin).
  - rewrite Hd. reflexivity.
Qed.

Lemma fixed_digits_plain (width : nat) (n : Z) (acc : string) :
  plain acc = true -> plain (fixed_digits width n acc) = true.
Proof.
  revert n acc. induction width as [|width IH]; intros n acc H;
    cbn [fixed_digits].
  - exact H.
  - apply IH. cbn [plain]. rewrite digit_char_plain, H. reflexivity.
Qed.

Lemma pad_plain (width : nat) (n : Z) : plain (pad width n) = true.
Proof. apply fixed_digits_plain. reflexivity. Qed.

Lemma radix_digits_plain (fuel : nat) (radix n : Z) (acc : string) :
  plain acc = true -> plain (radix_digits fuel radix n acc) = true.
Proof.
  revert n acc. induction fuel as [|fuel IH]; intros n acc H;
    cbn [radix_digits].
  - exact H.
  - destruct (n / radix =? 0)%Z.
    + cbn [plain]. rewrite digit_char_plain, H. reflexivity.
    + apply IH. cbn [plain]. rewrite digit_char_plain, H. reflexivity.
Qed.

Lemma integerToString_plain (q : Q) : plain (integerToString q) = true.
Proof.
  unfold integerToString.
  destruct (Qnum q / Z.pos (Qden q) <? 0)%Z.
  - rewrite plain_app, radix_digits_plain; reflexivity.
  - apply radix_digits_plain. reflexivity.
Qed.

Lemma toISOString_plain (t : Z) : plain (toISOString t) = true.
Proof.
  unfold toISOString.
  destruct (civil_from_days (t / 86400000)) as [[y m] d].
  assert (Hy : plain (iso_year y) = true).
  { unfold iso_year.
    destruct ((0 <=? y)%Z && (y <=? 9999)%Z); [apply pad_plain|].
    destruct (y <? 0)%Z; rewrite plain_app, pad_plain; reflexivity. }
  repeat (rewrite plain_app; rewrite ?pad_plain, ?Hy; cbn [andb]).
  reflexivity.
Qed.

Lemma direction_string_plain (d : Direction) :
  plain (direction_string d) = true.
Proof. destruct d; reflexivity. Qed.

Lemma currency_string_plain (c : Currency) :
  plain (currency_string c) = true.
Proof. destruct c; reflexivity. Qed.

(** *** The reader on what the export writes *)

(** An unquoted run of plain characters is taken into the field. *)
Lemma read_unquoted (s field rest : string) (row0 : list string)
  (rows0 : list (list string)) :
  plain s = true ->
  read_csv Unquoted field row0 rows0 (s ++ rest)
  = read_csv Unquoted (field ++ s) row0 rows0 rest.
Proof.
  revert field. induction s as [|c s IH]; intros field H; cbn [append].
  - rewrite append_nil_r. reflexivity.
  - cbn [plain] in H. apply andb_prop in H. destruct H as [Hc Hs].
    destruct (plain_char_inv c Hc) as [_ [H2 [H3 H4]]].
    cbn [read_csv]. rewrite H2, H3, H4. rewrite (IH _ Hs).
    unfold snoc. rewrite append_assoc. reflexivity.
Qed.

(** From the start of a field, a plain value and the comma after it. *)
Lemma read_plain_field (s rest : string) (row0 : list string)
  (rows0 : list (list string)) :
  plain s = true ->
  read_csv FieldStart "" row0 rows0 (s ++ String comma rest)
  = read_csv FieldStart "" (row0 ++ [s])%list rows0 rest.
Proof.
  intros H. destruct s as [|c s]; [reflexivity|].
  cbn [plain] in H. apply andb_prop in H. destruct H as [Hc Hs].
  destruct (plain_char_inv c Hc) as [H1 [H2 [H3 H4]]].
  cbn [append read_csv]. rewrite H1, H2, H3, H4.
  rewrite (read_unquoted _ _ _ _ _ Hs). reflexivity.
Qed.

(** The last value of a record and the line feed after it. *)
Lemma read_last_field (s rest : string) (row0 : list string)
  (rows0 : list (list string)) :
  plain s = true ->
  read_csv FieldStart "" row0 rows0 (s ++ String LF rest)
  = read_csv FieldStart "" [] (rows0 ++ [row0 ++ [s]])%list rest.
Proof.
  intros H. destruct s as [|c s]; [reflexivity|].
  cbn [plain] in H. apply andb_prop in H. destruct H as [Hc Hs].
  destruct (plain_char_inv c Hc) as [H1 [H2 [H3 H4]]].
  cbn [append read_csv]. rewrite H1, H2, H3, H4.
  rewrite (read_unquoted _ _ _ _ _ Hs). reflexivity.
Qed.

(** The last value of the last record, at the end of the text. *)
Lemma read_final_field (s : string) (x : string) (row0 : list string)
  (rows0 : list (list string)) :
  plain s = true ->
  read_csv FieldStart "" (x :: row0) rows0 s
  = (rows0 ++ [(x :: row0) ++ [s]])%list.
Proof.
  intros H. destruct s as [|c s]; [reflexivity|].
  cbn [plain] in H. apply andb_prop in H. destruct H as [Hc Hs].
  destruct (plain_char_inv c Hc) as [H1 [H2 [H3 H4]]].
  cbn [read_csv]. rewrite H1, H2, H3, H4.
  rewrite <- (append_nil_r s) at 1.
  rewrite (read_unquoted _ _ _ _ _ Hs). reflexivity.
Qed.

(** Inside quotes, the doubled text up to the closing quote and the comma
    after it gives the text back. *)
Lemma read_quoted (s field rest : string) (row0 : list string)
  (rows0 : list (list string)) :
  read_csv Quoted field row0 rows0
           (double_quotes s ++ String dquote (String comma rest))
  = read_csv FieldStart "" (row0 ++ [field ++ s]%string)%list rows0 rest.
Proof.
  revert field. induction s as [|c s IH]; intros field.
  - cbn. rewrite append_nil_r. reflexivity.
  - cbn [double_quotes]. destruct (Ascii.eqb c dquote) eqn:E.
    + apply Ascii.eqb_eq in E. subst c.
      cbn [append read_csv]. cbn [Ascii.eqb dquote Bool.eqb andb].
      rewrite IH. unfold snoc. rewrite append_assoc. reflexivity.
    + cbn [append read_csv]. rewrite E.
      rewrite IH. unfold snoc. rewrite append_assoc. reflexivity.
Qed.

(** The metadata column, empty or quoted, and the comma after it. *)
Lemma read_metadata (entry : Ledger) (rest : string)
  (row0 : list string) (rows0 : list (list string)) :
  read_csv FieldStart "" row0 rows0
           (LedgerService.csv_metadata entry ++ String comma rest)
  = read_csv FieldStart "" (row0 ++ [metadata_value entry])%list rows0 rest.
Proof.
  unfold LedgerService.csv_metadata, metadata_value.
  destruct (ledger_metadataJson entry) as [json|]; cbn [truthy];
    [|reflexivity].
  destruct (json =? "")%string eqn:E; cbn [negb].
  - apply String.eqb_eq in E. subst json. reflexivity.
  - cbn [append]. rewrite append_assoc. cbn [append read_csv].
    cbn [Ascii.eqb dquote Bool.eqb andb]. rewrite read_quoted. reflexivity.
Qed.

Section RoundTrip.

Variable numberToString : Q -> string.
Hypothesis numberToString_plain : forall q, plain (numberToString q) = true.

(** A row of the export up to its timestamp. *)
Lemma read_row_prefix (entry : Ledger) (tail : string)
  (rows0 : list (list string)) :
  unquoted_plain entry = true ->
  read_csv FieldStart "" [] rows0
           (LedgerService.csv_row numberToString entry ++ tail)
  = read_csv FieldStart ""
      [ledger_id entry; ledger_kind entry; ledger_refId entry;
       direction_string (ledger_direction entry);
       numberToString (ledger_amount entry);
       currency_string (ledger_currency entry);
       metadata_value entry]
      rows0 (toISOString (ledger_createdAt entry) ++ tail).
Proof.
  unfold unquoted_plain. intros H.
  apply andb_prop in H. destruct H as [H H3].
  apply andb_prop in H. destruct H as [H1 H2].
  unfold LedgerService.csv_row.
  repeat (rewrite append_assoc; cbn [append]). fold comma.
  rewrite (read_plain_field _ _ _ _ H1), (read_plain_field _ _ _ _ H2),
    (read_plain_field _ _ _ _ H3),
    (read_plain_field _ _ _ _ (direction_string_plain _)),
    (read_plain_field _ _ _ _ (numberToString_plain _)),
    (read_plain_field _ _ _ _ (currency_string_plain _)).
  rewrite read_metadata.
  reflexivity.
Qed.

Lemma read_row (entry : Ledger) (rest : string) (rows0 : list (list string)) :
  unquoted_plain entry = true ->
  read_csv FieldStart "" [] rows0
           (LedgerService.csv_row numberToString entry ++ String LF rest)
  = read_csv FieldStart "" []
             (rows0 ++ [entry_fields numberToString entry])%list rest.
Proof.
  intros H. rewrite (read_row_prefix _ _ _ H).
  rewrite (read_last_field _ _ _ _ (toISOString_plain _)). reflexivity.
Qed.

Lemma read_final_row (entry : Ledger) (rows0 : list (list string)) :
  unquoted_plain entry = true ->
  read_csv FieldStart "" [] rows0 (LedgerService.csv_row numberToString entry)
  = (rows0 ++ [entry_fields numberToString entry])%list.
Proof.
  intros H.
  rewrite <- (append_nil_r (LedgerService.csv_row numberToString entry)).
  rewrite (read_row_prefix _ _ _ H), append_nil_r.
  rewrite (read_final_field _ _ _ _ (toISOString_plain _)). reflexivity.
Qed.

(** The rows of the export, joined by line feeds. *)
Lemma read_rows (entries : list Ledger) (rows0 : list (list string)) :
  Forall (fun e => unquoted_plain e = true) entries ->
  read_csv FieldStart "" [] rows0
    (concat (String LF "")
            (map (LedgerService.csv_row numberToString) entries))
  = (rows0 ++ map (entry_fields numberToString) entries)%list.
Proof.
  revert rows0. induction entries as [|e entries IH]; intros rows0 H.
  - cbn. rewrite app_nil_r. reflexivity.
  - inversion H as [|e0 l0 He Hl]; subst.
    destruct entries as [|e2 entries].
    + cbn [map concat]. apply read_final_row, He.
    + change (concat (String LF "")
                (map (LedgerService.csv_row numberToString) (e :: e2 :: entries)))
        with (LedgerService.csv_row numberToString e
              ++ String LF
                   (concat (String LF "")
                      (map (LedgerService.csv_row numberToString)
                           (e2 :: entries)))).
      rewrite (read_row _ _ _ He), (IH _ Hl).
      rewrite <- app_assoc. reflexivity.
Qed.

Lemma read_header (rest : string) :
  parse_csv (LedgerService.csvHeaders ++ rest)
  = read_csv FieldStart "" [] [header_fields] rest.
Proof. reflexivity. Qed.

End RoundTrip.



(** The export of the payment and the mint reads back as three rows; the
    metadata of the payment, which holds commas and double quotes, comes
    back as it was. *)
Example exportLedgerCSV_example :
  match fst (LedgerService.exportLedgerCSV integerToString None
               (world_of (ledger_db [payment_entry; mint_entry]))) with
  | Ok csv =>
      parse_csv csv
      = [header_fields;
         ["l2"; "mint"; "o1"; "out"; "100"; "TOKEN"; "";
          "2023-11-14T22:14:20.000Z"];
         ["l1"; "payment"; "o1"; "in"; "50"; "EUR";
          metadata_value payment_entry; "2023-11-14T22:13:20.000Z"]]
  | Throw _ => False
  end.
Proof. vm_compute. reflexivity. Qed.


(** ** The claims table across any sequence of calls *)

Lemma stamped_kept_refl l : stamped_kept l l.
Proof. intros c t H _. exact H. Qed.

Lemma stamped_kept_step now l l' :
  Forall2 (claim_step now) l l' -> stamped_kept l l'.
Proof.
  intros H. induction H as [|x y l l' Hxy Hl IH]; intros c t Hin Ht.
  - destruct Hin.
  - destruct Hin as [Hc|Hin].
    + subst x. destruct Hxy as [Hy|[Hn _]].
      * left. exact Hy.
      * rewrite Hn in Ht. discriminate.
    + right. apply (IH c t Hin Ht).
Qed.

(** No call other than [claimPerk] and [redeemPerk] writes the claims
    table. *)
Lemma exec_perkClaims (c : Call) (w : World) :
  match c with
  | CallClaimPerk _ newId now random perkId userId =>
      perkClaims (db (exec c w)) = perkClaims (db w)
      \/ exists claim,
           perkClaims (db (exec c w)) = (perkClaims (db w) ++ [claim])%list
  | CallRedeemPerk now _ _ =>
      Forall2 (claim_step now) (perkClaims (db w)) (perkClaims (db (exec c w)))
  | _ => perkClaims (db (exec c w)) = perkClaims (db w)
  end.
Proof.
  destruct c; cbn [exec].
  - by_cases_of_the_code.
  - by_cases_of_the_code.
  - unfold_services; run_m;
      repeat (break_match_goal;
              cbn [fst snd db mintCalls logs sdk perkClaims with_perkClaims];
              try (left; reflexivity); try (right; eexists; reflexivity)).
  - apply redeemPerk_rows.
  - by_cases_of_the_code.
  - by_cases_of_the_code.
  - by_cases_of_the_code.
  - by_cases_of_the_code.
  - by_cases_of_the_code.
Qed.

(** Across any sequence of calls of the services, one after the other, a
    claim that is stamped stays in the table as it is: no call clears or
    changes a [redeemedAt] that is set. *)
Theorem redeemedAt_never_reverted (calls : list Call) (w : World) :
  stamped_kept (perkClaims (db w)) (perkClaims (db (exec_all calls w))).
Proof.
  revert w. induction calls as [|c calls IH]; intros w.
  - apply stamped_kept_refl.
  - cbn [exec_all fold_left]. fold (exec_all calls (exec c w)).
    intros x t Hin Ht. apply (IH (exec c w) x t); [|exact Ht].
    pose proof (exec_perkClaims c w) as H.
    destruct c; try (rewrite H; exact Hin).
    + destruct H as [H|[claim H]]; rewrite H; [exact Hin|].
      apply in_or_app. left. exact Hin.
    + apply (stamped_kept_step _ _ _ H x t Hin Ht).
Qed.

(** ** Across the operations of the services *)

(** No operation other than [claimPerk] and [redeemPerk] writes the claims
    table. *)
Lemma run_perkClaims (o : Op) (w : World) :
  match o with
  | OpCall _ => True
  | _ => perkClaims (db (run o w)) = perkClaims (db w)
  end.
Proof.
  destruct o; try exact I; by_paths_of_the_code.
Qed.

Lemma claim_step_find now (l l' : list PerkClaim) claimId c t :
  Forall2 (claim_step now) l l' ->
  find (fun x => (claim_id x =? claimId)%string) l = Some c ->
  claim_redeemedAt c = Some t ->
  find (fun x => (claim_id x =? claimId)%string) l' = Some c.
Proof.
  intros H. induction H as [|x y l l' Hxy Hl IH]; cbn [find]; [discriminate|].
  intros Hf Ht. destruct (claim_id x =? claimId)%string eqn:E.
  - inversion Hf; subst x. destruct Hxy as [Hy|[Hn _]].
    + subst y. rewrite E. reflexivity.
    + rewrite Hn in Ht. discriminate.
  - assert (Ey : (claim_id y =? claimId)%string = false).
    { destruct Hxy as [Hy|[_ Hy]]; subst y; [exact E|]. exact E. }
    rewrite Ey. apply IH; assumption.
Qed.

Lemma find_app_some {A} (p : A -> bool) (l l' : list A) x :
  find p l = Some x -> find p (l ++ l') = Some x.
Proof.
  induction l as [|y l IH]; cbn; [discriminate|].
  destruct (p y); [trivial | exact IH].
Qed.

Lemma run_find_stamped (o : Op) (w : World) claimId c t :
  find_claim (db w) claimId = Some c -> claim_redeemedAt c = Some t ->
  find_claim (db (run o w)) claimId = Some c.
Proof.
  unfold find_claim. intros Hf Ht.
  pose proof (run_perkClaims o w) as H.
  destruct o; try (rewrite H; exact Hf).
  clear H. cbn [run]. pose proof (exec_perkClaims c0 w) as H.
  destruct c0; try (rewrite H; exact Hf).
  - destruct H as [H|[claim H]]; rewrite H; [exact Hf|].
    apply find_app_some, Hf.
  - apply (claim_step_find _ _ _ _ _ _ H Hf Ht).
Qed.

(** X1. A claim that is redeemed stays redeemed: when the lookup of a claim
    id finds a claim with [redeemedAt] set, then after any sequence of
    operations of the services, one after the other (calls of the first
    part, transfers, webhook deliveries, reads, the closing of a vote, new
    options, ledger entries), the lookup finds the very same row, and
    [redeemPerk] for it fails with the error of a redeemed perk and writes
    nothing. *)
Theorem redeemed_claims_stay_redeemed (ops : list Op) (w : World)
  (claimId : string) (c : PerkClaim) (t : Z) :
  find_claim (db w) claimId = Some c -> claim_redeemedAt c = Some t ->
  find_claim (db (run_all ops w)) claimId = Some c
  /\ forall now staffUserId,
       fst (PerkService.redeemPerk now claimId staffUserId (run_all ops w))
       = Throw AlreadyRedeemed
       /\ db (snd (PerkService.redeemPerk now claimId staffUserId
                     (run_all ops w)))
          = db (run_all ops w).
Proof.
  intros Hf Ht.
  assert (Hkept : find_claim (db (run_all ops w)) claimId = Some c).
  { revert w Hf. induction ops as [|o ops IH]; intros w Hf; [exact Hf|].
    cbn [run_all fold_left]. fold (run_all ops (run o w)).
    apply IH. apply (run_find_stamped o w claimId c t Hf Ht). }
  split; [exact Hkept|].
  intros now staff.
  apply (redeemPerk_redeemed now claimId staff (run_all ops w) c t Hkept Ht).
Qed.

Lemma redeemed_claims_stay_redeemed_witness :
  find_claim (db (run_all sample_ops (world_of club_db))) "c0"
  = Some redeemed_c0
  /\ forall now staffUserId,
       fst (PerkService.redeemPerk now "c0" staffUserId
              (run_all sample_ops (world_of club_db)))
       = Throw AlreadyRedeemed
       /\ db (snd (PerkService.redeemPerk now "c0" staffUserId
                     (run_all sample_ops (world_of club_db))))
          = db (run_all sample_ops (world_of club_db)).
Proof.
  apply (redeemed_claims_stay_redeemed sample_ops (world_of club_db) "c0"
           redeemed_c0 450); reflexivity.
Defined.

(** An operation appends to the ledger what it writes on the empty store,
    whatever the store holds. *)
Lemma run_ledger (o : Op) (w : World) :
  ledger (db (run o w)) = (ledger (db w) ++ written o)%list.
Proof.
  unfold written.
  destruct o as [c| | | | | | | | | | | | | | | | | | | | | | | | | | | |];
    [destruct c|..];
    try (by_paths_of_the_code; symmetry; apply app_nil_r).
Qed.

(** X2. The ledger is written by [createLedgerEntry] and its four helpers
    ([logPayment], [logMint], [logPerkClaim], [logVote]) and by nothing
    else: across any sequence of operations the ledger is the one before
    followed by the entries of the writing operations in their order, one
    for each, whatever the store holds. Every other operation (the mint,
    the settlement of a checkout, the webhook, claims, redeems, ballots,
    transfers, every read) leaves the ledger as it is. *)
Theorem ledger_written_only_by_its_helpers (ops : list Op) (w : World) :
  ledger (db (run_all ops w)) = (ledger (db w) ++ flat_map written ops)%list
  /\ (forall o, writes_ledger o = false -> written o = [])
  /\ (forall o, writes_ledger o = true -> List.length (written o) = 1%nat)
  /\ (forallb (fun o => negb (writes_ledger o)) ops = true ->
      ledger (db (run_all ops w)) = ledger (db w)).
Proof.
  assert (Hno : forall o, writes_ledger o = false -> written o = []).
  { intros o Ho. unfold written.
    destruct o as [c| | | | | | | | | | | | | | | | | | | | | | | | | | | |];
      try discriminate Ho; [destruct c|..]; by_paths_of_the_code. }
  assert (Hall : forall ops w,
            ledger (db (run_all ops w))
            = (ledger (db w) ++ flat_map written ops)%list).
  { clear. induction ops as [|o ops IH]; intros w.
    - cbn. symmetry. apply app_nil_r.
    - cbn [run_all fold_left flat_map]. fold (run_all ops (run o w)).
      rewrite IH, run_ledger, <- app_assoc. reflexivity. }
  split; [apply Hall|]. split; [exact Hno|]. split.
  - intros o Ho. unfold written.
    destruct o; try discriminate Ho; by_paths_of_the_code.
  - intros Hops. rewrite Hall.
    replace (flat_map written ops) with (@nil Ledger);
      [apply app_nil_r|].
    clear Hall. induction ops as [|o ops IH]; [reflexivity|].
    cbn [forallb] in Hops. apply andb_prop in Hops. destruct Hops as [Ho Hr].
    cbn [flat_map]. rewrite (Hno o), <- (IH Hr); [reflexivity|].
    destruct (writes_ledger o); [discriminate|reflexivity].
Qed.

(** ** The ballots across the operations *)

Lemma run_poll_step (o : Op) (w : World) : poll_step (db w) (db (run o w)).
Proof.
  destruct o as [c| | | | | | | | | | | | | | | | | | | | | | | | | | | |];
    [destruct c|..];
    unfold_methods; run_m; simpl_store;
    repeat (break_match_goal; simpl_store);
    try (apply poll_same; reflexivity).
  - eapply poll_cast; simpl_store; try reflexivity;
      unfold has_ballot, option_of_vote; cbn [ballot_voteId ballot_userId
        ballot_optionId]; rewrite find_existsb;
      match goal with H : find _ _ = _ |- _ => rewrite H end; reflexivity.
  - eapply poll_remove; simpl_store; try reflexivity.
    match goal with H : (0 <? _)%nat = false |- _ =>
      apply Nat.ltb_ge in H; lia end.
  - eapply poll_add; simpl_store; reflexivity.
  - eapply poll_add; simpl_store; reflexivity.
Qed.

Lemma has_ballot_false_not_in d voteId userId :
  has_ballot d voteId userId = false ->
  ~ In (voteId, userId)
       (map (fun b => (ballot_voteId b, ballot_userId b)) (voteBallots d)).
Proof.
  unfold has_ballot. intros H Hin. apply in_map_iff in Hin.
  destruct Hin as [b [Hb Hin]]. inversion Hb; subst.
  pose proof (existsb_false_forall _ _ H b Hin) as Hf. cbn beta in Hf.
  rewrite !String.eqb_refl in Hf. discriminate.
Qed.

Lemma poll_step_unique d d' :
  poll_step d d' -> unique_voters d -> unique_voters d'.
Proof.
  unfold unique_voters.
  intros [Hb _|b Hb _ Hnew _|o Hb _|optionId Hb _ _] Hu; rewrite Hb;
    try exact Hu.
  rewrite map_app. cbn [map].
  apply NoDup_app_remove_l with (l := []). cbn [app].
  apply Permutation.Permutation_NoDup
    with (l := (ballot_voteId b, ballot_userId b)
               :: map (fun b0 => (ballot_voteId b0, ballot_userId b0))
                      (voteBallots d)).
  - apply Permutation.Permutation_cons_append.
  - constructor; [|exact Hu]. apply has_ballot_false_not_in, Hnew.
Qed.

Lemma option_of_vote_filter d d' optionId voteId oid :
  voteOptions d'
  = filter (fun o => negb (option_id o =? optionId)%string) (voteOptions d) ->
  oid <> optionId ->
  option_of_vote d voteId oid = true -> option_of_vote d' voteId oid = true.
Proof.
  unfold option_of_vote. intros Hd Hne H. rewrite Hd.
  apply existsb_exists in H. destruct H as [o [Hin Ho]].
  apply existsb_exists. exists o. split; [|exact Ho].
  apply filter_In. split; [exact Hin|].
  apply andb_prop in Ho. destruct Ho as [Ho _].
  apply String.eqb_eq in Ho. rewrite Ho.
  destruct (String.eqb_spec oid optionId); [contradiction|reflexivity].
Qed.

Lemma poll_step_refer d d' :
  poll_step d d' -> ballots_refer_to_options d -> ballots_refer_to_options d'.
Proof.
  unfold ballots_refer_to_options.
  intros [Hb Ho|b Hb Ho _ Hopt|o Hb Ho|optionId Hb Ho Hcount] Hr b0 Hin;
    rewrite Hb in Hin.
  - unfold option_of_vote. rewrite Ho. apply (Hr b0 Hin).
  - unfold option_of_vote. rewrite Ho.
    apply in_app_or in Hin. destruct Hin as [Hin|[Hin|[]]].
    + apply (Hr b0 Hin).
    + subst b0. exact Hopt.
  - pose proof (Hr b0 Hin) as H. unfold option_of_vote in *. rewrite Ho.
    rewrite existsb_app, H. reflexivity.
  - apply (option_of_vote_filter d d' optionId); [exact Ho| |apply (Hr b0 Hin)].
    intros Heq. unfold ballots_of_option in Hcount.
    assert (Hin' : In b0 (filter (fun b => (ballot_optionId b =? optionId)%string)
                                 (voteBallots d))).
    { apply filter_In. split; [exact Hin|]. rewrite Heq.
      apply String.eqb_refl. }
    destruct (filter _ (voteBallots d)); [destruct Hin'|discriminate].
Qed.

(** X3. One ballot for a vote and a user, across everything: when the
    ballots table holds at most one ballot for each pair of a vote and a
    user, it still does after any sequence of operations of the services,
    one after the other. The only operation that adds a ballot is
    [castBallot], and it adds none for a pair that has one. *)
Theorem one_ballot_per_voter_invariant (ops : list Op) (w : World) :
  unique_voters (db w) -> unique_voters (db (run_all ops w)).
Proof.
  revert w. induction ops as [|o ops IH]; intros w H; [exact H|].
  cbn [run_all fold_left]. fold (run_all ops (run o w)).
  apply IH. apply (poll_step_unique _ _ (run_poll_step o w) H).
Qed.

Lemma one_ballot_per_voter_invariant_witness :
  unique_voters (db (world_of club_db))
  /\ unique_voters (db (run_all sample_ops (world_of club_db))).
Proof.
  assert (H : unique_voters (db (world_of club_db))).
  { unfold unique_voters. cbn.
    repeat constructor; cbn; intuition discriminate. }
  split; [exact H|].
  apply (one_ballot_per_voter_invariant sample_ops (world_of club_db) H).
Defined.

(** X4. Every ballot names an option of its vote, across everything: when
    each ballot of the table names an option that exists and belongs to
    the ballot's vote, this still holds after any sequence of operations
    of the services. [castBallot] accepts only an option of the vote, and
    [removeVoteOption] deletes only an option no ballot names, so no
    operation leaves a ballot without its option. *)
Theorem ballots_keep_their_options (ops : list Op) (w : World) :
  ballots_refer_to_options (db w) ->
  ballots_refer_to_options (db (run_all ops w)).
Proof.
  revert w. induction ops as [|o ops IH]; intros w H; [exact H|].
  cbn [run_all fold_left]. fold (run_all ops (run o w)).
  apply IH. apply (poll_step_refer _ _ (run_poll_step o w) H).
Qed.

Lemma ballots_keep_their_options_witness :
  ballots_refer_to_options (db (world_of club_db))
  /\ ballots_refer_to_options (db (run_all sample_ops (world_of club_db))).
Proof.
  assert (H : ballots_refer_to_options (db (world_of club_db))).
  { intros b Hin. cbn in Hin.
    repeat (destruct Hin as [Hin|Hin]; [subst b; reflexivity|]).
    destruct Hin. }
  split; [exact H|].
  apply (ballots_keep_their_options sample_ops (world_of club_db) H).
Defined.

(** ** StripeService.handleWebhook *)

(** X5. What a webhook delivery does. A delivery that does not verify (no
    secret configured, or a signature [constructEvent] rejects) throws and
    leaves the store as it is. A verified event of type
    checkout.session.completed has the result and the store of
    [handleCheckoutCompleted] on its session; a verified event of any other
    type, payment_intent.succeeded and payment_intent.payment_failed
    included, returns and leaves the store as it is. No delivery issues a
    mint command or inserts a Mint row: the webhook settles the payment and
    never mints. *)
Theorem handleWebhook_dispatch (env : Stripe.Env)
  (newId payload signature : string) (w : World) :
  let out := Stripe.handleWebhook env newId payload signature w in
  mintCalls (snd out) = mintCalls w
  /\ mints (db (snd out)) = mints (db w)
  /\ match verified_event env payload signature with
     | None => (exists e, fst out = Throw e) /\ db (snd out) = db w
     | Some event =>
         if (Stripe.event_type event =? "checkout.session.completed")%string
         then
           let settled :=
             StripeService.handleCheckoutCompleted newId
               (Stripe.as_session (Stripe.event_object event)) w in
           fst out = fst settled /\ db (snd out) = db (snd settled)
         else fst out = Ok tt /\ db (snd out) = db w
     end.
Proof.
  intros out. subst out. unfold verified_event.
  unfold_methods. run_m. simpl_store.
  destruct (Stripe.webhookSecret env) as [secret|];
    [|simpl_store; repeat split; eauto].
  destruct (truthy (Some secret)); cbn [negb];
    [|simpl_store; repeat split; eauto].
  destruct (Stripe.constructEvent env payload signature secret) as [event|];
    [|simpl_store; repeat split; eauto].
  simpl_store.
  destruct (Stripe.event_type event =? "checkout.session.completed")%string.
  - repeat (break_match_goal; simpl_store); repeat split; reflexivity.
  - repeat (break_match_goal; simpl_store); repeat split; reflexivity.
Qed.

(** ** TokenService.transferTokens *)

(** X6. [transferTokens] never writes the store and issues no mint command.
    It returns exactly when both users have a wallet address, the SDK and
    the contract are available, the chain reports a balance of the
    sender's wallet that is at least the amount, and the chain accepts the
    transfer command; the hash returned is the one of that command, which
    names the recipient's wallet and the amount only. *)
Theorem transferTokens_returns_iff (bc : Chain)
  (erc20_transfer : string -> Q -> option string)
  (fromUserId toUserId : string) (amount : Q) (w : World) :
  let out :=
    Tokens.transferTokens bc erc20_transfer fromUserId toUserId amount w in
  db (snd out) = db w
  /\ mintCalls (snd out) = mintCalls w
  /\ forall r,
       fst out = Ok r
       <-> exists fromAddress toAddress balance,
             usable_wallet (db w) fromUserId = Some fromAddress
             /\ usable_wallet (db w) toUserId = Some toAddress
             /\ chain_ready bc w = true
             /\ chain_balanceOf bc fromAddress = Some balance
             /\ (amount <= balance)%Q
             /\ erc20_transfer toAddress amount
                = Some (TokenService.txHash r)
             /\ TokenService.success r = true.
Proof.
  intros out. subst out.
  unfold usable_wallet, wallet_of, chain_ready.
  unfold_methods. run_m. simpl_store.
  destruct (sdk w) eqn:Hsdk; simpl_store;
    [|destruct (chain_fromPrivateKey bc) eqn:Hkey; simpl_store].
  3: { repeat split; try reflexivity; try discriminate.
       intros (a & b & q & _ & _ & H & _). discriminate H. }
  all: destruct (find _ (users (db w))) as [fromUser|] eqn:Hfrom;
    simpl_store;
    [destruct (walletAddress fromUser) as [fromAddress|] eqn:Hfw|];
    simpl_store.
  all: destruct (find (fun u => (user_id u =? toUserId)%string)
                      (users (db w))) as [toUser|] eqn:Hto;
    simpl_store;
    [destruct (walletAddress toUser) as [toAddress|] eqn:Htw|];
    simpl_store.
  all: try (repeat split; try reflexivity; try discriminate;
            intros (a & b & q & H1 & H2 & _); discriminate).
  all: unfold truthy; destruct (fromAddress =? "")%string; cbn [negb orb];
    simpl_store;
    try (repeat split; try reflexivity; try discriminate;
         intros (a & b & q & H1 & H2 & _); discriminate).
  all: destruct (toAddress =? "")%string; cbn [negb orb]; simpl_store;
    try (repeat split; try reflexivity; try discriminate;
         intros (a & b & q & H1 & H2 & _); discriminate).
  all: rewrite ?Hsdk; simpl_store;
    destruct (chain_getContract bc); simpl_store;
    try (repeat split; try reflexivity; try discriminate;
         intros (a & b & q & _ & _ & H & _); discriminate).
  all: destruct (chain_balanceOf bc fromAddress) as [balance|] eqn:Hbal;
    simpl_store;
    try (repeat split; try reflexivity; try discriminate;
         intros (a & b & q & H1 & _ & _ & H4 & _);
         inversion H1; subst; rewrite Hbal in H4; discriminate).
  all: destruct (Qlt_le_dec balance amount) as [Hlt|Hle]; simpl_store;
    try (repeat split; try reflexivity; try discriminate;
         intros (a & b & q & H1 & _ & _ & H4 & H5 & _);
         inversion H1; subst; rewrite Hbal in H4; inversion H4; subst;
         exfalso; apply (Qlt_not_le _ _ Hlt H5)).
  all: destruct (erc20_transfer toAddress amount) as [tx|] eqn:Htx;
    simpl_store;
    try (repeat split; try reflexivity; try discriminate;
         intros (a & b & q & _ & H2 & _ & _ & _ & H6 & _);
         inversion H2; subst; rewrite Htx in H6; discriminate).
  all: repeat split; try reflexivity;
    [intros H; inversion H; subst; cbn;
     exists fromAddress, toAddress, balance; repeat split; assumption
    |intros (a & b & q & _ & H2 & _ & _ & _ & H6 & H7);
     inversion H2; subst; rewrite Htx in H6; inversion H6; subst;
     destruct r as [h s]; cbn in *; subst; reflexivity].
Qed.

(** ** VoteService.deleteVote and the options of a vote *)

(** X7. [deleteVote] closes a vote and deletes nothing. For a vote id the
    table does not hold it throws P2025 and writes nothing. Otherwise it
    returns; the vote row stays with [active] false, the other rows, the
    options and the ballots are as before; from then on [castBallot] for
    the vote is refused for every user, option and time and adds no ballot,
    while [getVoteResults] still returns the tally it returned before. *)
Theorem deleteVote_closes_the_vote (voteId : string) (w : World) :
  let out := Votes.deleteVote voteId w in
  match find_vote (db w) voteId with
  | None => fst out = Throw (PrismaError "P2025") /\ db (snd out) = db w
  | Some v =>
      fst out = Ok tt
      /\ find_vote (db (snd out)) voteId = Some (set_vote_active false v)
      /\ map vote_id (votes (db (snd out))) = map vote_id (votes (db w))
      /\ voteOptions (db (snd out)) = voteOptions (db w)
      /\ voteBallots (db (snd out)) = voteBallots (db w)
      /\ (forall newId now userId optionId,
            let cast :=
              VoteService.castBallot newId now voteId userId optionId
                (snd out) in
            fst cast
            = Throw (CustomError
                       (if (now <? vote_startAt v)%Z || (vote_endAt v <? now)%Z
                        then "Votación no está activa"
                        else "Votación inactiva") 400)
            /\ db (snd cast) = db (snd out))
      /\ fst (VoteService.getVoteResults voteId (snd out))
         = fst (VoteService.getVoteResults voteId w)
  end.
Proof.
  intros out. subst out. unfold find_vote.
  destruct (find (fun v => (vote_id v =? voteId)%string) (votes (db w)))
    as [v|] eqn:Hv.
  - assert (Hout : Votes.deleteVote voteId w
                   = (Ok tt,
                      mkWorld
                        (with_votes (db w)
                           (update_first
                              (fun v' => (vote_id v' =? voteId)%string)
                              (set_vote_active false) (votes (db w))))
                        (mintCalls w)
                        (logs w ++ [mkLog LInfo "Vote deactivated"
                                      [("voteId", JStr voteId)]])
                        (sdk w))).
    { unfold_methods. run_m. rewrite Hv. reflexivity. }
    rewrite Hout. simpl_store.
    assert (Hfind : find (fun v0 => (vote_id v0 =? voteId)%string)
                      (update_first (fun v' => (vote_id v' =? voteId)%string)
                         (set_vote_active false) (votes (db w)))
                    = Some (set_vote_active false v)).
    { apply find_update_first; [exact Hv|]. cbn [set_vote_active vote_id].
      apply find_some in Hv. apply Hv. }
    split; [reflexivity|]. split; [exact Hfind|].
    split; [apply update_first_keys; reflexivity|].
    split; [reflexivity|]. split; [reflexivity|]. split.
    + intros newId now userId optionId.
      match goal with |- context [VoteService.castBallot _ _ _ _ _ ?w'] =>
        pose proof (castBallot_cases newId now voteId userId optionId w') as H
      end.
      cbv zeta in H. unfold find_vote in H. simpl_store.
      rewrite Hfind in H. cbn [set_vote_active vote_startAt vote_endAt
        vote_active negb] in H.
      destruct ((now <? vote_startAt v)%Z || (vote_endAt v <? now)%Z);
        exact H.
    + unfold VoteService.getVoteResults, VoteService.getVoteById. run_m.
      simpl_store. rewrite Hfind, Hv. simpl_store.
      reflexivity.
  - unfold_methods. run_m. rewrite Hv. split; reflexivity.
Qed.

Lemma filter_all {A} (p : A -> bool) (l : list A) :
  (forall x, In x l -> p x = true) -> filter p l = l.
Proof.
  induction l as [|x l IH]; intros H; cbn; [reflexivity|].
  rewrite (H x (or_introl eq_refl)), IH; [reflexivity|].
  intros y Hy. apply H. right. exact Hy.
Qed.

(** X8. An option can be added to any vote that exists, and taken back.
    [addVoteOption] looks at nothing but the existence of the vote: it
    succeeds also for a vote that is closed or whose ballots are being
    cast, and the new option is an option of the vote [castBallot] accepts.
    For an id that no option and no ballot names, [removeVoteOption] of the
    new option then succeeds and the store is exactly the one before the
    option was added. *)
Theorem addVoteOption_then_removeVoteOption (newId voteId label : string)
  (w : World) :
  existsb (fun v => (vote_id v =? voteId)%string) (votes (db w)) = true ->
  existsb (fun o => (option_id o =? newId)%string) (voteOptions (db w))
  = false ->
  ballots_of_option (db w) newId = 0%nat ->
  let added := Votes.addVoteOption newId voteId label w in
  let removed := VoteService.removeVoteOption newId (snd added) in
  fst added = Ok (mkVoteOption newId voteId label)
  /\ voteOptions (db (snd added))
     = (voteOptions (db w) ++ [mkVoteOption newId voteId label])%list
  /\ option_of_vote (db (snd added)) voteId newId = true
  /\ fst removed = Ok tt
  /\ db (snd removed) = db w.
Proof.
  intros Hvote Hfresh Hcount added removed.
  assert (Hadded : added
                   = (Ok (mkVoteOption newId voteId label),
                      mkWorld
                        (with_voteOptions (db w)
                           (voteOptions (db w)
                            ++ [mkVoteOption newId voteId label]))
                        (mintCalls w)
                        (logs w ++ [mkLog LInfo "Vote option added"
                                      [("optionId", JStr newId);
                                       ("voteId", JStr voteId);
                                       ("label", JStr label)]])
                        (sdk w))).
  { subst added. unfold_methods. run_m. rewrite Hvote. reflexivity. }
  subst removed. rewrite Hadded. simpl_store.
  split; [reflexivity|]. split; [reflexivity|]. split.
  { unfold option_of_vote. simpl_store. rewrite existsb_app. cbn.
    rewrite !String.eqb_refl. apply orb_true_r. }
  assert (Hfilter : filter (fun o => negb (option_id o =? newId)%string)
                      (voteOptions (db w)
                       ++ [mkVoteOption newId voteId label])
                    = voteOptions (db w)).
  { rewrite filter_app. cbn [filter option_id]. rewrite String.eqb_refl.
    cbn [negb]. rewrite app_nil_r. apply filter_all.
    intros o Ho. rewrite (existsb_false_forall _ _ Hfresh o Ho).
    reflexivity. }
  unfold VoteService.removeVoteOption, voteOption_delete.
  run_m. simpl_store.
  change (ballots_of_option
            (with_voteOptions (db w)
               (voteOptions (db w) ++ [mkVoteOption newId voteId label]))
            newId)
    with (ballots_of_option (db w) newId).
  rewrite Hcount. cbn [Nat.ltb Nat.leb]. simpl_store.
  rewrite existsb_app. cbn [existsb option_id]. rewrite String.eqb_refl.
  rewrite orb_true_r. simpl_store. rewrite Hfilter.
  split; [reflexivity|]. destruct (db w). reflexivity.
Qed.

Lemma addVoteOption_then_removeVoteOption_witness :
  let added := Votes.addVoteOption "C" "v1" "Green" (world_of club_db) in
  let removed := VoteService.removeVoteOption "C" (snd added) in
  fst added = Ok (mkVoteOption "C" "v1" "Green")
  /\ voteOptions (db (snd added))
     = (voteOptions (db (world_of club_db))
        ++ [mkVoteOption "C" "v1" "Green"])%list
  /\ option_of_vote (db (snd added)) "v1" "C" = true
  /\ fst removed = Ok tt
  /\ db (snd removed) = db (world_of club_db).
Proof.
  apply (addVoteOption_then_removeVoteOption "C" "v1" "Green"
           (world_of club_db)); reflexivity.
Defined.

(** ** A ballot in the tally *)

Lemma list_sum_add {A} (f g : A -> nat) (l : list A) :
  list_sum (map (fun x => (f x + g x)%nat) l)
  = (list_sum (map f l) + list_sum (map g l))%nat.
Proof.
  induction l as [|x l IH]; cbn [map list_sum fold_right]; [reflexivity|].
  fold (list_sum (map (fun x => (f x + g x)%nat) l)).
  fold (list_sum (map f l)). fold (list_sum (map g l)).
  rewrite IH. lia.
Qed.

Lemma list_sum_zero {A} (g : A -> nat) (l : list A) :
  (forall x, In x l -> g x = 0%nat) -> list_sum (map g l) = 0%nat.
Proof.
  induction l as [|x l IH]; intros H; cbn [map list_sum fold_right];
    [reflexivity|].
  fold (list_sum (map g l)).
  rewrite (H x (or_introl eq_refl)), IH; [reflexivity|].
  intros y Hy. apply H. right. exact Hy.
Qed.

(** Among options with distinct ids, exactly one option of the vote has the
    id of an option of the vote. *)
Lemma one_option_of_id (os : list VoteOption) voteId optionId :
  NoDup (map option_id os) ->
  existsb (fun o => (option_id o =? optionId)%string
                    && (option_voteId o =? voteId)%string) os = true ->
  list_sum (map (fun o => if (optionId =? option_id o)%string
                          then 1%nat else 0%nat)
                (filter (fun o => (option_voteId o =? voteId)%string) os))
  = 1%nat.
Proof.
  induction os as [|o os IH]; cbn [map existsb filter]; [discriminate|].
  intros Hnd He. inversion Hnd as [|x l Hnotin Hnd']; subst.
  destruct ((option_id o =? optionId)%string
            && (option_voteId o =? voteId)%string) eqn:Ho.
  - apply andb_prop in Ho. destruct Ho as [Hid Hv]. rewrite Hv.
    cbn [map list_sum fold_right]. rewrite String.eqb_sym, Hid.
    fold (list_sum
            (map (fun o0 => if (optionId =? option_id o0)%string
                            then 1%nat else 0%nat)
                 (filter (fun o0 => (option_voteId o0 =? voteId)%string) os))).
    rewrite list_sum_zero; [reflexivity|].
    intros y Hy. apply filter_In in Hy. destruct Hy as [Hy _].
    destruct (String.eqb_spec optionId (option_id y)) as [Heq|]; [|reflexivity].
    exfalso. apply Hnotin. apply String.eqb_eq in Hid. rewrite Hid, Heq.
    apply in_map, Hy.
  - cbn [orb] in He. specialize (IH Hnd' He).
    destruct (option_voteId o =? voteId)%string eqn:Hv; [|exact IH].
    rewrite andb_true_r in Ho. cbn [map list_sum fold_right].
    rewrite String.eqb_sym, Ho. exact IH.
Qed.

(** X9. A ballot that is cast counts once. When [castBallot] returns, and
    the options of the table have distinct ids, then afterwards the ballot
    count of the chosen option is one more and that of every other option
    is as before, the voter has a ballot in the vote, and the totalVotes
    that [getVoteResults] returns for the vote is one more than the one it
    returned before. *)
Theorem castBallot_counts_once (newId : string) (now : Z)
  (voteId userId optionId : string) (w : World) (ballot : VoteBallot) :
  NoDup (map option_id (voteOptions (db w))) ->
  fst (VoteService.castBallot newId now voteId userId optionId w)
  = Ok ballot ->
  let w' := snd (VoteService.castBallot newId now voteId userId optionId w) in
  (forall o,
     ballots_of_option (db w') o
     = (ballots_of_option (db w) o
        + if (optionId =? o)%string then 1 else 0)%nat)
  /\ has_ballot (db w') voteId userId = true
  /\ exists r r',
       fst (VoteService.getVoteResults voteId w) = Ok r
       /\ fst (VoteService.getVoteResults voteId w') = Ok r'
       /\ VoteService.summary_totalVotes (VoteService.results_vote r')
          = S (VoteService.summary_totalVotes (VoteService.results_vote r)).
Proof.
  intros Hnd Hok w'.
  pose proof (castBallot_cases newId now voteId userId optionId w) as H.
  cbv zeta in H. fold w' in H.
  destruct (find_vote (db w) voteId) as [v|] eqn:Hv;
    [|destruct H as [H _]; rewrite H in Hok; discriminate].
  destruct ((now <? vote_startAt v)%Z || (vote_endAt v <? now)%Z);
    [destruct H as [H _]; rewrite H in Hok; discriminate|].
  destruct (negb (vote_active v));
    [destruct H as [H _]; rewrite H in Hok; discriminate|].
  destruct (has_ballot (db w) voteId userId);
    [destruct H as [H _]; rewrite H in Hok; discriminate|].
  destruct (option_of_vote (db w) voteId optionId) eqn:Hopt; cbn [negb] in H;
    [|destruct H as [H _]; rewrite H in Hok; discriminate].
  destruct H as [_ Hdb].
  assert (Hcount : forall o,
            ballots_of_option (db w') o
            = (ballots_of_option (db w) o
               + if (optionId =? o)%string then 1 else 0)%nat).
  { intros o. rewrite Hdb. unfold ballots_of_option. simpl_store.
    rewrite filter_app, length_app. cbn [filter ballot_optionId].
    destruct (optionId =? o)%string; reflexivity. }
  split; [exact Hcount|]. split.
  { rewrite Hdb. unfold has_ballot. simpl_store. rewrite existsb_app.
    cbn [existsb ballot_voteId ballot_userId]. rewrite !String.eqb_refl.
    apply orb_true_r. }
  assert (Hv' : find_vote (db w') voteId = Some v).
  { rewrite Hdb. exact Hv. }
  unfold VoteService.getVoteResults, VoteService.getVoteById. run_m.
  unfold find_vote in Hv, Hv'. rewrite Hv, Hv'. simpl_store.
  eexists. eexists. split; [reflexivity|]. split; [reflexivity|].
  cbn [VoteService.results_vote VoteService.summary_totalVotes].
  rewrite !options_with_count_total. unfold total_ballots.
  assert (Hopts : vote_options (db w') voteId = vote_options (db w) voteId).
  { rewrite Hdb. reflexivity. }
  rewrite Hopts.
  rewrite (map_ext _ (fun o => (ballots_of_option (db w) (option_id o)
                                + if (optionId =? option_id o)%string
                                  then 1 else 0)%nat)
             (fun o => Hcount (option_id o))).
  rewrite (list_sum_add (fun o => ballots_of_option (db w) (option_id o))).
  unfold vote_options. rewrite (one_option_of_id _ _ _ Hnd Hopt). lia.
Qed.

Lemma castBallot_counts_once_witness :
  let w' := snd (VoteService.castBallot "b4" 150 "v1" "u4" "B"
                   (world_of club_db)) in
  (forall o,
     ballots_of_option (db w') o
     = (ballots_of_option (db (world_of club_db)) o
        + if ("B" =? o)%string then 1 else 0)%nat)
  /\ has_ballot (db w') "v1" "u4" = true
  /\ exists r r',
       fst (VoteService.getVoteResults "v1" (world_of club_db)) = Ok r
       /\ fst (VoteService.getVoteResults "v1" w') = Ok r'
       /\ VoteService.summary_totalVotes (VoteService.results_vote r')
          = S (VoteService.summary_totalVotes (VoteService.results_vote r)).
Proof.
  apply (castBallot_counts_once "b4" 150 "v1" "u4" "B" (world_of club_db)
           (mkVoteBallot "b4" "v1" "B" "u4" 150)).
  - cbn. repeat constructor; cbn; intuition discriminate.
  - reflexivity.
Defined.

(** ** TokenService.mintTokens: what a return and a throw tell *)

(** X10. What the outcome of [mintTokens] tells. A call that returns has
    resolved a target address, has issued exactly one mint command, for
    that address and the amount, which the chain accepted; the hash it
    returns is the hash of that command, the order exists, and exactly one
    Mint row, with that hash, was appended. A call that throws appends no
    Mint row, also when its command was accepted on the chain. A call whose
    target address does not resolve throws without issuing any command. *)
Theorem mintTokens_outcome (bc : Chain) (newId : string) (now : Z)
  (orderId userId : string) (amount : Q) (recipient : option string)
  (w : World) :
  let out :=
    TokenService.mintTokens bc newId now orderId userId amount recipient w in
  (forall r,
     fst out = Ok r ->
     exists addr,
       target_address w userId recipient = Some addr
       /\ chain_mintTo bc addr amount = Some (TokenService.txHash r)
       /\ TokenService.success r = true
       /\ has_order (db w) orderId = true
       /\ mintCalls (snd out)
          = (mintCalls w
             ++ [mkMintCall addr amount (Some (TokenService.txHash r))])%list
       /\ mints (db (snd out))
          = (mints (db w)
             ++ [mkMint newId orderId userId amount (TokenService.txHash r)
                        137 now])%list)
  /\ (forall e, fst out = Throw e -> mints (db (snd out)) = mints (db w))
  /\ (target_address w userId recipient = None ->
      mintCalls (snd out) = mintCalls w /\ exists e, fst out = Throw e).
Proof.
  intros out. subst out. unfold target_address, has_order.
  unfold_methods. run_m. simpl_store.
  destruct (sdk w) eqn:Hsdk; [|destruct (chain_fromPrivateKey bc)];
    simpl_store.
  3: { split; [discriminate|]. split; [reflexivity|].
       intros _. split; [reflexivity|eexists; reflexivity]. }
  all: destruct (find (fun u => (user_id u =? userId)%string) (users (db w)))
    as [u|]; [destruct (walletAddress u) as [a|]|];
    (destruct recipient as [x|]; unfold truthy;
     [destruct (x =? "")%string|]); try destruct (a =? "")%string;
    cbn [negb andb orb];
    repeat (break_match_goal; simpl_store; cbn [negb andb orb]);
    (split; [intros r Hr; try discriminate Hr; inversion Hr; subst;
             cbn [TokenService.txHash TokenService.success];
             eexists; repeat split; try reflexivity;
             try assumption; try (apply negb_false_iff; assumption)
            |split; [intros e He; try discriminate He; reflexivity
                    |intros Hn;
                     first [discriminate Hn
                           |split; [reflexivity|eexists; reflexivity]]]]).
Qed.

(** ** StripeService.handleCheckoutCompleted: when it returns *)

(** X11. [handleCheckoutCompleted] returns exactly when the four metadata
    keys are present, an order has the id of the metadata, and the store
    accepts the Payment row. A session with incomplete metadata throws
    before anything is written, and so does one whose order does not exist
    (P2025). The handler never reads the status of the order, the user or
    the amount of the metadata, and writes neither a Mint row nor a mint
    command. *)
Theorem handleCheckoutCompleted_returns_iff (newId : string)
  (session : StripeService.Session) (w : World) :
  let out := StripeService.handleCheckoutCompleted newId session w in
  let orderId :=
    match StripeService.meta_orderId session with
    | Some x => x
    | None => ""
    end in
  (fst out = Ok tt
   <-> complete_metadata session = true
       /\ has_order (db w) orderId = true
       /\ paymentOrderIdUnique (schema (db w)) && has_payment (db w) orderId
          = false)
  /\ (complete_metadata session = false ->
      out = (Throw (PlainError "Metadata incompleta en la sesión de Stripe"),
             w))
  /\ (complete_metadata session = true -> has_order (db w) orderId = false ->
      out = (Throw (PrismaError "P2025"), w))
  /\ mints (db (snd out)) = mints (db w)
  /\ mintCalls (snd out) = mintCalls w.
Proof.
  intros out orderId. subst out orderId.
  unfold complete_metadata, has_order, has_payment.
  unfold_methods. run_m. simpl_store.
  destruct (truthy (StripeService.meta_orderId session));
    destruct (truthy (StripeService.meta_userId session));
    destruct (truthy (StripeService.meta_productId session));
    destruct (truthy (StripeService.meta_tokenAmount session));
    cbn [negb orb andb]; simpl_store;
    try (repeat split; try reflexivity; try discriminate;
         intros (H & _); discriminate H).
  destruct (existsb _ (orders (db w))) eqn:Ho; simpl_store.
  - rewrite update_first_existsb, Ho by reflexivity. cbn [negb].
    destruct (paymentOrderIdUnique (schema (db w)) && _) eqn:Hp;
      simpl_store; repeat split; try reflexivity; try discriminate.
    intros (_ & _ & H). discriminate H.
  - repeat split; try reflexivity; try discriminate.
    intros (_ & H & _). discriminate H.
Qed.

(** ** PerkService: claiming, redeeming, deactivating *)

(** The conditions under which [claimPerk] returns, and what it then
    leaves. *)
Lemma claimPerk_returns bc newId now random perkId userId w perk address
  balance :
  find_active_perk (db w) perkId = Some perk ->
  usable_wallet (db w) userId = Some address ->
  chain_ready bc w = true ->
  chain_balanceOf bc address = Some balance ->
  (perk_tokenCost perk <= balance)%Q ->
  qrCode_taken (db w) (PerkService.generateQRCode now random) = false ->
  let out := PerkService.claimPerk bc newId now random perkId userId w in
  let claim :=
    mkPerkClaim newId perkId userId (perk_tokenCost perk)
                (PerkService.generateQRCode now random) now None in
  fst out = Ok claim
  /\ db (snd out) = with_perkClaims (db w) (perkClaims (db w) ++ [claim])
  /\ mintCalls (snd out) = mintCalls w
  /\ chain_ready bc (snd out) = true.
Proof.
  intros Hp Hw Hr Hb Hle Hq out claim. subst out claim.
  unfold find_active_perk, usable_wallet, wallet_of, chain_ready in *.
  unfold_methods. run_m. simpl_store. rewrite Hp. simpl_store.
  destruct (find _ (users (db w))) as [u|]; [|discriminate].
  destruct (walletAddress u) as [a|]; [|discriminate].
  unfold truthy. destruct (a =? "")%string; [discriminate|].
  inversion Hw; subst a. cbn [negb]. simpl_store.
  apply andb_prop in Hr. destruct Hr as [Hs Hc].
  destruct (sdk w) eqn:Hsdk; simpl_store.
  - rewrite Hc. simpl_store. rewrite Hb. simpl_store.
    destruct (Qlt_le_dec balance (perk_tokenCost perk)) as [Hlt|_];
      [exfalso; apply (Qlt_not_le _ _ Hlt Hle)|].
    simpl_store. rewrite Hq. simpl_store.
    repeat split; try reflexivity; rewrite ?Hsdk, ?Hc; reflexivity.
  - cbn [orb] in Hs. rewrite Hs. simpl_store.
    rewrite Hc. simpl_store. rewrite Hb. simpl_store.
    destruct (Qlt_le_dec balance (perk_tokenCost perk)) as [Hlt|_];
      [exfalso; apply (Qlt_not_le _ _ Hlt Hle)|].
    simpl_store. rewrite Hq. simpl_store.
    repeat split; try reflexivity; rewrite ?Hsdk, ?Hc; reflexivity.
Qed.

(** What a return of [claimPerk] tells. *)
Lemma claimPerk_returned bc newId now random perkId userId w claim :
  fst (PerkService.claimPerk bc newId now random perkId userId w) = Ok claim ->
  exists perk address balance,
    find_active_perk (db w) perkId = Some perk
    /\ usable_wallet (db w) userId = Some address
    /\ chain_ready bc w = true
    /\ chain_balanceOf bc address = Some balance
    /\ (perk_tokenCost perk <= balance)%Q
    /\ qrCode_taken (db w) (PerkService.generateQRCode now random) = false.
Proof.
  unfold find_active_perk, usable_wallet, wallet_of, chain_ready.
  unfold_methods. run_m. simpl_store.
  destruct (find _ (perks (db w))) as [perk|] eqn:Hp; simpl_store;
    [|discriminate].
  destruct (find _ (users (db w))) as [u|]; simpl_store; [|discriminate].
  destruct (walletAddress u) as [a|]; simpl_store; [|discriminate].
  unfold truthy. destruct (a =? "")%string; cbn [negb]; simpl_store;
    [discriminate|].
  destruct (sdk w); [|destruct (chain_fromPrivateKey bc)]; simpl_store;
    try discriminate;
    (destruct (chain_getContract bc); simpl_store; [|discriminate]);
    (destruct (chain_balanceOf bc a) as [balance|] eqn:Hb; simpl_store;
     [|discriminate]);
    (destruct (Qlt_le_dec balance (perk_tokenCost perk)) as [|Hle];
     simpl_store; [discriminate|]);
    (destruct (qrCode_taken (db w) _) eqn:Hq; simpl_store;
     [discriminate|]);
    intros _; exists perk, a, balance; repeat split;
    first [reflexivity | assumption].
Qed.

Lemma find_app_none {A} (p : A -> bool) (l l' : list A) :
  find p l = None -> find p (l ++ l') = find p l'.
Proof.
  induction l as [|y l IH]; cbn; [reflexivity|].
  destruct (p y); [discriminate | exact IH].
Qed.

(** X12. A claim can be redeemed once, right after it was made. When
    [claimPerk] returns a claim under an id no claim had, the claim is
    unredeemed; [redeemPerk] for that id then returns the claim stamped
    with the time of the redeem, every later [redeemPerk] for it fails with
    the error of a redeemed perk, and neither the claim nor the redeem
    issues a command on the chain. *)
Theorem claimPerk_then_redeemPerk (bc : Chain) (newId : string) (now : Z)
  (random : list Byte.byte) (perkId userId : string) (w : World)
  (claim : PerkClaim) (redeemedAt : Z) (staffUserId : string) :
  find_claim (db w) newId = None ->
  fst (PerkService.claimPerk bc newId now random perkId userId w) = Ok claim ->
  let w1 := snd (PerkService.claimPerk bc newId now random perkId userId w) in
  let redeemed := PerkService.redeemPerk redeemedAt newId staffUserId w1 in
  claim_id claim = newId
  /\ claim_redeemedAt claim = None
  /\ find_claim (db w1) newId = Some claim
  /\ fst redeemed = Ok (set_redeemedAt (Some redeemedAt) claim)
  /\ (forall later staff,
        fst (PerkService.redeemPerk later newId staff (snd redeemed))
        = Throw AlreadyRedeemed)
  /\ mintCalls (snd redeemed) = mintCalls w.
Proof.
  intros Hfresh Hok w1 redeemed.
  destruct (claimPerk_returned _ _ _ _ _ _ _ _ Hok)
    as (perk & address & balance & Hp & Hw & Hr & Hb & Hle & Hq).
  destruct (claimPerk_returns bc newId now random perkId userId w perk address
              balance Hp Hw Hr Hb Hle Hq) as (Hfst & Hdb & Hcalls & _).
  rewrite Hfst in Hok. injection Hok as Hclaim. subst claim.
  fold w1 in Hdb, Hcalls.
  match goal with |- context [Some ?c] => set (claim := c) in * end.
  assert (Hfind : find_claim (db w1) newId = Some claim).
  { unfold find_claim in *. rewrite Hdb. simpl_store.
    rewrite find_app_none by exact Hfresh. subst claim.
    cbn [find claim_id]. rewrite String.eqb_refl. reflexivity. }
  assert (Hnone : claim_redeemedAt claim = None) by reflexivity.
  pose proof (redeemPerk_fresh redeemedAt newId staffUserId w1 claim Hfind
                Hnone) as Hred.
  fold redeemed in Hred.
  split; [reflexivity|]. split; [exact Hnone|].
  split; [exact Hfind|]. rewrite Hred. simpl_store.
  split; [reflexivity|]. split; [|exact Hcalls].
  intros later staff.
  apply (redeemPerk_redeemed later newId staff _
           (set_redeemedAt (Some redeemedAt) claim) redeemedAt);
    [|reflexivity].
  unfold find_claim in *. simpl_store.
  apply find_update_first; [exact Hfind|].
  cbn [set_redeemedAt claim_id]. apply find_some in Hfind. apply Hfind.
Qed.

Lemma claimPerk_then_redeemPerk_witness :
  let w1 := snd (PerkService.claimPerk (chain_with_balance 25) "c2" 600
                   sample_random "k1" "u1" (world_of club_db)) in
  let redeemed := PerkService.redeemPerk 700 "c2" "staff" w1 in
  let claim :=
    mkPerkClaim "c2" "k1" "u1" 10
      (PerkService.generateQRCode 600 sample_random) 600 None in
  claim_id claim = "c2"
  /\ claim_redeemedAt claim = None
  /\ find_claim (db w1) "c2" = Some claim
  /\ fst redeemed = Ok (set_redeemedAt (Some 700) claim)
  /\ (forall later staff,
        fst (PerkService.redeemPerk later "c2" staff (snd redeemed))
        = Throw AlreadyRedeemed)
  /\ mintCalls (snd redeemed) = mintCalls (world_of club_db).
Proof.
  apply (claimPerk_then_redeemPerk (chain_with_balance 25) "c2" 600
           sample_random "k1" "u1" (world_of club_db)
           (mkPerkClaim "c2" "k1" "u1" 10
              (PerkService.generateQRCode 600 sample_random) 600 None)
           700 "staff"); reflexivity.
Defined.

(** X13. Claiming never spends. [claimPerk] compares the balance the chain
    reports with the cost of the perk and issues no command on the chain,
    so the comparison comes out the same the next time: when it has
    returned a claim, a second [claimPerk] of the same user for the same
    perk, with a code no claim has, returns a second claim of the same
    cost, and both claims are in the table. *)
Theorem claimPerk_does_not_spend (bc : Chain) (id1 id2 : string)
  (now1 now2 : Z) (random1 random2 : list Byte.byte)
  (perkId userId : string) (w : World) (claim1 : PerkClaim) :
  fst (PerkService.claimPerk bc id1 now1 random1 perkId userId w)
  = Ok claim1 ->
  let w1 := snd (PerkService.claimPerk bc id1 now1 random1 perkId userId w) in
  qrCode_taken (db w1) (PerkService.generateQRCode now2 random2) = false ->
  let second := PerkService.claimPerk bc id2 now2 random2 perkId userId w1 in
  exists claim2,
    fst second = Ok claim2
    /\ claim_tokenCost claim2 = claim_tokenCost claim1
    /\ perkClaims (db (snd second))
       = (perkClaims (db w) ++ [claim1; claim2])%list
    /\ mintCalls (snd second) = mintCalls w.
Proof.
  intros Hok w1 Hq2 second.
  destruct (claimPerk_returned _ _ _ _ _ _ _ _ Hok)
    as (perk & address & balance & Hp & Hw & Hr & Hb & Hle & Hq).
  destruct (claimPerk_returns bc id1 now1 random1 perkId userId w perk address
              balance Hp Hw Hr Hb Hle Hq) as (Hfst & Hdb & Hcalls & Hr1).
  rewrite Hfst in Hok. injection Hok as Hclaim. subst claim1.
  fold w1 in Hdb, Hcalls, Hr1.
  assert (Hp1 : find_active_perk (db w1) perkId = Some perk).
  { unfold find_active_perk. rewrite Hdb. exact Hp. }
  assert (Hw1 : usable_wallet (db w1) userId = Some address).
  { unfold usable_wallet, wallet_of. rewrite Hdb. exact Hw. }
  destruct (claimPerk_returns bc id2 now2 random2 perkId userId w1 perk address
              balance Hp1 Hw1 Hr1 Hb Hle Hq2) as (Hfst2 & Hdb2 & Hcalls2 & _).
  fold second in Hfst2, Hdb2, Hcalls2.
  eexists. split; [exact Hfst2|]. split; [reflexivity|]. split.
  - rewrite Hdb2, Hdb. simpl_store. rewrite <- app_assoc. reflexivity.
  - rewrite Hcalls2. exact Hcalls.
Qed.

Lemma claimPerk_does_not_spend_witness :
  let w1 := snd (PerkService.claimPerk (chain_with_balance 10) "c2" 600
                   sample_random "k1" "u1" (world_of club_db)) in
  let second :=
    PerkService.claimPerk (chain_with_balance 10) "c3" 601 sample_random
      "k1" "u1" w1 in
  exists claim2,
    fst second = Ok claim2
    /\ claim_tokenCost claim2
       = claim_tokenCost
           (mkPerkClaim "c2" "k1" "u1" 10
              (PerkService.generateQRCode 600 sample_random) 600 None)
    /\ perkClaims (db (snd second))
       = (perkClaims (db (world_of club_db))
          ++ [mkPerkClaim "c2" "k1" "u1" 10
                (PerkService.generateQRCode 600 sample_random) 600 None;
              claim2])%list
    /\ mintCalls (snd second) = mintCalls (world_of club_db).
Proof.
  apply (claimPerk_does_not_spend (chain_with_balance 10) "c2" "c3" 600 601
           sample_random sample_random "k1" "u1" (world_of club_db)
           (mkPerkClaim "c2" "k1" "u1" 10
              (PerkService.generateQRCode 600 sample_random) 600 None));
    reflexivity.
Defined.

Lemma find_deactivated (l : list Perk) perkId :
  NoDup (map perk_id l) ->
  find (fun p => (perk_id p =? perkId)%string && perk_active p)
       (update_first (fun p => (perk_id p =? perkId)%string)
                     (set_perk_active false) l)
  = None.
Proof.
  induction l as [|p l IH]; cbn [map update_first find]; [reflexivity|].
  intros Hnd. inversion Hnd as [|x l' Hnotin Hnd']; subst.
  destruct (perk_id p =? perkId)%string eqn:E.
  - cbn [find set_perk_active perk_id perk_active]. rewrite E. cbn [andb].
    apply String.eqb_eq in E. subst perkId.
    destruct (find _ l) as [q|] eqn:Hq; [|reflexivity].
    apply find_some in Hq. destruct Hq as [Hin Hq].
    apply andb_prop in Hq. destruct Hq as [Hq _].
    apply String.eqb_eq in Hq. exfalso. apply Hnotin. rewrite <- Hq.
    apply in_map, Hin.
  - cbn [find]. rewrite E. cbn [andb]. apply IH, Hnd'.
Qed.

Lemma find_other_perk (l : list Perk) perkId other :
  other <> perkId ->
  find (fun p => (perk_id p =? other)%string && perk_active p)
       (update_first (fun p => (perk_id p =? perkId)%string)
                     (set_perk_active false) l)
  = find (fun p => (perk_id p =? other)%string && perk_active p) l.
Proof.
  intros Hne. induction l as [|p l IH]; cbn [update_first find];
    [reflexivity|].
  destruct (perk_id p =? perkId)%string eqn:E.
  - cbn [find set_perk_active perk_id perk_active].
    apply String.eqb_eq in E. rewrite E.
    destruct (String.eqb_spec perkId other) as [Heq|_];
      [exfalso; apply Hne; symmetry; exact Heq|].
    reflexivity.
  - cbn [find]. rewrite IH. reflexivity.
Qed.

(** X14. [deletePerk] takes a perk off the offer and touches nothing else.
    When it returns, and the perks of the table have distinct ids, then
    afterwards [getPerkById] and [claimPerk] for the perk fail with the 404
    error of a missing perk and add no claim, every other perk is looked up
    as before, the claims are as they were, and [redeemPerk] answers for
    every claim, those of the deactivated perk included, what it answered
    before. *)
Theorem deletePerk_hides_the_perk (perkId : string) (w : World) :
  NoDup (map perk_id (perks (db w))) ->
  fst (PerkService.deletePerk perkId w) = Ok tt ->
  let w' := snd (PerkService.deletePerk perkId w) in
  fst (PerkService.getPerkById perkId w')
  = Throw (CustomError "Perk no encontrado" 404)
  /\ (forall bc newId now random userId,
        let out :=
          PerkService.claimPerk bc newId now random perkId userId w' in
        fst out = Throw (CustomError "Perk no encontrado" 404)
        /\ db (snd out) = db w')
  /\ (forall other, other <> perkId ->
        fst (PerkService.getPerkById other w')
        = fst (PerkService.getPerkById other w))
  /\ perkClaims (db w') = perkClaims (db w)
  /\ (forall now claimId staffUserId,
        let before := PerkService.redeemPerk now claimId staffUserId w in
        let after := PerkService.redeemPerk now claimId staffUserId w' in
        fst after = fst before
        /\ perkClaims (db (snd after)) = perkClaims (db (snd before))).
Proof.
  intros Hnd Hok w'.
  assert (Hw' : w'
                = mkWorld
                    (with_perks (db w)
                       (update_first (fun p => (perk_id p =? perkId)%string)
                          (set_perk_active false) (perks (db w))))
                    (mintCalls w)
                    (logs w ++ [mkLog LInfo "Perk deactivated"
                                  [("perkId", JStr perkId)]])
                    (sdk w)).
  { subst w'. revert Hok. unfold_methods. run_m.
    destruct (find _ (perks (db w))); [reflexivity|discriminate]. }
  rewrite Hw'. clear Hw' Hok w'.
  split; [|split; [|split; [|split]]].
  - unfold_methods. run_m. simpl_store.
    rewrite (find_deactivated _ _ Hnd). reflexivity.
  - intros bc newId now random userId.
    unfold_methods. run_m. simpl_store.
    rewrite (find_deactivated _ _ Hnd). split; reflexivity.
  - intros other Hne. unfold_methods. run_m. simpl_store.
    rewrite (find_other_perk _ _ _ Hne).
    destruct (find _ (perks (db w))); reflexivity.
  - reflexivity.
  - intros now claimId staffUserId.
    unfold_methods. run_m. simpl_store.
    repeat (break_match_goal; simpl_store); split; reflexivity.
Qed.

Lemma deletePerk_hides_the_perk_witness :
  let w' := snd (PerkService.deletePerk "k1" (world_of club_db)) in
  fst (PerkService.getPerkById "k1" w')
  = Throw (CustomError "Perk no encontrado" 404)
  /\ (forall bc newId now random userId,
        let out :=
          PerkService.claimPerk bc newId now random "k1" userId w' in
        fst out = Throw (CustomError "Perk no encontrado" 404)
        /\ db (snd out) = db w')
  /\ (forall other, other <> "k1" ->
        fst (PerkService.getPerkById other w')
        = fst (PerkService.getPerkById other (world_of club_db)))
  /\ perkClaims (db w') = perkClaims (db (world_of club_db))
  /\ (forall now claimId staffUserId,
        let before :=
          PerkService.redeemPerk now claimId staffUserId (world_of club_db) in
        let after := PerkService.redeemPerk now claimId staffUserId w' in
        fst after = fst before
        /\ perkClaims (db (snd after)) = perkClaims (db (snd before))).
Proof.
  apply (deletePerk_hides_the_perk "k1" (world_of club_db)).
  - cbn. repeat constructor; cbn; intuition discriminate.
  - reflexivity.
Defined.

(** ** The total of a tally *)

Lemma length_filter_sum {A} (p : A -> bool) (l : list A) :
  List.length (filter p l)
  = list_sum (map (fun x => if p x then 1%nat else 0%nat) l).
Proof.
  induction l as [|x l IH]; cbn [filter map list_sum fold_right];
    [reflexivity|].
  fold (list_sum (map (fun x => if p x then 1%nat else 0%nat) l)).
  destruct (p x); cbn [List.length]; rewrite IH; reflexivity.
Qed.

(** Counting the pairs of a relation by rows or by columns. *)
Lemma count_pairs {A B} (p : A -> B -> bool) (xs : list A) (ys : list B) :
  list_sum (map (fun x => List.length (filter (fun y => p x y) ys)) xs)
  = list_sum (map (fun y => List.length (filter (fun x => p x y) xs)) ys).
Proof.
  induction ys as [|y ys IH].
  - cbn [filter List.length map list_sum fold_right].
    apply list_sum_zero. reflexivity.
  - cbn [map list_sum fold_right].
    fold (list_sum (map (fun y0 => List.length (filter (fun x => p x y0) xs))
                        ys)).
    rewrite <- IH, length_filter_sum, <- list_sum_add.
    f_equal. apply map_ext. intros x. cbn [filter].
    destruct (p x y); reflexivity.
Qed.

Lemma NoDup_map_inj {A B} (f : A -> B) (l : list A) x y :
  NoDup (map f l) -> In x l -> In y l -> f x = f y -> x = y.
Proof.
  induction l as [|z l IH]; cbn [map]; intros Hnd Hx Hy Hf; [destruct Hx|].
  inversion Hnd as [|a l' Hnotin Hnd']; subst.
  destruct Hx as [Hx|Hx]; destruct Hy as [Hy|Hy]; subst.
  - reflexivity.
  - exfalso. apply Hnotin. rewrite Hf. apply in_map, Hy.
  - exfalso. apply Hnotin. rewrite <- Hf. apply in_map, Hx.
  - apply IH; assumption.
Qed.

(** Under distinct option ids, a ballot that names an option of its vote
    is counted by one option of that vote and by none of another vote. *)
Lemma ballot_counted_once d voteId b :
  NoDup (map option_id (voteOptions d)) ->
  option_of_vote d (ballot_voteId b) (ballot_optionId b) = true ->
  List.length
    (filter (fun o => (ballot_optionId b =? option_id o)%string)
            (vote_options d voteId))
  = if (ballot_voteId b =? voteId)%string then 1%nat else 0%nat.
Proof.
  intros Hnd Hopt. rewrite length_filter_sum.
  destruct (String.eqb_spec (ballot_voteId b) voteId) as [Hv|Hv].
  - subst voteId. unfold vote_options. apply one_option_of_id; assumption.
  - apply list_sum_zero. intros o Ho.
    destruct (String.eqb_spec (ballot_optionId b) (option_id o)) as [Hid|];
      [|reflexivity].
    exfalso. unfold vote_options in Ho. apply filter_In in Ho.
    destruct Ho as [Hin Hvo]. apply String.eqb_eq in Hvo.
    unfold option_of_vote in Hopt. apply existsb_exists in Hopt.
    destruct Hopt as [o' [Hin' Ho']]. apply andb_prop in Ho'.
    destruct Ho' as [Hid' Hv']. apply String.eqb_eq in Hid', Hv'.
    assert (o' = o).
    { apply (NoDup_map_inj option_id (voteOptions d)); try assumption.
      rewrite Hid', Hid. reflexivity. }
    subst o'. apply Hv. rewrite <- Hv', Hvo. reflexivity.
Qed.

(** X15. The total of a tally is the number of ballots of the vote. When
    the options of the table have distinct ids and every ballot names an
    option of its vote, the totalVotes that [getVoteResults] returns for a
    vote, which the code computes as the sum over the options of the vote
    of the ballots that name the option, is the number of ballots cast in
    that vote. *)
Theorem getVoteResults_total_is_the_ballots_of_the_vote (voteId : string)
  (w : World) (v : Vote) :
  NoDup (map option_id (voteOptions (db w))) ->
  ballots_refer_to_options (db w) ->
  find_vote (db w) voteId = Some v ->
  exists r,
    fst (VoteService.getVoteResults voteId w) = Ok r
    /\ VoteService.summary_totalVotes (VoteService.results_vote r)
       = List.length
           (filter (fun b => (ballot_voteId b =? voteId)%string)
                   (voteBallots (db w))).
Proof.
  intros Hnd Hrefer Hv.
  unfold VoteService.getVoteResults, VoteService.getVoteById. run_m.
  unfold find_vote in Hv. rewrite Hv. simpl_store.
  eexists. split; [reflexivity|].
  cbn [VoteService.results_vote VoteService.summary_totalVotes].
  rewrite options_with_count_total. unfold total_ballots, ballots_of_option.
  rewrite (count_pairs
             (fun o b => (ballot_optionId b =? option_id o)%string)).
  rewrite length_filter_sum. f_equal. apply map_ext_in. intros b Hb.
  apply ballot_counted_once; [exact Hnd|]. apply Hrefer, Hb.
Qed.

Lemma getVoteResults_total_is_the_ballots_of_the_vote_witness :
  exists r,
    fst (VoteService.getVoteResults "v1" (world_of club_db)) = Ok r
    /\ VoteService.summary_totalVotes (VoteService.results_vote r)
       = List.length
           (filter (fun b => (ballot_voteId b =? "v1")%string)
                   (voteBallots (db (world_of club_db)))).
Proof.
  apply (getVoteResults_total_is_the_ballots_of_the_vote "v1"
           (world_of club_db) (mkVote "v1" "Logo" None 100 200 true)).
  - cbn. repeat constructor; cbn; intuition discriminate.
  - intros b Hin. cbn in Hin.
    repeat (destruct Hin as [Hin|Hin]; [subst b; reflexivity|]).
    destruct Hin.
  - reflexivity.
Defined.

(** ** LedgerService: pages *)

Lemma chunks_cover {A} (size : nat) (n : nat) (l : list A) :
  (List.length l <= n * size)%nat ->
  List.concat
    (map (fun k => firstn size (skipn ((k - 1) * size) l)) (seq 1 n))
  = l.
Proof.
  revert l. induction n as [|n IH]; intros l Hl.
  - destruct l; [reflexivity|cbn in Hl; lia].
  - cbn [seq map List.concat]. rewrite <- seq_shift, map_map.
    cbn [Nat.sub Nat.mul skipn].
    transitivity (firstn size l ++ skipn size l)%list;
      [|apply firstn_skipn].
    f_equal. rewrite <- (IH (skipn size l)).
    + f_equal. apply map_ext_in. intros k Hk. apply in_seq in Hk.
      rewrite skipn_skipn. f_equal. f_equal.
      destruct k as [|k]; [lia|]. cbn [Nat.sub]. rewrite !Nat.sub_0_r.
      cbn [Nat.mul]. lia.
    + rewrite length_skipn. lia.
Qed.

Lemma totalPages_covers (total size : nat) :
  (0 < size)%nat ->
  (total <= (total + size - 1) / size * size)%nat
  /\ ((total + size - 1) / size * size < total + size)%nat.
Proof.
  intros Hs.
  pose proof (Nat.div_mod_eq (total + size - 1) size) as Hd.
  pose proof (Nat.mod_upper_bound (total + size - 1) size) as Hm.
  nia.
Qed.


(** ** LedgerService: the summary *)

Lemma filter_ext_eq {A} (p q : A -> bool) (l : list A) :
  (forall x, p x = q x) -> filter p l = filter q l.
Proof.
  intros H. induction l as [|x l IH]; cbn; [reflexivity|].
  rewrite H, IH. reflexivity.
Qed.

Lemma count_in_nodup (ks : list string) (k : string) :
  NoDup ks -> In k ks ->
  List.length (filter (fun k' => (k =? k')%string) ks) = 1%nat.
Proof.
  induction ks as [|x ks IH]; intros Hnd Hin; [destruct Hin|].
  inversion Hnd as [|a l Hnotin Hnd']; subst. cbn [filter].
  destruct (String.eqb_spec k x) as [Heq|Hne].
  - subst x. cbn [List.length]. f_equal.
    destruct (filter _ ks) as [|y l] eqn:Hf; [reflexivity|].
    exfalso. assert (Hy : In y (filter (fun k' => (k =? k')%string) ks)).
    { rewrite Hf. left. reflexivity. }
    apply filter_In in Hy. destruct Hy as [Hy Hk].
    apply String.eqb_eq in Hk. subst y. apply Hnotin, Hy.
  - destruct Hin as [Hin|Hin]; [exfalso; apply Hne; symmetry; exact Hin|].
    apply IH; assumption.
Qed.

Lemma list_sum_ones {A} (l : list A) :
  list_sum (map (fun _ => 1%nat) l) = List.length l.
Proof.
  induction l as [|x l IH]; cbn [map list_sum fold_right List.length];
    [reflexivity|].
  fold (list_sum (map (fun _ : A => 1%nat) l)). rewrite IH. reflexivity.
Qed.

(** X17. The figures of [getLedgerSummary] agree with one another,
    whatever order the store returns the rows in and whatever sum its
    grouping makes. The call always returns and only reads. totalEntries
    is the number of entries in the date range; activityByKind has one row
    for each kind that occurs there and no kind twice, the counts of its
    rows add up to totalEntries, and each row carries the number of the
    entries of its kind, of either currency, and the sum the store made of
    their amounts, or 0 when that sum is 0 or no number. For each currency
    totalIn and totalOut are the amounts of its entries of that direction
    added one after the other as numbers, from 0 on, in the order the
    store returned them, and net is the number totalIn minus totalOut. *)
Theorem getLedgerSummary_consistent (scan : list Ledger -> list Ledger)
  (sum : list Q -> Number) (dateRange : option DateRangeInput) (w : World) :
  (forall l, Permutation (scan l) l) ->
  let rows := entries_in_range dateRange (db w) in
  let added := fun l : list Ledger =>
    fold_left (fun total e => Double.add total (Double.round (ledger_amount e)))
              l (Finite 0%Q) in
  let of_currency := fun c : Currency =>
    scan (filter (fun e => currency_eqb (ledger_currency e) c) rows) in
  let of_direction := fun (d : Direction) (l : list Ledger) =>
    filter (fun e => direction_eqb (ledger_direction e) d) l in
  exists s,
    LedgerOps.getLedgerSummary scan sum dateRange w = (Ok s, w)
    /\ LedgerOps.totalEntries s = List.length rows
    /\ list_sum (map LedgerOps.activity_count (LedgerOps.activityByKind s))
       = LedgerOps.totalEntries s
    /\ NoDup (map LedgerOps.activity_kind (LedgerOps.activityByKind s))
    /\ (forall k,
          In k (map LedgerOps.activity_kind (LedgerOps.activityByKind s))
          <-> exists e, In e rows /\ ledger_kind e = k)
    /\ (forall a, In a (LedgerOps.activityByKind s) ->
          let group :=
            filter (fun e => (ledger_kind e
                              =? LedgerOps.activity_kind a)%string) rows in
          let total := sum (map ledger_amount group) in
          LedgerOps.activity_count a = List.length group
          /\ LedgerOps.activity_totalAmount a
             = match total with
               | Finite q => if (Qnum q =? 0)%Z then Finite 0%Q else total
               | Infinity _ => total
               | NotANumber => Finite 0%Q
               end)
    /\ LedgerOps.totalIn (LedgerOps.summary_eur s)
       = added (of_direction DirIn (of_currency EUR))
    /\ LedgerOps.totalOut (LedgerOps.summary_eur s)
       = added (of_direction DirOut (of_currency EUR))
    /\ LedgerOps.totalIn (LedgerOps.summary_tokens s)
       = added (of_direction DirIn (of_currency TOKEN))
    /\ LedgerOps.totalOut (LedgerOps.summary_tokens s)
       = added (of_direction DirOut (of_currency TOKEN))
    /\ LedgerOps.net (LedgerOps.summary_eur s)
       = Double.add (LedgerOps.totalIn (LedgerOps.summary_eur s))
           (Double.opp (LedgerOps.totalOut (LedgerOps.summary_eur s)))
    /\ LedgerOps.net (LedgerOps.summary_tokens s)
       = Double.add (LedgerOps.totalIn (LedgerOps.summary_tokens s))
           (Double.opp (LedgerOps.totalOut (LedgerOps.summary_tokens s))).
Proof.
  intros Hscan rows added of_currency of_direction.
  unfold LedgerOps.getLedgerSummary. run_m. simpl_store.
  fold (entries_in_range dateRange (db w)). fold rows.
  eexists. split; [reflexivity|].
  cbn [LedgerOps.totalEntries LedgerOps.activityByKind LedgerOps.summary_eur
       LedgerOps.summary_tokens].
  unfold LedgerOps.groupByKind. rewrite !map_map.
  cbn [LedgerOps.activity_count LedgerOps.activity_kind
       LedgerOps.activity_totalAmount].
  set (ks := nodup string_dec (map ledger_kind rows)).
  assert (Hnd : NoDup ks) by apply NoDup_nodup.
  assert (Hks : forall k, In k ks <-> exists e, In e rows /\ ledger_kind e = k).
  { intros k. subst ks. rewrite nodup_In, in_map_iff.
    split; intros [e [H1 H2]]; exists e; split; assumption. }
  assert (Htoken : filter (LedgerOps.is_currency TOKEN) rows
                   = filter (fun e => negb (LedgerOps.is_currency EUR e)) rows).
  { apply filter_ext_eq. intros e. unfold LedgerOps.is_currency.
    destruct (ledger_currency e); reflexivity. }
  assert (Htotal :
            (List.length (scan (filter (LedgerOps.is_currency EUR) rows))
             + List.length (scan (filter (LedgerOps.is_currency TOKEN) rows)))%nat
            = List.length rows).
  { rewrite !(Permutation_length (Hscan _)), Htoken. apply filter_length. }
  split; [exact Htotal|]. split.
  { rewrite Htotal.
    rewrite (count_pairs (fun k e => (ledger_kind e =? k)%string) ks rows).
    rewrite <- list_sum_ones. f_equal. apply map_ext_in. intros e He.
    apply count_in_nodup; [exact Hnd|]. apply Hks. exists e. split;
      [exact He|reflexivity]. }
  split; [rewrite map_id; exact Hnd|].
  split; [rewrite map_id; exact Hks|].
  split.
  { intros a Ha. apply in_map_iff in Ha. destruct Ha as [k [Ha _]].
    subst a. cbn [LedgerOps.activity_count LedgerOps.activity_kind
                  LedgerOps.activity_totalAmount].
    split; [reflexivity|].
    destruct (sum _) as [q| |]; unfold Double.truthy, Double.is_zero;
      [destruct (Qnum q =? 0)%Z|..]; reflexivity. }
  repeat split.
Qed.

Lemma getLedgerSummary_consistent_witness :
  exists s,
    LedgerOps.getLedgerSummary (fun rows => rows) sample_sum None
      (world_of cents_db) = (Ok s, world_of cents_db)
    /\ LedgerOps.totalEntries s = 3%nat
    /\ list_sum (map LedgerOps.activity_count (LedgerOps.activityByKind s))
       = LedgerOps.totalEntries s
    /\ NoDup (map LedgerOps.activity_kind (LedgerOps.activityByKind s))
    /\ (forall k,
          In k (map LedgerOps.activity_kind (LedgerOps.activityByKind s))
          <-> exists e, In e (ledger cents_db) /\ ledger_kind e = k)
    /\ (forall a, In a (LedgerOps.activityByKind s) ->
          let group :=
            filter (fun e => (ledger_kind e
                              =? LedgerOps.activity_kind a)%string)
                   (ledger cents_db) in
          let total := sample_sum (map ledger_amount group) in
          LedgerOps.activity_count a = List.length group
          /\ LedgerOps.activity_totalAmount a
             = match total with
               | Finite q => if (Qnum q =? 0)%Z then Finite 0%Q else total
               | Infinity _ => total
               | NotANumber => Finite 0%Q
               end)
    /\ LedgerOps.totalIn (LedgerOps.summary_eur s)
       = Double.round (30000000000000004 # 100000000000000000)
    /\ LedgerOps.totalOut (LedgerOps.summary_eur s) = Double.round (3 # 10)
    /\ LedgerOps.totalIn (LedgerOps.summary_tokens s) = Finite 0%Q
    /\ LedgerOps.totalOut (LedgerOps.summary_tokens s) = Finite 0%Q
    /\ LedgerOps.net (LedgerOps.summary_eur s)
       = Double.add (LedgerOps.totalIn (LedgerOps.summary_eur s))
           (Double.opp (LedgerOps.totalOut (LedgerOps.summary_eur s)))
    /\ LedgerOps.net (LedgerOps.summary_tokens s)
       = Double.add (LedgerOps.totalIn (LedgerOps.summary_tokens s))
           (Double.opp (LedgerOps.totalOut (LedgerOps.summary_tokens s))).
Proof.
  apply (getLedgerSummary_consistent (fun rows => rows) sample_sum None
           (world_of cents_db)).
  intros l. apply Permutation_refl.
Defined.

(** Three entries in EUR, of 0.1 and 0.2 in and of 0.3 out: totalIn is
    0.30000000000000004, not the number 0.3 that totalOut is, and net is
    not 0. *)
Example getLedgerSummary_of_cents :
  exists s,
    fst (LedgerOps.getLedgerSummary (fun rows => rows) sample_sum None
           (world_of cents_db)) = Ok s
    /\ LedgerOps.totalIn (LedgerOps.summary_eur s)
       = Double.round (30000000000000004 # 100000000000000000)
    /\ LedgerOps.totalOut (LedgerOps.summary_eur s) = Double.round (3 # 10)
    /\ LedgerOps.totalIn (LedgerOps.summary_eur s)
       <> LedgerOps.totalOut (LedgerOps.summary_eur s)
    /\ LedgerOps.net (LedgerOps.summary_eur s)
       = Finite (1 # 18014398509481984)
    /\ map (fun a => (LedgerOps.activity_kind a, LedgerOps.activity_count a))
           (LedgerOps.activityByKind s)
       = [("payment", 2%nat); ("refund", 1%nat)].
Proof.
  eexists. split; [vm_compute; reflexivity|].
  vm_compute. repeat split; try reflexivity. intros H. discriminate H.
Qed.

(** ** LedgerService: writing an entry and reading it back *)

Lemma insert_asc_perm {A} (key : A -> Z) (x : A) (l : list A) :
  Permutation (insert_asc key x l) (x :: l).
Proof.
  induction l as [|y l IH]; cbn; [reflexivity|].
  destruct (key x <=? key y)%Z; [reflexivity|].
  rewrite IH. apply perm_swap.
Qed.

Lemma sort_asc_perm {A} (key : A -> Z) (l : list A) :
  Permutation (sort_asc key l) l.
Proof.
  induction l as [|x l IH]; cbn; [reflexivity|].
  rewrite insert_asc_perm. constructor. exact IH.
Qed.

(** X18. An entry that is written is read back under its reference.
    [createLedgerEntry] always returns: the entry carries the arguments,
    the id and the time it was given, and as metadataJson the JSON text of
    the metadata, or null when the metadata is missing or falsy; it is
    appended to the ledger. Afterwards [getLedgerByReference] of its
    reference returns the entries it returned before together with the new
    one, and for every other reference what it returned before. *)
Theorem createLedgerEntry_then_getLedgerByReference
  (numberToString : Q -> string) (newId : string) (now : Z)
  (kind refId : string) (direction : Direction) (amount : Q)
  (currency : Currency) (metadata : option Json) (w : World) :
  let out :=
    LedgerOps.createLedgerEntry numberToString newId now kind refId direction
      amount currency metadata w in
  let entry :=
    mkLedger newId kind refId direction amount currency
      match metadata with
      | Some j =>
          if json_truthy (fun q => Qeq_bool q 0) j
          then Some (LedgerOps.stringify numberToString j)
          else None
      | None => None
      end
      now in
  fst out = Ok entry
  /\ ledger (db (snd out)) = (ledger (db w) ++ [entry])%list
  /\ (exists before after,
        returned (fst (LedgerOps.getLedgerByReference refId w)) = Some before
        /\ returned (fst (LedgerOps.getLedgerByReference refId (snd out)))
           = Some after
        /\ Permutation after (entry :: before))
  /\ (forall other, other <> refId ->
        fst (LedgerOps.getLedgerByReference other (snd out))
        = fst (LedgerOps.getLedgerByReference other w)).
Proof.
  intros out entry. subst out.
  unfold LedgerOps.createLedgerEntry, LedgerOps.getLedgerByReference.
  run_m. simpl_store. fold entry.
  split; [reflexivity|]. split; [reflexivity|]. split.
  - eexists. eexists. split; [reflexivity|]. split; [reflexivity|].
    rewrite !sort_asc_perm, filter_app. cbn [filter].
    replace (ledger_refId entry =? refId)%string with true
      by (symmetry; apply String.eqb_refl).
    rewrite Permutation_app_comm. reflexivity.
  - intros other Hne. rewrite filter_app. cbn [filter].
    replace (ledger_refId entry =? other)%string with false.
    + rewrite app_nil_r. reflexivity.
    + symmetry. apply String.eqb_neq. intros Heq. apply Hne.
      symmetry. exact Heq.
Qed.

Lemma sum_amounts_app (l : list Ledger) (e : Ledger) :
  sum_amounts (l ++ [e])
  = Double.add (sum_amounts l) (Double.round (ledger_amount e)).
Proof. unfold sum_amounts. rewrite fold_left_app. reflexivity. Qed.

(** X19. What the ledger helpers add to the summary. After [logPayment]
    for an amount in EUR and [logMint] for a token amount the ledger holds
    two entries more, both under the order as their reference, of the
    kinds payment and mint, with a JSON text as metadata, and the summary
    over all dates counts two entries more. When the store returns the
    rows in the order they were written, the EUR totalIn afterwards is the
    number that adding the amount to the totalIn before gives (the sum of
    two doubles, rounded), the TOKEN totalOut likewise with the token
    amount, and the other two totals are as before. *)
Theorem logPayment_logMint_in_summary (sum : list Q -> Number)
  (numberToString : Q -> string)
  (id1 id2 : string) (now1 now2 : Z) (orderId : string) (amount : Q)
  (status : string) (tokenAmount : Q) (txHash : string) (w : World) :
  let w1 :=
    snd (LedgerOps.logPayment numberToString id1 now1 orderId amount status
           w) in
  let w2 :=
    snd (LedgerOps.logMint numberToString id2 now2 orderId tokenAmount txHash
           w1) in
  let in_order := fun rows : list Ledger => rows in
  exists s s' payment mint,
    LedgerOps.getLedgerSummary in_order sum None w = (Ok s, w)
    /\ LedgerOps.getLedgerSummary in_order sum None w2 = (Ok s', w2)
    /\ ledger (db w2) = (ledger (db w) ++ [payment; mint])%list
    /\ (ledger_kind payment, ledger_refId payment, ledger_direction payment,
        ledger_amount payment, ledger_currency payment)
       = ("payment", orderId, DirIn, amount, EUR)
    /\ (ledger_kind mint, ledger_refId mint, ledger_direction mint,
        ledger_amount mint, ledger_currency mint)
       = ("mint", orderId, DirOut, tokenAmount, TOKEN)
    /\ ledger_metadataJson payment
       = Some (LedgerOps.stringify numberToString
                 (JsonObject [("status", JsonString status);
                              ("provider", JsonString "stripe")]))
    /\ ledger_metadataJson mint
       = Some (LedgerOps.stringify numberToString
                 (JsonObject [("txHash", JsonString txHash);
                              ("chainId", JsonNumber 137)]))
    /\ LedgerOps.totalIn (LedgerOps.summary_eur s')
       = Double.add (LedgerOps.totalIn (LedgerOps.summary_eur s))
                    (Double.round amount)
    /\ LedgerOps.totalOut (LedgerOps.summary_eur s')
       = LedgerOps.totalOut (LedgerOps.summary_eur s)
    /\ LedgerOps.totalIn (LedgerOps.summary_tokens s')
       = LedgerOps.totalIn (LedgerOps.summary_tokens s)
    /\ LedgerOps.totalOut (LedgerOps.summary_tokens s')
       = Double.add (LedgerOps.totalOut (LedgerOps.summary_tokens s))
                    (Double.round tokenAmount)
    /\ LedgerOps.totalEntries s' = (LedgerOps.totalEntries s + 2)%nat.
Proof.
  intros w1 w2 in_order. subst w2 w1 in_order.
  unfold LedgerOps.logPayment, LedgerOps.logMint, LedgerOps.createLedgerEntry,
    LedgerOps.getLedgerSummary.
  run_m. simpl_store.
  cbn [json_truthy]. simpl_store.
  eexists. eexists. eexists. eexists.
  split; [reflexivity|]. split; [reflexivity|].
  split; [rewrite <- app_assoc; reflexivity|].
  split; [reflexivity|]. split; [reflexivity|].
  split; [reflexivity|]. split; [reflexivity|].
  cbn [LedgerOps.summary_eur LedgerOps.summary_tokens LedgerOps.totalEntries
       LedgerOps.totals_of LedgerOps.totalIn LedgerOps.totalOut].
  repeat (rewrite ?filter_app;
          cbn [filter LedgerService.in_range LedgerOps.is_currency
               LedgerOps.is_direction ledger_currency ledger_direction
               currency_eqb direction_eqb app]).
  rewrite ?app_nil_r, ?sum_amounts_app, ?length_app.
  cbn [List.length ledger_amount].
  repeat split; try reflexivity. lia.
Qed.

(** On the ledger of cents: a payment of 0.3 after the 0.1 and the 0.2
    makes the EUR totalIn 0.6000000000000001. *)
Example logPayment_of_cents :
  let w1 :=
    snd (LedgerOps.logPayment integerToString "l4" 400 "o3" (3 # 10)
           "completed" (world_of cents_db)) in
  exists s,
    fst (LedgerOps.getLedgerSummary (fun rows => rows) sample_sum None w1)
    = Ok s
    /\ LedgerOps.totalIn (LedgerOps.summary_eur s)
       = Double.round (6000000000000001 # 10000000000000000)
    /\ LedgerOps.totalIn (LedgerOps.summary_eur s) <> Double.round (6 # 10)
    /\ LedgerOps.totalEntries s = 4%nat.
Proof.
  eexists. split; [vm_compute; reflexivity|].
  vm_compute. repeat split; try reflexivity. intros H. discriminate H.
Qed.

(** ** VoteService: the open votes *)

Lemma find_by_key {A} (key : A -> string) (l : list A) (x : A) :
  NoDup (map key l) -> In x l ->
  find (fun y => (key y =? key x)%string) l = Some x.
Proof.
  induction l as [|y l IH]; intros Hnd Hin; [destruct Hin|].
  inversion Hnd as [|a l' Hnotin Hnd']; subst. cbn [find].
  destruct (String.eqb_spec (key y) (key x)) as [Heq|Hne].
  - destruct Hin as [Hin|Hin]; [subst; reflexivity|].
    exfalso. apply Hnotin. rewrite Heq. apply in_map, Hin.
  - destruct Hin as [Hin|Hin]; [subst; contradiction|].
    apply IH; assumption.
Qed.

(** X20. [getVotes] and [castBallot] agree on what an open vote is. With
    activeOnly, [getVotes] lists exactly the votes of the table that are
    active and whose window holds the time of the call; without it, all
    votes. Whenever [castBallot] returns at a time, the vote it was cast in
    is listed at that time; and when the votes have distinct ids, every
    vote that is listed accepts, at that time, a ballot for any of its
    options from any user who has no ballot in it. *)
Theorem getVotes_lists_the_open_votes (now : Z) (w : World) :
  exists listed all,
    Votes.getVotes now true w = (Ok listed, w)
    /\ Votes.getVotes now false w = (Ok all, w)
    /\ Permutation all (votes (db w))
    /\ (forall v,
          In v listed
          <-> In v (votes (db w))
              /\ vote_active v = true
              /\ (vote_startAt v <= now <= vote_endAt v)%Z)
    /\ (forall newId voteId userId optionId ballot,
          fst (VoteService.castBallot newId now voteId userId optionId w)
          = Ok ballot ->
          exists v, In v listed /\ vote_id v = voteId)
    /\ (NoDup (map vote_id (votes (db w))) ->
        forall v newId userId optionId,
          In v listed ->
          has_ballot (db w) (vote_id v) userId = false ->
          option_of_vote (db w) (vote_id v) optionId = true ->
          fst (VoteService.castBallot newId now (vote_id v) userId optionId w)
          = Ok (mkVoteBallot newId (vote_id v) optionId userId now)).
Proof.
  unfold Votes.getVotes. run_m. simpl_store.
  eexists. eexists. split; [reflexivity|]. split; [reflexivity|].
  assert (Hlisted : forall v,
            In v (sort_desc vote_startAt
                    (filter (fun v0 => vote_active v0
                                       && (vote_startAt v0 <=? now)%Z
                                       && (now <=? vote_endAt v0)%Z)
                            (votes (db w))))
            <-> In v (votes (db w))
                /\ vote_active v = true
                /\ (vote_startAt v <= now <= vote_endAt v)%Z).
  { intros v. split.
    - intros H. apply (Permutation_in _ (sort_desc_perm _ _)) in H.
      apply filter_In in H. destruct H as [Hin H].
      apply andb_prop in H. destruct H as [H H3].
      apply andb_prop in H. destruct H as [H1 H2].
      apply Z.leb_le in H2, H3. auto.
    - intros (Hin & H1 & H2 & H3).
      apply (Permutation_in _ (Permutation_sym (sort_desc_perm _ _))).
      apply filter_In. split; [exact Hin|].
      apply Z.leb_le in H2, H3. rewrite H1, H2, H3. reflexivity. }
  split.
  { rewrite (filter_all (fun _ => true)) by reflexivity.
    apply sort_desc_perm. }
  split; [exact Hlisted|]. split.
  - intros newId voteId userId optionId ballot Hok.
    pose proof (castBallot_cases newId now voteId userId optionId w) as H.
    cbv zeta in H. unfold find_vote in H.
    destruct (find _ (votes (db w))) as [v|] eqn:Hv;
      [|destruct H as [H _]; rewrite H in Hok; discriminate].
    destruct ((now <? vote_startAt v)%Z || (vote_endAt v <? now)%Z) eqn:Hwin;
      [destruct H as [H _]; rewrite H in Hok; discriminate|].
    destruct (vote_active v) eqn:Hact; cbn [negb] in H;
      [|destruct H as [H _]; rewrite H in Hok; discriminate].
    apply find_some in Hv. destruct Hv as [Hin Hid].
    apply String.eqb_eq in Hid. exists v. split; [|exact Hid].
    apply Hlisted. apply orb_false_elim in Hwin. destruct Hwin as [H1 H2].
    apply Z.ltb_ge in H1, H2. auto.
  - intros Hnd v newId userId optionId Hv Hb Ho.
    apply Hlisted in Hv. destruct Hv as (Hin & Hact & H1 & H2).
    pose proof (castBallot_cases newId now (vote_id v) userId optionId w)
      as H.
    cbv zeta in H. unfold find_vote in H.
    rewrite (find_by_key vote_id _ _ Hnd Hin) in H.
    replace ((now <? vote_startAt v)%Z || (vote_endAt v <? now)%Z)
      with false in H
      by (symmetry; apply orb_false_intro; apply Z.ltb_ge; assumption).
    rewrite Hact, Hb, Ho in H. cbn [negb] in H. apply H.
Qed.

(** ** The history of a user *)

(** X21. A ballot shows in the history of its voter and of nobody else.
    When [castBallot] returns a ballot, [getUserVotes] of the voter
    afterwards returns the ballots it returned before together with the new
    one, and [getUserVotes] of every other user returns what it returned
    before. *)
Theorem castBallot_then_getUserVotes (newId : string) (now : Z)
  (voteId userId optionId : string) (w : World) (ballot : VoteBallot) :
  fst (VoteService.castBallot newId now voteId userId optionId w)
  = Ok ballot ->
  let w' := snd (VoteService.castBallot newId now voteId userId optionId w) in
  (exists before after,
     returned (fst (Votes.getUserVotes userId w)) = Some before
     /\ returned (fst (Votes.getUserVotes userId w')) = Some after
     /\ Permutation after (ballot :: before))
  /\ (forall other, other <> userId ->
        fst (Votes.getUserVotes other w') = fst (Votes.getUserVotes other w)).
Proof.
  intros Hok w'.
  pose proof (castBallot_cases newId now voteId userId optionId w) as H.
  cbv zeta in H. fold w' in H.
  destruct (find_vote (db w) voteId) as [v|];
    [|destruct H as [H _]; rewrite H in Hok; discriminate].
  destruct ((now <? vote_startAt v)%Z || (vote_endAt v <? now)%Z);
    [destruct H as [H _]; rewrite H in Hok; discriminate|].
  destruct (negb (vote_active v));
    [destruct H as [H _]; rewrite H in Hok; discriminate|].
  destruct (has_ballot (db w) voteId userId);
    [destruct H as [H _]; rewrite H in Hok; discriminate|].
  destruct (negb (option_of_vote (db w) voteId optionId));
    [destruct H as [H _]; rewrite H in Hok; discriminate|].
  destruct H as [Hfst Hdb]. rewrite Hfst in Hok. injection Hok as Hb.
  subst ballot.
  unfold Votes.getUserVotes. run_m. simpl_store. rewrite Hdb. simpl_store.
  rewrite !filter_app. cbn [filter ballot_userId]. split.
  - eexists. eexists. split; [reflexivity|]. split; [reflexivity|].
    rewrite String.eqb_refl, !sort_desc_perm, Permutation_app_comm.
    reflexivity.
  - intros other Hne. rewrite filter_app.
    cbn [filter ballot_userId claim_userId].
    destruct (String.eqb_spec userId other) as [Heq|_];
      [exfalso; apply Hne; symmetry; exact Heq|].
    rewrite app_nil_r. reflexivity.
Qed.

Lemma castBallot_then_getUserVotes_witness :
  let w' := snd (VoteService.castBallot "b4" 150 "v1" "u4" "B"
                   (world_of club_db)) in
  (exists before after,
     returned (fst (Votes.getUserVotes "u4" (world_of club_db))) = Some before
     /\ returned (fst (Votes.getUserVotes "u4" w')) = Some after
     /\ Permutation after (mkVoteBallot "b4" "v1" "B" "u4" 150 :: before))
  /\ (forall other, other <> "u4" ->
        fst (Votes.getUserVotes other w')
        = fst (Votes.getUserVotes other (world_of club_db))).
Proof.
  apply (castBallot_then_getUserVotes "b4" 150 "v1" "u4" "B"
           (world_of club_db) (mkVoteBallot "b4" "v1" "B" "u4" 150)).
  reflexivity.
Defined.

(** X22. A claim shows in the lists of its user and of its perk. When
    [claimPerk] returns a claim, [getUserPerks] of the user and
    [getPerkClaims] of the perk afterwards return the claims they returned
    before together with the new one, [getPerkClaims] without a perk lists
    every claim of the table, and the lists of every other user and of
    every other perk are what they were. *)
Theorem claimPerk_then_lists (bc : Chain) (newId : string) (now : Z)
  (random : list Byte.byte) (perkId userId : string) (w : World)
  (claim : PerkClaim) :
  fst (PerkService.claimPerk bc newId now random perkId userId w) = Ok claim ->
  let w' := snd (PerkService.claimPerk bc newId now random perkId userId w) in
  (exists before after,
     returned (fst (Perks.getUserPerks userId w)) = Some before
     /\ returned (fst (Perks.getUserPerks userId w')) = Some after
     /\ Permutation after (claim :: before))
  /\ (perkId <> "" ->
      exists before after,
        returned (fst (Perks.getPerkClaims (Some perkId) w)) = Some before
        /\ returned (fst (Perks.getPerkClaims (Some perkId) w')) = Some after
        /\ Permutation after (claim :: before))
  /\ (exists all,
        returned (fst (Perks.getPerkClaims None w')) = Some all
        /\ Permutation all (claim :: perkClaims (db w)))
  /\ (forall other, other <> userId ->
        fst (Perks.getUserPerks other w') = fst (Perks.getUserPerks other w))
  /\ (forall other, other <> perkId -> other <> "" ->
        fst (Perks.getPerkClaims (Some other) w')
        = fst (Perks.getPerkClaims (Some other) w)).
Proof.
  intros Hok w'.
  destruct (claimPerk_returned _ _ _ _ _ _ _ _ Hok)
    as (perk & address & balance & Hp & Hw & Hr & Hb & Hle & Hq).
  destruct (claimPerk_returns bc newId now random perkId userId w perk address
              balance Hp Hw Hr Hb Hle Hq) as (Hfst & Hdb & _ & _).
  rewrite Hfst in Hok. injection Hok as Hclaim. subst claim.
  fold w' in Hdb.
  unfold Perks.getUserPerks, Perks.getPerkClaims. run_m. simpl_store.
  rewrite Hdb. simpl_store. unfold truthy.
  rewrite !filter_app. cbn [filter claim_userId claim_perkId].
  split; [|split; [|split; [|split]]].
  - eexists. eexists. split; [reflexivity|]. split; [reflexivity|].
    rewrite String.eqb_refl, !sort_desc_perm, Permutation_app_comm.
    reflexivity.
  - intros Hne. eexists. eexists. split; [reflexivity|].
    split; [reflexivity|].
    destruct (String.eqb_spec perkId "") as [Heq|_]; [contradiction|].
    cbn [negb]. rewrite ?filter_app. cbn [filter claim_perkId].
    rewrite String.eqb_refl, !sort_desc_perm, Permutation_app_comm.
    reflexivity.
  - eexists. split; [reflexivity|].
    rewrite sort_desc_perm, Permutation_app_comm.
    rewrite (filter_all (fun _ => true)) by reflexivity. reflexivity.
  - intros other Hne. rewrite filter_app.
    cbn [filter ballot_userId claim_userId].
    destruct (String.eqb_spec userId other) as [Heq|_];
      [exfalso; apply Hne; symmetry; exact Heq|].
    rewrite app_nil_r. reflexivity.
  - intros other Hne Hempty.
    destruct (String.eqb_spec other "") as [Heq|_]; [contradiction|].
    cbn [negb]. rewrite filter_app. cbn [filter claim_perkId].
    destruct (String.eqb_spec perkId other) as [Heq|_];
      [exfalso; apply Hne; symmetry; exact Heq|].
    rewrite app_nil_r. reflexivity.
Qed.

Lemma claimPerk_then_lists_witness :
  let w' := snd (PerkService.claimPerk (chain_with_balance 25) "c2" 600
                   sample_random "k1" "u1" (world_of club_db)) in
  let claim :=
    mkPerkClaim "c2" "k1" "u1" 10
      (PerkService.generateQRCode 600 sample_random) 600 None in
  (exists before after,
     returned (fst (Perks.getUserPerks "u1" (world_of club_db))) = Some before
     /\ returned (fst (Perks.getUserPerks "u1" w')) = Some after
     /\ Permutation after (claim :: before))
  /\ ("k1" <> "" ->
      exists before after,
        returned (fst (Perks.getPerkClaims (Some "k1") (world_of club_db)))
        = Some before
        /\ returned (fst (Perks.getPerkClaims (Some "k1") w')) = Some after
        /\ Permutation after (claim :: before))
  /\ (exists all,
        returned (fst (Perks.getPerkClaims None w')) = Some all
        /\ Permutation all (claim :: perkClaims (db (world_of club_db))))
  /\ (forall other, other <> "u1" ->
        fst (Perks.getUserPerks other w')
        = fst (Perks.getUserPerks other (world_of club_db)))
  /\ (forall other, other <> "k1" -> other <> "" ->
        fst (Perks.getPerkClaims (Some other) w')
        = fst (Perks.getPerkClaims (Some other) (world_of club_db))).
Proof.
  apply (claimPerk_then_lists (chain_with_balance 25) "c2" 600 sample_random
           "k1" "u1" (world_of club_db)
           (mkPerkClaim "c2" "k1" "u1" 10
              (PerkService.generateQRCode 600 sample_random) 600 None)).
  reflexivity.
Defined.

(** ** Errors and the log *)

(** X23. No error goes unlogged. Whenever a method of the services throws,
    the last line of the log is an error line of that method that carries
    the very error thrown: every catch block logs what it caught and
    rethrows it as it is. (The private [handleCheckoutCompleted] has no
    catch block; its errors are logged by [handleWebhook], which runs
    it.) *)
Theorem thrown_errors_are_logged (o : Op) (w : World) (e : AppError) :
  without_catch o = false ->
  thrown o w = Some e ->
  exists message,
    last (logs (run o w)) (mkLog LInfo "" [])
    = mkLog LError message [("error", JErr e)].
Proof.
  intros Hc.
  destruct o as [c| | | | | | | | | | | | | | | | | | | | | | | | | | | |];
    [destruct c|..]; try discriminate Hc; clear Hc;
    unfold thrown, error_of; unfold_methods; run_m; simpl_store;
    repeat (break_match_goal; simpl_store);
    intros H; try discriminate H; injection H as H; subst;
    eexists; apply last_last.
Qed.

Lemma thrown_errors_are_logged_witness :
  exists message,
    last (logs (run (OpCall (CallRedeemPerk 650 "c0" "staff"))
                  (world_of club_db)))
         (mkLog LInfo "" [])
    = mkLog LError message [("error", JErr AlreadyRedeemed)].
Proof.
  apply (thrown_errors_are_logged (OpCall (CallRedeemPerk 650 "c0" "staff"))
           (world_of club_db) AlreadyRedeemed); reflexivity.
Defined.

(** One operation leaves an SDK that is set up as it is, and sets up one
    that is not at most once; only [initialize] itself sets up an SDK that
    is set up already. *)
Lemma run_sdk (o : Op) (w : World) :
  (sdk w = true ->
   sdk (run o w) = true
   /\ (sdk_initialized (logs (run o w)) = sdk_initialized (logs w)
       \/ (initializes o = true
           /\ sdk_initialized (logs (run o w))
              = S (sdk_initialized (logs w)))))
  /\ (sdk w = false ->
      (sdk (run o w) = false
       /\ sdk_initialized (logs (run o w)) = sdk_initialized (logs w))
      \/ (sdk (run o w) = true
          /\ sdk_initialized (logs (run o w))
             = S (sdk_initialized (logs w)))).
Proof.
  unfold sdk_initialized.
  destruct o as [c| | | | | | | | | | | | | | | | | | | | | | | | | | | |];
    [destruct c|..];
    unfold_methods; run_m; simpl_store;
    (split; intros Hsdk; rewrite ?Hsdk; simpl_store);
    repeat (break_match_goal; simpl_store);
    rewrite ?filter_app, ?length_app;
    cbn [filter log_message String.eqb Ascii.eqb Bool.eqb List.length
         initializes];
    rewrite ?Nat.add_0_r;
    first [discriminate Hsdk
          |split; [assumption || reflexivity | left; reflexivity]
          |split; [assumption || reflexivity
                  | right; split; [reflexivity | lia]]
          |left; split; [assumption || reflexivity | reflexivity]
          |right; split; [reflexivity | lia]].
Qed.

Lemma run_all_sdk_stays (ops : list Op) (w : World) :
  sdk w = true -> sdk (run_all ops w) = true.
Proof.
  revert w. induction ops as [|o ops IH]; intros w H; [exact H|].
  cbn [run_all fold_left]. fold (run_all ops (run o w)).
  apply IH. apply (proj1 (run_sdk o w) H).
Qed.

(** X24. The SDK is set up lazily, and by the methods that need it at most
    once; [initialize] itself is not guarded and sets it up again whenever
    it is called. Across any sequence of operations an SDK that is set up
    stays set up, and the log gains at most one set-up line for each call
    of [initialize] in the sequence, and one more when the run started
    without the SDK. Across a sequence without calls of [initialize]: once
    the SDK is set up no operation sets it up again, and starting without
    it the log gains at most one set-up line, exactly one when the run
    ends with the SDK set up. *)
Theorem sdk_is_set_up_lazily (ops : list Op) (w : World) :
  let w' := run_all ops w in
  let lines := fun x : World => sdk_initialized (logs x) in
  (sdk w = true -> sdk w' = true)
  /\ (lines w <= lines w'
      <= lines w + List.length (filter initializes ops)
         + (if sdk w then 0 else 1))%nat
  /\ (forallb (fun o => negb (initializes o)) ops = true ->
      (sdk w = true -> lines w' = lines w)
      /\ (sdk w = false ->
          lines w' = (lines w + if sdk w' then 1 else 0)%nat)).
Proof.
  cbv zeta. split; [apply run_all_sdk_stays|]. split.
  - revert w. induction ops as [|o ops IH]; intros w.
    + cbn [run_all fold_left filter List.length]. lia.
    + cbn [run_all fold_left]. fold (run_all ops (run o w)).
      specialize (IH (run o w)).
      destruct (run_sdk o w) as [Hon Hoff].
      cbn [filter]. destruct (sdk w) eqn:Hw.
      * destruct (Hon eq_refl) as [H1 [H2|[H2 H3]]]; rewrite H1 in IH.
        -- destruct (initializes o); cbn [List.length]; lia.
        -- rewrite H2. cbn [List.length]. lia.
      * destruct (Hoff eq_refl) as [[H1 H2]|[H1 H2]]; rewrite H1 in IH;
          destruct (initializes o); cbn [List.length]; lia.
  - revert w. induction ops as [|o ops IH]; intros w Hops.
    + cbn [run_all fold_left]. split; intros H; [reflexivity|].
      rewrite H. lia.
    + cbn [forallb] in Hops. apply andb_prop in Hops.
      destruct Hops as [Ho Hops]. apply negb_true_iff in Ho.
      cbn [run_all fold_left]. fold (run_all ops (run o w)).
      destruct (run_sdk o w) as [Hon Hoff].
      destruct (IH (run o w) Hops) as [IHon IHoff].
      split.
      * intros H. destruct (Hon H) as [H1 [H2|[H2 _]]];
          [|rewrite Ho in H2; discriminate].
        rewrite (IHon H1). exact H2.
      * intros H. destruct (Hoff H) as [[H1 H2]|[H1 H2]].
        -- rewrite (IHoff H1), H2. reflexivity.
        -- rewrite (IHon H1), H2, (run_all_sdk_stays ops _ H1). lia.
Qed.

(** Two calls of [initialize] set the SDK up twice; two calls of
    [getTokenBalance] set it up once. *)
Example initialize_is_not_guarded :
  sdk_initialized
    (logs (run_all [OpInitialize (chain_accepting "0xaaa");
                    OpInitialize (chain_accepting "0xaaa")]
                   (world_of club_db))) = 2%nat
  /\ sdk_initialized
       (logs (run_all [OpGetTokenBalance (chain_accepting "0xaaa") "0xabc";
                       OpGetTokenBalance (chain_accepting "0xaaa") "0xabc"]
                      (world_of club_db))) = 1%nat.
Proof. vm_compute. split; reflexivity. Qed.

(** ** LedgerService: two ways to the entries of a kind *)

(** X25. [getLedgerByKind] and [getLedgerEntries] with a kind filter
    return the same page, except for the empty kind. For a kind that is
    not the empty string both return the same entries, total and
    totalPages for every page and limit. For the empty string
    [getLedgerByKind] looks for entries whose kind is empty, while
    [getLedgerEntries] takes the filter as absent and pages through the
    whole ledger. *)
Theorem getLedgerByKind_agrees_with_getLedgerEntries (kind : string)
  (pagination : PaginationInput) (w : World) :
  let filters := mkLedgerFilters (Some kind) None None None None in
  exists byKind byFilter,
    LedgerOps.getLedgerByKind kind pagination w = (Ok (byKind, kind), w)
    /\ LedgerOps.getLedgerEntries filters pagination w = (Ok byFilter, w)
    /\ (kind <> "" -> byKind = byFilter)
    /\ (kind = "" ->
        LedgerOps.page_total byFilter = List.length (ledger (db w))
        /\ LedgerOps.page_total byKind
           = List.length (filter (fun e => (ledger_kind e =? "")%string)
                                 (ledger (db w)))).
Proof.
  intros filters. subst filters.
  unfold LedgerOps.getLedgerByKind, LedgerOps.getLedgerEntries.
  run_m. simpl_store.
  eexists. eexists. split; [reflexivity|]. split; [reflexivity|].
  split.
  - intros Hne.
    assert (Hf : filter (LedgerOps.matches
                           (mkLedgerFilters (Some kind) None None None None))
                        (ledger (db w))
                 = filter (fun e => (ledger_kind e =? kind)%string)
                          (ledger (db w))).
    { apply filter_ext_eq. intros e. unfold LedgerOps.matches, truthy.
      cbn [filter_kind filter_currency filter_direction filter_startDate
           filter_endDate].
      destruct (String.eqb_spec kind "") as [Heq|_]; [contradiction|].
      cbn [negb]. rewrite !andb_true_r. reflexivity. }
    rewrite Hf. reflexivity.
  - intros Heq. subst kind.
    cbn [LedgerOps.page_total]. split; [|reflexivity].
    f_equal. apply filter_all. intros e _. reflexivity.
Qed.

(** ** What is never deleted *)

Lemma updateMany_keys {A B} (where_ : A -> bool) (data : A -> A)
  (key : A -> B) (l : list A) :
  (forall x, key (data x) = key x) ->
  map key (map (fun x => if where_ x then data x else x) l) = map key l.
Proof.
  intros Hk. rewrite map_map. apply map_ext. intros x.
  destruct (where_ x); [apply Hk|reflexivity].
Qed.

Lemma rows_kept_refl d : rows_kept d d.
Proof.
  repeat split; try (exists []; symmetry; apply app_nil_r).
Qed.

Lemma rows_kept_trans d1 d2 d3 :
  rows_kept d1 d2 -> rows_kept d2 d3 -> rows_kept d1 d3.
Proof.
  intros (Hs & Hu & [lo Ho] & [lk Hk] & [lv Hv] & [lp Hpay] & [lm Hm]
          & [lc Hc] & [lb Hb] & [ll Hl])
         (Hs' & Hu' & [lo' Ho'] & [lk' Hk'] & [lv' Hv'] & [lp' Hpay']
          & [lm' Hm'] & [lc' Hc'] & [lb' Hb'] & [ll' Hl']).
  repeat split; try congruence.
  - exists (lo ++ lo')%list. rewrite Ho', Ho, app_assoc. reflexivity.
  - exists (lk ++ lk')%list. rewrite Hk', Hk, app_assoc. reflexivity.
  - exists (lv ++ lv')%list. rewrite Hv', Hv, app_assoc. reflexivity.
  - exists (lp ++ lp')%list. rewrite Hpay', Hpay, app_assoc. reflexivity.
  - exists (lm ++ lm')%list. rewrite Hm', Hm, app_assoc. reflexivity.
  - exists (lc ++ lc')%list. rewrite Hc', Hc, app_assoc. reflexivity.
  - exists (lb ++ lb')%list. rewrite Hb', Hb, app_assoc. reflexivity.
  - exists (ll ++ ll')%list. rewrite Hl', Hl, app_assoc. reflexivity.
Qed.

Lemma run_rows_kept (o : Op) (w : World) : rows_kept (db w) (db (run o w)).
Proof.
  destruct o as [c| | | | | | | | | | | | | | | | | | | | | | | | | | | |];
    [destruct c|..];
    unfold_methods; unfold order_updateMany; run_m; simpl_store;
    repeat (break_match_goal; simpl_store);
    unfold rows_kept; simpl_store;
    repeat split;
    first [reflexivity
          |exists []; symmetry; apply app_nil_r
          |exists []; rewrite app_nil_r; apply updateMany_keys; reflexivity
          |exists []; rewrite app_nil_r; apply update_first_keys; reflexivity
          |eexists; rewrite map_app; reflexivity
          |eexists; reflexivity].
Qed.

(** X26. The services delete no row but vote options. Across any sequence
    of operations the users are as they were; the orders, the perks and
    the votes that were there are there still, in their order and under
    their ids, followed by the ones created since, and an order keeps its
    user and its product; the claims are the same rows up to redeemedAt,
    followed by new ones; and the payments, the mints, the ballots and the
    ledger are the rows there were, followed by new ones. *)
Theorem only_vote_options_are_deleted (ops : list Op) (w : World) :
  rows_kept (db w) (db (run_all ops w)).
Proof.
  revert w. induction ops as [|o ops IH]; intros w.
  - apply rows_kept_refl.
  - cbn [run_all fold_left]. fold (run_all ops (run o w)).
    apply (rows_kept_trans _ _ _ (run_rows_kept o w) (IH (run o w))).
Qed.

(** The perks, the votes, the options and the orders after the run that
    creates and rewrites them: perk k1 is renamed, vote v2 is rewritten
    once (the update that names options is refused), and an order is
    inserted for each checkout of an active product, also for the one
    whose session Stripe refuses. *)
Example rows_after_admin_ops :
  let d := db (run_all sample_admin_ops (world_of perk_db)) in
  perks d = [mkPerk "k1" "Espresso" 12 true; mkPerk "k2" "Shirt" 40 true;
             mkPerk "k3" "Mug" 15 true]
  /\ votes d = [mkVote "v2" "Colour" (Some "Of the shirt") 300 500 true]
  /\ voteOptions d = [mkVoteOption "v2-0" "v2" "Red";
                      mkVoteOption "v2-1" "v2" "Blue"]
  /\ orders d = [mkOrder "o2" "u1" "p1" Pending;
                 mkOrder "o3" "u1" "p1" Pending]
  /\ perkClaims d = perkClaims perk_db.
Proof. vm_compute. repeat split; reflexivity. Qed.

(** The session of a product of 19.99 EUR is asked for with 1999 cents,
    the rounding of the number 1998.9999999999998 that 19.99 times 100
    is. *)
Example createCheckoutSession_example :
  fst (Stripe.createCheckoutSession sample_products sample_sessions_create
         integerToString "o2" "p1" "u1" "https://club/success"
         "https://club/cancel" (world_of perk_db))
  = Ok (StripeService.mkSession "cs_2" (Some "o2") (Some "u1") (Some "p1")
          (Some "100") (Some 1999%Z))
  /\ Double.mul (Double.round (1999 # 100)) (Finite 100%Q)
     = Double.round (19989999999999998 # 10000000000000)
  /\ Double.mul (Double.round (1999 # 100)) (Finite 100%Q)
     <> Finite 1999%Q.
Proof.
  vm_compute. repeat split; try reflexivity. intros H. discriminate H.
Qed.

(** ** PerkService.generateQRCode *)


(** X27. Two codes are equal only when they were made in the same
    millisecond from the same random bytes. [generateQRCode] loses nothing
    of its inputs: the base-36 text of the time and the hexadecimal text of
    the bytes hold digits and lower-case letters only, so the upper-casing
    merges no two of them, and the underscore between them keeps them
    apart. The uniqueness of a code therefore rests on the clock and the
    random bytes alone. *)
Theorem generateQRCode_injective (now1 now2 : Z)
  (random1 random2 : list Byte.byte) :
  (0 <= now1)%Z -> (0 <= now2)%Z ->
  PerkService.generateQRCode now1 random1
  = PerkService.generateQRCode now2 random2 ->
  now1 = now2 /\ random1 = random2.
Proof.
  intros Hn1 Hn2 H. unfold PerkService.generateQRCode in H.
  rewrite !(toUpperCase_app "PERK_") in H.
  cbn [toUpperCase append] in H.
  injection H as H. rewrite !toUpperCase_app in H.
  cbn [toUpperCase append] in H.
  change (upper_char "_") with "_"%char in H.
  destruct (toString36_value now1 Hn1) as [Hv1 Ha1].
  destruct (toString36_value now2 Hn2) as [Hv2 Ha2].
  destruct (split_at_underscore _ _ _ _ Ha1 Ha2 H) as [Ht Hh].
  apply (toUpperCase_inj _ _ Ha1 Ha2) in Ht.
  apply (toUpperCase_inj _ _ (toHex_alnum random1) (toHex_alnum random2))
    in Hh.
  split; [|apply toHex_inj, Hh].
  rewrite <- Hv1, <- Hv2, Ht. reflexivity.
Qed.

Lemma generateQRCode_injective_witness :
  600%Z = 600%Z /\ sample_random = sample_random.
Proof.
  apply (generateQRCode_injective 600 600 sample_random sample_random);
    [lia|lia|reflexivity].
Defined.

(** ** The mint and the settlement of an order *)

(** What a return of [mintTokens] tells about the world it ran on. *)
Lemma mintTokens_returned bc newId now orderId userId amount recipient w r :
  fst (TokenService.mintTokens bc newId now orderId userId amount recipient w)
  = Ok r ->
  exists addr tx,
    sdk w || chain_fromPrivateKey bc = true
    /\ chain_getContract bc = true
    /\ target_address w userId recipient = Some addr
    /\ chain_mintTo bc addr amount = Some tx
    /\ has_order (db w) orderId = true
    /\ mintOrderIdUnique (schema (db w)) && has_mint (db w) orderId = false
    /\ r = TokenService.mkMintResult tx true.
Proof.
  unfold target_address, has_order, has_mint.
  unfold_methods. run_m. simpl_store.
  destruct (sdk w) eqn:Hsdk; [|destruct (chain_fromPrivateKey bc)];
    simpl_store; try discriminate.
  all: destruct (find (fun u => (user_id u =? userId)%string) (users (db w)))
    as [u|]; [destruct (walletAddress u) as [a|]|];
    (destruct recipient as [x|]; unfold truthy;
     [destruct (x =? "")%string|]); try destruct (a =? "")%string;
    cbn [negb andb orb]; simpl_store; try discriminate.
  all: destruct (chain_getContract bc); simpl_store; try discriminate.
  all: match goal with
       | |- context [chain_mintTo ?b ?a ?q] =>
           destruct (chain_mintTo b a q) as [tx|] eqn:Htx
       end; simpl_store; try discriminate.
  all: destruct (existsb _ (orders (db w))) eqn:Ho; cbn [negb]; simpl_store;
    try discriminate.
  all: destruct (mintOrderIdUnique (schema (db w)) && _) eqn:Hu; simpl_store;
    try discriminate.
  all: intros H; injection H as H; subst r; eexists; eexists;
    repeat split; try reflexivity; assumption.
Qed.

(** A settlement whose conditions hold, exactly. *)
Lemma handleCheckoutCompleted_exact newId session w :
  let orderId :=
    match StripeService.meta_orderId session with
    | Some x => x
    | None => ""
    end in
  complete_metadata session = true ->
  has_order (db w) orderId = true ->
  paymentOrderIdUnique (schema (db w)) && has_payment (db w) orderId = false ->
  let out := StripeService.handleCheckoutCompleted newId session w in
  fst out = Ok tt
  /\ sdk (snd out) = sdk w
  /\ db (snd out)
     = with_payments
         (with_orders (db w)
            (update_first (fun o => (order_id o =? orderId)%string)
                          (set_status Completed) (orders (db w))))
         (payments (db w)
          ++ [mkPayment newId orderId "stripe"
                        (StripeService.amountEur_of session) "completed"]).
Proof.
  intros orderId Hm Ho Hp out. subst out orderId.
  unfold complete_metadata, has_order, has_payment in *.
  unfold_methods. run_m. simpl_store.
  apply andb_prop in Hm. destruct Hm as [Hm H4].
  apply andb_prop in Hm. destruct Hm as [Hm H3].
  apply andb_prop in Hm. destruct Hm as [H1 H2].
  rewrite H1, H2, H3, H4. cbn [negb orb]. rewrite Ho. simpl_store.
  rewrite update_first_existsb, Ho by reflexivity. cbn [negb].
  rewrite Hp. simpl_store. repeat split; reflexivity.
Qed.

(** What a return of the settlement tells about the world it ran on. *)
Lemma handleCheckoutCompleted_returned newId session w :
  let orderId :=
    match StripeService.meta_orderId session with
    | Some x => x
    | None => ""
    end in
  fst (StripeService.handleCheckoutCompleted newId session w) = Ok tt ->
  complete_metadata session = true
  /\ has_order (db w) orderId = true
  /\ paymentOrderIdUnique (schema (db w)) && has_payment (db w) orderId
     = false.
Proof.
  intros orderId. subst orderId.
  unfold complete_metadata, has_order, has_payment.
  unfold_methods. run_m. simpl_store.
  destruct (truthy (StripeService.meta_orderId session));
    destruct (truthy (StripeService.meta_userId session));
    destruct (truthy (StripeService.meta_productId session));
    destruct (truthy (StripeService.meta_tokenAmount session));
    cbn [negb orb andb]; simpl_store; try discriminate.
  destruct (existsb _ (orders (db w))) eqn:Ho; simpl_store;
    [|discriminate].
  rewrite update_first_existsb, Ho by reflexivity. cbn [negb].
  destruct (paymentOrderIdUnique (schema (db w)) && _) eqn:Hp;
    simpl_store; [discriminate|].
  intros _. repeat split.
Qed.

(** Completing the pending orders of an id and completing the first order
    of an id, in either order. *)
Lemma complete_orders_commute (mintOrder paidOrder : string)
  (l : list Order) :
  update_first (fun o => (order_id o =? paidOrder)%string)
    (set_status Completed)
    (map (fun o => if (order_id o =? mintOrder)%string
                      && status_eqb (order_status o) Pending
                   then set_status Completed o else o) l)
  = map (fun o => if (order_id o =? mintOrder)%string
                     && status_eqb (order_status o) Pending
                  then set_status Completed o else o)
        (update_first (fun o => (order_id o =? paidOrder)%string)
           (set_status Completed) l).
Proof.
  induction l as [|x l IH]; cbn [map update_first]; [reflexivity|].
  destruct ((order_id x =? mintOrder)%string
            && status_eqb (order_status x) Pending) eqn:Hx;
    cbn [set_status order_id];
    destruct (order_id x =? paidOrder)%string eqn:Hp;
    cbn [map set_status order_id order_status status_eqb];
    rewrite ?andb_false_r, ?Hx, ?IH; reflexivity.
Qed.

Lemma existsb_update_first {A} (p q : A -> bool) (f : A -> A) (l : list A) :
  (forall x, p (f x) = p x) ->
  existsb p (update_first q f l) = existsb p l.
Proof.
  intros H. induction l as [|x l IH]; cbn; [reflexivity|].
  destruct (q x); cbn; [rewrite H|rewrite IH]; reflexivity.
Qed.

(** X28. The mint and the settlement commute. When [mintTokens] and the
    settlement of a checkout ([handleCheckoutCompleted]) both return on a
    store, of the same order or of two, then each also returns after the
    other, with the same result, and the store at the end is the same
    whichever ran first: neither looks at what the other writes. *)
Theorem mint_and_settlement_commute (bc : Chain) (mintId : string) (now : Z)
  (orderId userId : string) (amount : Q) (recipient : option string)
  (paymentId : string) (session : StripeService.Session) (w : World)
  (r : TokenService.MintResult) :
  fst (TokenService.mintTokens bc mintId now orderId userId amount recipient
         w) = Ok r ->
  fst (StripeService.handleCheckoutCompleted paymentId session w) = Ok tt ->
  let minted :=
    snd (TokenService.mintTokens bc mintId now orderId userId amount recipient
           w) in
  let settled :=
    snd (StripeService.handleCheckoutCompleted paymentId session w) in
  let mint_then_settle :=
    StripeService.handleCheckoutCompleted paymentId session minted in
  let settle_then_mint :=
    TokenService.mintTokens bc mintId now orderId userId amount recipient
      settled in
  fst mint_then_settle = Ok tt
  /\ fst settle_then_mint = Ok r
  /\ db (snd mint_then_settle) = db (snd settle_then_mint).
Proof.
  intros Hmint Hsettle minted settled mint_then_settle settle_then_mint.
  destruct (mintTokens_returned _ _ _ _ _ _ _ _ _ Hmint)
    as (addr & tx & Hsdk & Hc & Ht & Htx & Ho & Hu & Hr).
  destruct (handleCheckoutCompleted_returned _ _ _ Hsettle)
    as (Hm & Hpo & Hp).
  set (paidOrder := match StripeService.meta_orderId session with
                    | Some x => x
                    | None => ""
                    end) in *.
  destruct (mintTokens_call bc mintId now orderId userId amount recipient w
              addr Hsdk Hc Ht) as [_ Hcall].
  specialize (Hcall tx Htx Ho). rewrite Hu in Hcall.
  destruct Hcall as (_ & _ & Hdb1). fold minted in Hdb1.
  destruct (handleCheckoutCompleted_exact paymentId session w Hm Hpo Hp)
    as (_ & Hsdk2 & Hdb2).
  fold settled paidOrder in Hsdk2, Hdb2.
  (* the settlement after the mint *)
  destruct (handleCheckoutCompleted_exact paymentId session minted Hm)
    as (Hfst12 & _ & Hdb12).
  { rewrite Hdb1. unfold has_order in *. simpl_store.
    rewrite existsb_map_same; [exact Hpo|].
    intros x.
    destruct ((order_id x =? orderId)%string
              && status_eqb (order_status x) Pending); reflexivity. }
  { rewrite Hdb1. exact Hp. }
  fold mint_then_settle paidOrder in Hfst12, Hdb12.
  (* the mint after the settlement *)
  assert (Hsdk' : sdk settled || chain_fromPrivateKey bc = true)
    by (rewrite Hsdk2; exact Hsdk).
  assert (Ht' : target_address settled userId recipient = Some addr).
  { unfold target_address in *. rewrite Hdb2. exact Ht. }
  destruct (mintTokens_call bc mintId now orderId userId amount recipient
              settled addr Hsdk' Hc Ht') as [_ Hcall].
  assert (Ho' : has_order (db settled) orderId = true).
  { rewrite Hdb2. unfold has_order in *. simpl_store.
    rewrite existsb_update_first by reflexivity. exact Ho. }
  specialize (Hcall tx Htx Ho').
  replace (mintOrderIdUnique (schema (db settled))
           && has_mint (db settled) orderId) with false in Hcall
    by (rewrite Hdb2; symmetry; exact Hu).
  destruct Hcall as (Hfst21 & _ & Hdb21).
  fold settle_then_mint in Hfst21, Hdb21.
  split; [exact Hfst12|]. split; [rewrite Hfst21, Hr; reflexivity|].
  rewrite Hdb12, Hdb21, Hdb1, Hdb2. simpl_store.
  unfold with_payments, with_orders, with_mints. simpl_store.
  rewrite complete_orders_commute. reflexivity.
Qed.

Lemma mint_and_settlement_commute_witness :
  let w := world_of club_db in
  let minted :=
    snd (TokenService.mintTokens (chain_accepting "0xaaa") "m1" 1000 "o1"
           "u1" 100 None w) in
  let settled :=
    snd (StripeService.handleCheckoutCompleted "pay1" checkout_o1 w) in
  let mint_then_settle :=
    StripeService.handleCheckoutCompleted "pay1" checkout_o1 minted in
  let settle_then_mint :=
    TokenService.mintTokens (chain_accepting "0xaaa") "m1" 1000 "o1" "u1" 100
      None settled in
  fst mint_then_settle = Ok tt
  /\ fst settle_then_mint = Ok (TokenService.mkMintResult "0xaaa" true)
  /\ db (snd mint_then_settle) = db (snd settle_then_mint).
Proof.
  apply (mint_and_settlement_commute (chain_accepting "0xaaa") "m1" 1000 "o1"
           "u1" 100 None "pay1" checkout_o1 (world_of club_db)
           (TokenService.mkMintResult "0xaaa" true)); reflexivity.
Defined.

